(** * nornir-netbox-demo: provisioning pipeline, validation and reconciliation

    A shallow embedding of [nornir-netbox-demo.py].  Python values that the
    script compares dynamically are kept as tagged values; tasks are
    computations in a state monad whose exceptions keep the effects
    performed before the raise; dictionaries that the script iterates are
    association lists in insertion order. *)

From Stdlib Require Import List String Ascii ZArith Bool Lia.
From Stdlib Require Import DecimalString.
Import ListNotations.

Local Open Scope string_scope.
Local Open Scope Z_scope.

(** ** Python values and comparison *)

Module Py.

(** The values a JSON-backed getter can place in a field. *)
Inductive value : Type :=
| None_
| Bool (b : bool)
| Int (z : Z)
| Str (s : string).

(** [bool] is a subclass of [int] in Python: [True == 1]. *)
Definition int_of_bool (b : bool) : Z := if b then 1 else 0.

(** Python's [==] on these values. *)
Definition eq (a b : value) : bool :=
  match a, b with
  | None_, None_ => true
  | Bool x, Bool y => Bool.eqb x y
  | Bool x, Int y => int_of_bool x =? y
  | Int x, Bool y => x =? int_of_bool y
  | Int x, Int y => x =? y
  | Str x, Str y => String.eqb x y
  | _, _ => false
  end.

(** Exceptions the modelled code can raise. *)
Inductive exn : Type :=
| ValueError
| KeyError
| TypeError
| IndexError
| NornirSubTaskError
| EOFError
| SystemExit.

End Py.

(** ** Tasks: state with exceptions *)

Module Task.

Inductive result (A : Type) : Type :=
| Ok (a : A)
| Raise (e : Py.exn).
Arguments Ok {A} a.
Arguments Raise {A} e.

(** A computation transforms the state and either returns or raises; the
    state reached when it raises is kept. *)
Definition M (S A : Type) : Type := S -> S * result A.

Definition ret {S A} (a : A) : M S A := fun s => (s, Ok a).

Definition raise {S A} (e : Py.exn) : M S A := fun s => (s, Raise e).

Definition bind {S A B} (c : M S A) (k : A -> M S B) : M S B :=
  fun s =>
    match c s with
    | (s', Ok a) => k a s'
    | (s', Raise e) => (s', Raise e)
    end.

Definition gets {S A} (f : S -> A) : M S A := fun s => (s, Ok (f s)).

Definition modify {S} (f : S -> S) : M S unit := fun s => (f s, Ok tt).

(** [d[key]] on an optional entry. *)
Definition require {S A} (e : Py.exn) (o : option A) : M S A :=
  match o with
  | Some a => ret a
  | None => raise e
  end.

(** [for x in l: acc = body(acc, x)] *)
Fixpoint for_fold {S A B} (l : list A) (acc : B) (body : B -> A -> M S B)
  : M S B :=
  match l with
  | [] => ret acc
  | x :: l' => bind (body acc x) (fun acc' => for_fold l' acc' body)
  end.

(** [for x in l: body(x)] *)
Fixpoint for_each {S A} (l : list A) (body : A -> M S unit) : M S unit :=
  match l with
  | [] => ret tt
  | x :: l' => bind (body x) (fun _ => for_each l' body)
  end.

End Task.

Import Task.

Declare Scope task_scope.
Delimit Scope task_scope with task.
Notation "x <- c ;; k" := (bind c (fun x => k))
  (at level 61, c at next level, right associativity) : task_scope.
Notation "c ;;; k" := (bind c (fun _ => k))
  (at level 61, right associativity) : task_scope.
Local Open Scope task_scope.

(** ** Data model *)

(** A BGP neighbor entry of the config context. *)
Record neighbor : Type := mk_neighbor {
  neighbor_ipaddr : string;
  remote_asn : Z
}.

(** An interface entry of the config context; [intent_ipaddr] holds the
    address and the mask separated by one space. *)
Record intent : Type := mk_intent {
  intent_description : string;
  intent_ipaddr : string;
  intent_state : string
}.

(** [local_context_data]: the BGP neighbors and the interfaces, the latter
    keyed by interface name in insertion order. *)
Record config_vars : Type := mk_config_vars {
  bgp_neighbors : list neighbor;
  interfaces : list (string * intent)
}.

(** [ipaddress] objects: a network is a version, a network address and a
    prefix length; an interface is a host address inside a network. *)
Record IPNetwork : Type := mk_network {
  version : Z;
  network_address : Z;
  prefixlen : Z
}.

Record IPInterface : Type := mk_interface {
  ip : Z;
  network : IPNetwork
}.

(** [IPNetwork.__eq__] *)
Definition network_eq (a b : IPNetwork) : bool :=
  (version a =? version b)
  && (network_address a =? network_address b)
  && (prefixlen a =? prefixlen b).

(** The result dictionary of a ping: it holds a ['success'] entry with the
    counters, or an ['error'] entry. *)
Record ping_success : Type := mk_ping_success {
  probes_sent : Z;
  packet_loss : Z
}.

Record ping_result : Type := mk_ping_result {
  success : option ping_success;
  error : option string
}.

(** One interface of the device, as the [interfaces] getter reports it. *)
Record interface_facts : Type := mk_interface_facts {
  description : string;
  mac_address : Py.value
}.

(** One peer of the [get_bgp_neighbors] getter. *)
Record peer_facts : Type := mk_peer_facts {
  is_up : Py.value
}.

(** An interface record as the inventory API returns it. *)
Record nb_interface : Type := mk_nb_interface {
  nb_id : Z;
  nb_device_display_name : string;
  nb_name : string
}.

(** Text handed to [c_print], by the f-string that builds it. *)
Inductive message : Type :=
| PingFailed (host source destination : string)
  (* "{host} ping {source} > {destination} has FAILED" *)
| AllPingsSucceeded (host : string)
  (* "{host}: All ping tests have succeeded" *)
| PeerUp (host peer : string)
  (* "{host}: BGP peer {peer} is UP" *)
| PeerDown (host peer : string)
  (* "{host}: BGP peer {peer} is DOWN" *)
| CreatingInterface (host interface_name : string)
  (* "{host}: creating Netbox interface: {interface_name}" *)
| UpdatingInterface (host interface_name : string)
  (* "{host}: updating Netbox Interface: {interface_name}" *)
| IpExists (host ipaddr : string)
  (* "{host}: {ipaddr} exists - verify manually in Netbox" *)
| MovedToProduction (host : string)
  (* "{host}: moved from Provisioning to Production" *).

(** What a task does that the outside can see: text printed, probes sent
    and write calls on the inventory API. *)
Inductive event : Type :=
| Printed (m : message)
| Ping (host dest source : string)
| CreateInterface (name : string) (device_id interface_type : Z)
  (descr : string) (mac : Py.value)
| UpdateInterface (device interface_name descr : string) (mac : Py.value)
| CreateIpAddress (address : string) (interface_id : Z)
| UpdateDevice (device_name : string) (device_type device_role site : Z).

(** ** Strings *)

(** [s.split(sep)] for a one-character separator: every occurrence splits,
    so consecutive separators give empty pieces. *)
Fixpoint split (sep : ascii) (s : string) : list string :=
  match s with
  | EmptyString => [EmptyString]
  | String c s' =>
      if Ascii.eqb c sep then EmptyString :: split sep s'
      else
        match split sep s' with
        | [] => [String c EmptyString]
        | piece :: pieces => String c piece :: pieces
        end
  end.

(** [a, b = pieces]: unpacking into two names needs exactly two pieces. *)
Definition unpack2 {S} (pieces : list string) : M S (string * string) :=
  match pieces with
  | [a; b] => ret (a, b)
  | _ => raise Py.ValueError
  end.

(** ** The inventory (source of truth) *)

Module Netbox.

(** Stored records. *)
Record device_row : Type := mk_device_row {
  dev_id : Z;
  dev_name : string;
  dev_type : Z;
  dev_role : Z;
  dev_site : Z
}.

Record interface_row : Type := mk_interface_row {
  row_id : Z;
  row_device_id : Z;
  row_name : string;
  row_type : Z;
  row_description : string;
  row_mac : Py.value
}.

Record ip_row : Type := mk_ip_row {
  ip_address : string;
  ip_interface_id : Z
}.

#[projections(primitive)]
Record inventory : Type := mk_inventory {
  devices : list device_row;
  interface_rows : list interface_row;
  ip_rows : list ip_row;
  next_id : Z
}.

(** Modelled from the spec: the Source-of-Truth Client is an external
    collaborator; its calls are modelled after section 6, "interface
    list/create/update by device id and name; IP-address
    lookup-by-literal-address/create; device update (type/role/site
    attributes)", over plain tables that enforce no uniqueness themselves. *)
Definition display_name (inv : inventory) (device_id : Z) : string :=
  match find (fun d => dev_id d =? device_id) (devices inv) with
  | Some d => dev_name d
  | None => EmptyString
  end.

Definition view (inv : inventory) (r : interface_row) : nb_interface :=
  {| nb_id := row_id r;
     nb_device_display_name := display_name inv (row_device_id r);
     nb_name := row_name r |}.

(** Modelled from the spec: interface list by device id. *)
Definition get_interfaces (inv : inventory) (device_id : Z) : list nb_interface :=
  map (view inv)
    (filter (fun r => row_device_id r =? device_id) (interface_rows inv)).

(** Modelled from the spec: interface create; the new record is appended
    under a fresh identifier. *)
Definition create_interface (inv : inventory) (name : string)
    (device_id interface_type : Z) (descr : string) (mac : Py.value)
  : inventory :=
  {| devices := devices inv;
     interface_rows :=
       interface_rows inv ++
       [ {| row_id := next_id inv; row_device_id := device_id;
            row_name := name; row_type := interface_type;
            row_description := descr; row_mac := mac |} ];
     ip_rows := ip_rows inv;
     next_id := next_id inv + 1 |}.

(** Replaces the first element that satisfies [p]; [None] when there is
    none. *)
Fixpoint patch_first {A} (p : A -> bool) (f : A -> A) (l : list A)
  : option (list A) :=
  match l with
  | [] => None
  | x :: l' =>
      if p x then Some (f x :: l')
      else match patch_first p f l' with
           | Some l'' => Some (x :: l'')
           | None => None
           end
  end.

Definition set_description_mac (descr : string) (mac : Py.value)
    (r : interface_row) : interface_row :=
  {| row_id := row_id r; row_device_id := row_device_id r;
     row_name := row_name r; row_type := row_type r;
     row_description := descr; row_mac := mac |}.

(** Modelled from the spec: interface update by device name and interface
    name; the record found first is patched, and the call fails when the
    lookup finds none. *)
Definition update_interface (inv : inventory) (device interface_name : string)
    (descr : string) (mac : Py.value) : option inventory :=
  match
    patch_first
      (fun r => String.eqb (display_name inv (row_device_id r)) device
                && String.eqb (row_name r) interface_name)
      (set_description_mac descr mac)
      (interface_rows inv)
  with
  | Some rows =>
      Some {| devices := devices inv; interface_rows := rows;
              ip_rows := ip_rows inv; next_id := next_id inv |}
  | None => None
  end.

(** Modelled from the spec: IP-address lookup by literal address. *)
Definition get_ip_addresses (inv : inventory) (address : string) : list ip_row :=
  filter (fun r => String.eqb (ip_address r) address) (ip_rows inv).

(** Modelled from the spec: IP-address create. *)
Definition create_ip_address (inv : inventory) (address : string)
    (interface_id : Z) : inventory :=
  {| devices := devices inv;
     interface_rows := interface_rows inv;
     ip_rows :=
       ip_rows inv ++
       [ {| ip_address := address; ip_interface_id := interface_id |} ];
     next_id := next_id inv |}.

Definition set_type_role_site (device_type device_role site : Z)
    (d : device_row) : device_row :=
  {| dev_id := dev_id d; dev_name := dev_name d;
     dev_type := device_type; dev_role := device_role; dev_site := site |}.

(** Modelled from the spec: device update (type/role/site attributes) by
    device name; the call fails when no device has that name. *)
Definition update_device (inv : inventory) (device_name : string)
    (device_type device_role site : Z) : option inventory :=
  match
    patch_first (fun d => String.eqb (dev_name d) device_name)
      (set_type_role_site device_type device_role site)
      (devices inv)
  with
  | Some devs =>
      Some {| devices := devs; interface_rows := interface_rows inv;
              ip_rows := ip_rows inv; next_id := next_id inv |}
  | None => None
  end.

End Netbox.

(** ** Tasks *)

(** [task.host]: the host's name and the entries that the tasks store
    under string keys; an entry that was never stored is absent. *)
Record host_data : Type := mk_host_data {
  host_name : string;
  host_device_id : option Z;
  host_config_vars : option config_vars;
  host_nb_interfaces : option (list nb_interface);
  host_interfaces : option (list (string * interface_facts));
  host_device_info : option string
}.

Definition set_nb_interfaces (v : list nb_interface) (h : host_data) : host_data :=
  {| host_name := host_name h; host_device_id := host_device_id h;
     host_config_vars := host_config_vars h;
     host_nb_interfaces := Some v;
     host_interfaces := host_interfaces h;
     host_device_info := host_device_info h |}.

Definition set_interfaces (v : list (string * interface_facts)) (h : host_data)
  : host_data :=
  {| host_name := host_name h; host_device_id := host_device_id h;
     host_config_vars := host_config_vars h;
     host_nb_interfaces := host_nb_interfaces h;
     host_interfaces := Some v;
     host_device_info := host_device_info h |}.

Definition set_device_info (v : string) (h : host_data) : host_data :=
  {| host_name := host_name h; host_device_id := host_device_id h;
     host_config_vars := host_config_vars h;
     host_nb_interfaces := host_nb_interfaces h;
     host_interfaces := host_interfaces h;
     host_device_info := Some v |}.

(** [d[key]] on a dictionary kept as an association list. *)
Fixpoint lookup {A} (key : string) (d : list (string * A)) : option A :=
  match d with
  | [] => None
  | (k, v) :: d' => if String.eqb k key then Some v else lookup key d'
  end.

(** The sentinel written when a device reports no MAC address. *)
Definition mac_sentinel : string := "EE:EE:EE:EE:EE:EE".

(** Lines 406-407 of [update_netbox]: the three comparisons and the
    assignment. *)
Definition normalize_mac (mac_address : Py.value) : Py.value :=
  if Py.eq mac_address (Py.Str "None")
     || Py.eq mac_address (Py.Str "Unspecified")
     || Py.eq mac_address (Py.Str "")
  then Py.Str mac_sentinel
  else mac_address.

(** [is_interface_present] *)
Fixpoint is_interface_present (nb_interfaces : list nb_interface)
    (device_name interface_name : string) : bool :=
  match nb_interfaces with
  | [] => false
  | i :: rest =>
      if String.eqb (nb_name i) interface_name
         && String.eqb (nb_device_display_name i) device_name
      then true
      else is_interface_present rest device_name interface_name
  end.

(** The network of devices behind the transport, and the transport's
    calls: a ping changes the network's state and returns a result
    dictionary unless the subtask fails; a getter reads structured facts
    unless the subtask fails. *)
Class Transport : Type := {
  network_state : Type;
  napalm_ping :
    string -> string -> string -> network_state ->
    network_state * option ping_result;
  napalm_get_bgp_neighbors :
    string -> network_state -> option (list (string * peer_facts));
  napalm_get_interfaces :
    string -> network_state -> option (list (string * interface_facts));
  napalm_get_facts : string -> network_state -> option string
}.

(** [ipaddress.ip_interface], which raises on text that is no interface
    address, and [str] of its result. *)
Class Ipaddress : Type := {
  ip_interface : string -> option IPInterface;
  ip_interface_str : IPInterface -> string
}.

Section Tasks.

Context {transport : Transport} {ipaddress : Ipaddress}.

(** What a task runs against. *)
#[projections(primitive)]
Record state : Type := mk_state {
  host : host_data;
  netbox : Netbox.inventory;
  net : network_state;
  out : list event
}.

Definition task : Type -> Type := M state.

Definition emit (e : event) : task unit :=
  modify (fun s =>
    {| host := host s; netbox := netbox s; net := net s;
       out := out s ++ [e] |}).

Definition c_print (m : message) : task unit := emit (Printed m).

Definition set_host (f : host_data -> host_data) : task unit :=
  modify (fun s =>
    {| host := f (host s); netbox := netbox s; net := net s; out := out s |}).

Definition set_netbox (inv : Netbox.inventory) : task unit :=
  modify (fun s =>
    {| host := host s; netbox := inv; net := net s; out := out s |}).

(** [task.run(task=napalm_ping, dest=..., source=...)]: a failed subtask
    raises in the calling task. *)
Definition run_napalm_ping (dest source : string) : task ping_result :=
  fun s =>
    let (net', r) := napalm_ping (host_name (host s)) dest source (net s) in
    ({| host := host s; netbox := netbox s; net := net';
        out := out s ++ [Ping (host_name (host s)) dest source] |},
     match r with
     | Some ping => Ok ping
     | None => Raise Py.NornirSubTaskError
     end).

(** One pass of the inner loop of [validate_l3] (lines 289-319), for one
    neighbor address and one interface of the intent. *)
Definition validate_l3_pair (destination : string) (failed_pings : Z)
    (intf : intent) : task Z :=
  sm <- unpack2 (split " " (intent_ipaddr intf)) ;;
  let (source, mask) := sm in
  src <- require Py.ValueError (ip_interface (source ++ "/" ++ mask)) ;;
  dst <- require Py.ValueError (ip_interface (destination ++ "/" ++ mask)) ;;
  if network_eq (network src) (network dst) then
    ping <- run_napalm_ping destination source ;;
    task_host <- gets (fun s => host_name (host s)) ;;
    match success ping with
    | Some ok =>
        if packet_loss ok <? 2 then ret failed_pings
        else
          c_print (PingFailed task_host source destination) ;;;
          ret (failed_pings + 1)
    | None =>
        c_print (PingFailed task_host source destination) ;;;
        ret (failed_pings + 1)
    end
  else ret failed_pings.

(** Lines 280-319 of [validate_l3]: both loops; the result is the final
    value of [failed_pings]. *)
Definition validate_l3_pings : task Z :=
  cfg <- bind (gets (fun s => host_config_vars (host s))) (require Py.KeyError) ;;
  for_fold (bgp_neighbors cfg) 0
    (fun failed_pings neighbor =>
       let destination := neighbor_ipaddr neighbor in
       for_fold (map snd (interfaces cfg)) failed_pings
         (validate_l3_pair destination)).

(** [validate_l3] *)
Definition validate_l3 : task unit :=
  failed_pings <- validate_l3_pings ;;
  if failed_pings =? 0 then
    task_host <- gets (fun s => host_name (host s)) ;;
    c_print (AllPingsSucceeded task_host)
  else ret tt.

(** One pass of the loop of [validate_bgp] (lines 349-355). *)
Definition validate_bgp_peer (peer : string * peer_facts) : task unit :=
  task_host <- gets (fun s => host_name (host s)) ;;
  let bgp_status := is_up (snd peer) in
  (if Py.eq bgp_status (Py.Bool true)
   then c_print (PeerUp task_host (fst peer)) else ret tt) ;;;
  (if Py.eq bgp_status (Py.Bool false)
   then c_print (PeerDown task_host (fst peer)) else ret tt).

(** [validate_bgp] *)
Definition validate_bgp : task unit :=
  peers <- bind (gets (fun s => napalm_get_bgp_neighbors (host_name (host s)) (net s)))
             (require Py.NornirSubTaskError) ;;
  for_each peers validate_bgp_peer.

(** [get_updated_info] *)
Definition get_updated_info : task unit :=
  device_id <- bind (gets (fun s => host_device_id (host s))) (require Py.KeyError) ;;
  nb_intf <- gets (fun s => Netbox.get_interfaces (netbox s) device_id) ;;
  set_host (set_nb_interfaces nb_intf) ;;;
  intf <- bind (gets (fun s => napalm_get_interfaces (host_name (host s)) (net s)))
            (require Py.NornirSubTaskError) ;;
  set_host (set_interfaces intf) ;;;
  info <- bind (gets (fun s => napalm_get_facts (host_name (host s)) (net s)))
            (require Py.NornirSubTaskError) ;;
  set_host (set_device_info info).

(** The inventory's write calls, each recorded in the output. *)
Definition netbox_create_interface (name : string) (device_id interface_type : Z)
    (descr : string) (mac : Py.value) : task unit :=
  emit (CreateInterface name device_id interface_type descr mac) ;;;
  inv <- gets netbox ;;
  set_netbox (Netbox.create_interface inv name device_id interface_type descr mac).

Definition netbox_update_interface (device interface_name descr : string)
    (mac : Py.value) : task unit :=
  emit (UpdateInterface device interface_name descr mac) ;;;
  inv <- gets netbox ;;
  inv' <- require Py.IndexError
            (Netbox.update_interface inv device interface_name descr mac) ;;
  set_netbox inv'.

Definition netbox_create_ip_address (address : string) (interface_id : Z)
  : task unit :=
  emit (CreateIpAddress address interface_id) ;;;
  inv <- gets netbox ;;
  set_netbox (Netbox.create_ip_address inv address interface_id).

Definition netbox_update_device (device_name : string)
    (device_type device_role site : Z) : task unit :=
  emit (UpdateDevice device_name device_type device_role site) ;;;
  inv <- gets netbox ;;
  inv' <- require Py.IndexError
            (Netbox.update_device inv device_name device_type device_role site) ;;
  set_netbox inv'.

(** One pass of the first loop of [update_netbox] (lines 401-427). *)
Definition upsert_interface (device_interfaces : list (string * interface_facts))
    (nb_interfaces : list nb_interface) (device_id : Z)
    (interface_name : string) : task unit :=
  task_host <- gets (fun s => host_name (host s)) ;;
  facts <- require Py.KeyError (lookup interface_name device_interfaces) ;;
  let description := description facts in
  let mac_address := normalize_mac (mac_address facts) in
  if negb (is_interface_present nb_interfaces task_host interface_name) then
    c_print (CreatingInterface task_host interface_name) ;;;
    netbox_create_interface interface_name device_id 1000 description mac_address
  else
    c_print (UpdatingInterface task_host interface_name) ;;;
    netbox_update_interface task_host interface_name description mac_address.

(** One pass of the second loop of [update_netbox] (lines 436-455). *)
Definition reconcile_ip (nb_interfaces : list nb_interface)
    (intf : string * intent) : task unit :=
  task_host <- gets (fun s => host_name (host s)) ;;
  im <- unpack2 (split " " (intent_ipaddr (snd intf))) ;;
  let (ip, mask) := im in
  parsed <- require Py.ValueError (ip_interface (ip ++ "/" ++ mask)) ;;
  let ipaddr := ip_interface_str parsed in
  ip_exists <- gets (fun s => Netbox.get_ip_addresses (netbox s) ipaddr) ;;
  for_each nb_interfaces
    (fun nb_intf =>
       if String.eqb (fst intf) (nb_name nb_intf) then
         match ip_exists with
         | [] => netbox_create_ip_address ipaddr (nb_id nb_intf)
         | _ :: _ => c_print (IpExists task_host ipaddr)
         end
       else ret tt).

(** [update_netbox] *)
Definition update_netbox : task unit :=
  get_updated_info ;;;
  device_interfaces <-
    bind (gets (fun s => host_interfaces (host s))) (require Py.KeyError) ;;
  nb_interfaces <- bind (gets (fun s => host_nb_interfaces (host s))) (require Py.KeyError) ;;
  device_id <- bind (gets (fun s => host_device_id (host s))) (require Py.KeyError) ;;
  for_each (map fst device_interfaces)
    (upsert_interface device_interfaces nb_interfaces device_id) ;;;
  get_updated_info ;;;
  nb_interfaces <- bind (gets (fun s => host_nb_interfaces (host s))) (require Py.KeyError) ;;
  cfg <- bind (gets (fun s => host_config_vars (host s))) (require Py.KeyError) ;;
  for_each (interfaces cfg) (reconcile_ip nb_interfaces) ;;;
  task_host <- gets (fun s => host_name (host s)) ;;
  netbox_update_device task_host 2 2 1 ;;;
  c_print (MovedToProduction task_host).

End Tasks.

(** ** IPv4 addresses of the [ipaddress] module

    The dotted-quad part of [ip_interface], used to run the tasks on
    concrete configuration data. *)

Module IPv4.

Definition ALL_ONES : Z := 2 ^ 32 - 1.

Definition is_digit (c : ascii) : bool :=
  let n := nat_of_ascii c in (48 <=? n)%nat && (n <=? 57)%nat.

Fixpoint all_digits (s : string) : bool :=
  match s with
  | EmptyString => true
  | String c s' => is_digit c && all_digits s'
  end.

(** [int(s)] on a non-empty string of ASCII digits. *)
Definition parse_decimal (s : string) : option Z :=
  match s with
  | EmptyString => None
  | _ =>
      if all_digits s
      then option_map (fun u => Z.of_N (N.of_uint u)) (NilEmpty.uint_of_string s)
      else None
  end.

(** [_parse_octet]: one to three decimal digits, no leading zero, at most
    255. *)
Definition parse_octet (s : string) : option Z :=
  match parse_decimal s with
  | Some v =>
      if (3 <? String.length s)%nat then None
      else if (1 <? String.length s)%nat && String.prefix "0" s then None
      else if v <=? 255 then Some v
      else None
  | None => None
  end.

(** [_ip_int_from_string]: exactly four octets. *)
Definition ip_int_from_string (s : string) : option Z :=
  match map parse_octet (split "." s) with
  | [Some a; Some b; Some c; Some d] =>
      Some (Z.lor (Z.shiftl a 24) (Z.lor (Z.shiftl b 16) (Z.lor (Z.shiftl c 8) d)))
  | _ => None
  end.

(** [_ip_int_from_prefix] *)
Definition ip_int_from_prefix (prefixlen : Z) : Z :=
  Z.lxor ALL_ONES (Z.shiftr ALL_ONES prefixlen).

(** [_prefix_from_ip_int]: the prefix length whose netmask is [ip_int]. *)
Definition prefix_from_ip_int (ip_int : Z) : option Z :=
  find (fun p => ip_int_from_prefix p =? ip_int)
    (map Z.of_nat (seq 0 33)).

(** [_prefix_from_prefix_string] *)
Definition prefix_from_prefix_string (s : string) : option Z :=
  match parse_decimal s with
  | Some p => if p <=? 32 then Some p else None
  | None => None
  end.

(** [_prefix_from_ip_string]: a netmask, or else a hostmask. *)
Definition prefix_from_ip_string (s : string) : option Z :=
  match ip_int_from_string s with
  | Some ip_int =>
      match prefix_from_ip_int ip_int with
      | Some p => Some p
      | None => prefix_from_ip_int (Z.lxor ip_int ALL_ONES)
      end
  | None => None
  end.

(** [_make_netmask] *)
Definition make_netmask (arg : string) : option Z :=
  match prefix_from_prefix_string arg with
  | Some p => Some p
  | None => prefix_from_ip_string arg
  end.

(** [IPv4Interface(address)] *)
Definition ip_interface (address : string) : option IPInterface :=
  match
    match split "/" address with
    | [addr] => Some (addr, "32")
    | [addr; mask] => Some (addr, mask)
    | _ => None
    end
  with
  | Some (addr, mask) =>
      match ip_int_from_string addr, make_netmask mask with
      | Some ip_int, Some p =>
          Some {| ip := ip_int;
                  network :=
                    {| version := 4;
                       network_address := Z.land ip_int (ip_int_from_prefix p);
                       prefixlen := p |} |}
      | _, _ => None
      end
  | None => None
  end.

Definition decimal (v : Z) : string :=
  NilZero.string_of_uint (N.to_uint (Z.to_N v)).

(** [_string_from_ip_int] *)
Definition string_from_ip_int (ip_int : Z) : string :=
  decimal (Z.land (Z.shiftr ip_int 24) 255) ++ "." ++
  decimal (Z.land (Z.shiftr ip_int 16) 255) ++ "." ++
  decimal (Z.land (Z.shiftr ip_int 8) 255) ++ "." ++
  decimal (Z.land ip_int 255).

(** [IPv4Interface.__str__] *)
Definition ip_interface_str (i : IPInterface) : string :=
  string_from_ip_int (ip i) ++ "/" ++ decimal (prefixlen (network i)).

End IPv4.

(** ** The pipeline *)

(** [s.lower()] on ASCII letters. *)
Definition lower_ascii (c : ascii) : ascii :=
  let n := nat_of_ascii c in
  if (65 <=? n)%nat && (n <=? 90)%nat then ascii_of_nat (n + 32) else c.

Fixpoint lower (s : string) : string :=
  match s with
  | EmptyString => EmptyString
  | String c s' => String (lower_ascii c) (lower s')
  end.

(** The tasks that [main] hands to [nr.run], in the order of the calls. *)
Inductive stage : Type :=
| ScpEnable
| GetConfigVars
| RenderConfigs
| ApplyL3Configs
| ValidateL3
| ApplyBgpConfigs
| ValidateBgp
| UpdateNetbox
| ScpDisable.

Definition stage_index (t : stage) : nat :=
  match t with
  | ScpEnable => 0
  | GetConfigVars => 1
  | RenderConfigs => 2
  | ApplyL3Configs => 3
  | ValidateL3 => 4
  | ApplyBgpConfigs => 5
  | ValidateBgp => 6
  | UpdateNetbox => 7
  | ScpDisable => 8
  end.

(** What a run shows: a task executed on a host and whether it failed,
    the failed hosts printed after a stage, and the exit banner. *)
Inductive run_event : Type :=
| Executed (t : stage) (host : string) (failed : bool)
| FailedHosts (t : stage) (hosts : list string)
| Exiting.

Definition mem (h : string) (l : list string) : bool := existsb (String.eqb h) l.

(** [set.update]: the elements not yet present are added. *)
Fixpoint update (set new : list string) : list string :=
  match new with
  | [] => set
  | h :: new' => update (if mem h set then set else set ++ [h]) new'
  end.

(** Everything the tasks act on, and the effect of one task on one host:
    the new state of the world and whether the task raised. *)
Class Runner : Type := {
  world_state : Type;
  run_task : stage -> string -> world_state -> world_state * bool
}.

Section Pipeline.

Context {runner : Runner}.

#[projections(primitive)]
Record run_state : Type := mk_run_state {
  failed_hosts : list string;
  stdin : list string;
  world : world_state;
  log : list run_event
}.

Definition script : Type -> Type := M run_state.

Definition record (es : list run_event) : script unit :=
  modify (fun s =>
    {| failed_hosts := failed_hosts s; stdin := stdin s; world := world s;
       log := log s ++ es |}).

(** [input()]: the next line of standard input. *)
Definition input : script string :=
  fun s =>
    match stdin s with
    | [] => (s, Raise Py.EOFError)
    | line :: rest =>
        ({| failed_hosts := failed_hosts s; stdin := rest; world := world s;
            log := log s |}, Ok line)
    end.

(** [exit()] *)
Definition exit {A} : script A := raise Py.SystemExit.

(** [proceed] *)
Definition proceed : script unit :=
  confirm <- input ;;
  if negb (String.eqb (lower confirm) "y") then
    record [Exiting] ;;; exit
  else ret tt.

(** [kickoff]: the hosts of the inventory, given with their role, are
    filtered on the provisioning role; the run needs at least one. *)
Definition kickoff (inventory : list (string * string)) : script (list string) :=
  let nr :=
    map fst
      (filter (fun h => String.eqb (snd h) "wan-router-provision") inventory) in
  if (List.length nr =? 0)%nat then record [Exiting] ;;; exit
  else ret nr.

(** The task on each host of [run_on] in turn; the result pairs each host
    with whether its task failed. *)
Fixpoint run_on_hosts (t : stage) (run_on : list string) (w : world_state)
  : world_state * list (string * bool) :=
  match run_on with
  | [] => (w, [])
  | h :: rest =>
      let (w', failed) := run_task t h w in
      let (w'', results) := run_on_hosts t rest w' in
      (w'', (h, failed) :: results)
  end.

(** Modelled from the spec: [nr.run] is the external runner; after section
    4.1 it "executes a stage ... across all devices in the current cohort;
    cohort = devices that have not yet failed a prior stage", a task's
    failure is recorded and never raised, and the hosts that failed are
    added to the failed-hosts set. *)
Definition nr_run (nr : list string) (t : stage) : script unit :=
  fun s =>
    let run_on := filter (fun h => negb (mem h (failed_hosts s))) nr in
    let result := run_on_hosts t run_on (world s) in
    ({| failed_hosts :=
          update (failed_hosts s) (map fst (filter snd (snd result)));
        stdin := stdin s;
        world := fst result;
        log := log s ++ map (fun r => Executed t (fst r) (snd r)) (snd result) |},
     Ok tt).

(** [c_print(f"Failed hosts: {nr.data.failed_hosts}")] after stage [t]. *)
Definition print_failed_hosts (t : stage) : script unit :=
  fun s =>
    ({| failed_hosts := failed_hosts s; stdin := stdin s; world := world s;
        log := log s ++ [FailedHosts t (failed_hosts s)] |}, Ok tt).

(** [main] *)
Definition main (inventory : list (string * string)) : script unit :=
  nr <- kickoff inventory ;;
  proceed ;;;
  nr_run nr ScpEnable ;;;
  print_failed_hosts ScpEnable ;;;
  nr_run nr GetConfigVars ;;;
  print_failed_hosts GetConfigVars ;;;
  nr_run nr RenderConfigs ;;;
  print_failed_hosts RenderConfigs ;;;
  proceed ;;;
  nr_run nr ApplyL3Configs ;;;
  print_failed_hosts ApplyL3Configs ;;;
  nr_run nr ValidateL3 ;;;
  print_failed_hosts ValidateL3 ;;;
  proceed ;;;
  nr_run nr ApplyBgpConfigs ;;;
  print_failed_hosts ApplyBgpConfigs ;;;
  nr_run nr ValidateBgp ;;;
  print_failed_hosts ValidateBgp ;;;
  nr_run nr UpdateNetbox ;;;
  print_failed_hosts UpdateNetbox ;;;
  nr_run nr ScpDisable ;;;
  print_failed_hosts ScpDisable.

(** How the interpreter process ends after [main()]: a normal return and
    [exit()] without argument give status 0, any other uncaught exception
    gives status 1. *)
Inductive termination : Type :=
| Completed
| ExitCalled
| Crashed (e : Py.exn).

Definition termination_of (r : result unit) : termination :=
  match r with
  | Ok _ => Completed
  | Raise Py.SystemExit => ExitCalled
  | Raise e => Crashed e
  end.

Definition exit_code (t : termination) : Z :=
  match t with
  | Completed => 0
  | ExitCalled => 0
  | Crashed _ => 1
  end.

End Pipeline.

(** ** Vocabulary of the properties *)

Section Vocabulary.

Context {transport : Transport} {ipaddress : Ipaddress}.

(** What [validate_bgp] may print for one peer of the facts. *)
Definition classified (h : string) (peer : string * peer_facts)
    (printed : list event) : Prop :=
  (is_up (snd peer) = Py.Bool true -> printed = [Printed (PeerUp h (fst peer))]) /\
  (is_up (snd peer) = Py.Bool false -> printed = [Printed (PeerDown h (fst peer))]) /\
  (forall e, In e printed ->
     e = Printed (PeerUp h (fst peer)) \/ e = Printed (PeerDown h (fst peer))).

(** A probe result counts as failed when it has no ['success'] entry, or
    has one whose packet loss is 2 or more. *)
Definition classified_failed (r : ping_result) : Prop :=
  match success r with
  | None => True
  | Some ok => 2 <= packet_loss ok
  end.

(** The neighbor's address lies in the network of the interface's address,
    both taken under the interface's mask. *)
Definition same_network (source mask destination : string) : bool :=
  match ip_interface (source ++ "/" ++ mask),
        ip_interface (destination ++ "/" ++ mask) with
  | Some src, Some dst => network_eq (network src) (network dst)
  | _, _ => false
  end.

(** The probes owed to one neighbor address and one interface of the
    intent: one from the interface's address when the networks agree, none
    otherwise. *)
Definition probes_for (h destination : string) (intf : intent) : list event :=
  match split " " (intent_ipaddr intf) with
  | [source; mask] =>
      if same_network source mask destination
      then [Ping h destination source] else []
  | _ => []
  end.

Definition is_probe (e : event) : bool :=
  match e with
  | Ping _ _ _ => true
  | _ => false
  end.

Definition is_failure_report (e : event) : bool :=
  match e with
  | Printed (PingFailed _ _ _) => true
  | _ => false
  end.

(** The interface's entry splits into an address and a mask, and both its
    address and the neighbor's parse under that mask. *)
Definition well_formed_pair (destination : string) (intf : intent) : Prop :=
  exists source mask src dst,
    split " " (intent_ipaddr intf) = [source; mask] /\
    ip_interface (source ++ "/" ++ mask) = Some src /\
    ip_interface (destination ++ "/" ++ mask) = Some dst.

(** The ping subtask never fails: every probe comes back with a result. *)
Definition transport_answers : Prop :=
  forall h dest source w, snd (napalm_ping h dest source w) <> None.

(** The interface's entry in canonical CIDR form. *)
Definition canonical (intf : intent) : option string :=
  match split " " (intent_ipaddr intf) with
  | [ip; mask] => option_map ip_interface_str (ip_interface (ip ++ "/" ++ mask))
  | _ => None
  end.

End Vocabulary.

(** ** Vocabulary of reconciliation *)

Definition row_key (r : Netbox.interface_row) : Z * string :=
  (Netbox.row_device_id r, Netbox.row_name r).

(** What identifies a stored interface record and is never rewritten. *)
Definition row_identity (r : Netbox.interface_row) : Z * Z * string * Z :=
  (Netbox.row_id r, Netbox.row_device_id r, Netbox.row_name r, Netbox.row_type r).

(** At most one interface record per device and name. *)
Definition unique_interfaces (inv : Netbox.inventory) : Prop :=
  NoDup (map row_key (Netbox.interface_rows inv)).

(** At most one IP record per literal address. *)
Definition unique_ips (inv : Netbox.inventory) : Prop :=
  NoDup (map Netbox.ip_address (Netbox.ip_rows inv)).

(** The host [h] is the device [device_id] of the inventory: the device
    exists under that name, and the interface records shown under that
    name are its own. *)
Definition bound (inv : Netbox.inventory) (h : string) (device_id : Z) : Prop :=
  (exists d,
     find (fun d => Netbox.dev_id d =? device_id) (Netbox.devices inv) = Some d /\
     Netbox.dev_name d = h) /\
  (forall r,
     In r (Netbox.interface_rows inv) ->
     Netbox.display_name inv (Netbox.row_device_id r) = h ->
     Netbox.row_device_id r = device_id).

Definition is_write (e : event) : bool :=
  match e with
  | Printed _ | Ping _ _ _ => false
  | _ => true
  end.

Definition is_interface_update (e : event) : bool :=
  match e with
  | UpdateInterface _ _ _ _ => true
  | _ => false
  end.

(** An event that leaves the inventory [inv] as it is: printed text, an
    interface update that carries the description and MAC address the
    record already has, or a device update that carries the type, role
    and site the device already has. *)
Definition reapplied (inv : Netbox.inventory) (e : event) : Prop :=
  match e with
  | Printed _ => True
  | UpdateInterface device interface_name descr mac =>
      exists r,
        In r (Netbox.interface_rows inv) /\
        Netbox.display_name inv (Netbox.row_device_id r) = device /\
        Netbox.row_name r = interface_name /\
        Netbox.row_description r = descr /\
        Netbox.row_mac r = mac
  | UpdateDevice device_name device_type device_role site =>
      exists d,
        In d (Netbox.devices inv) /\
        Netbox.dev_name d = device_name /\
        Netbox.dev_type d = device_type /\
        Netbox.dev_role d = device_role /\
        Netbox.dev_site d = site
  | _ => False
  end.


(** The state of the inventory inside the interface loop, started on the
    inventory [inv0]: the interfaces named in [done] have their record
    with the observed description and MAC address, the other keys are as
    they were, and no record has gone. *)
Definition upserted (h : string) (device_id : Z)
    (device_interfaces : list (string * interface_facts))
    (inv0 : Netbox.inventory) (done : list string) (inv : Netbox.inventory)
  : Prop :=
  Netbox.devices inv = Netbox.devices inv0 /\
  Netbox.ip_rows inv = Netbox.ip_rows inv0 /\
  unique_interfaces inv /\
  (forall r, In r (Netbox.interface_rows inv) ->
     Netbox.display_name inv0 (Netbox.row_device_id r) = h ->
     Netbox.row_device_id r = device_id) /\
  (forall name, In name done ->
     exists facts r,
       lookup name device_interfaces = Some facts /\
       In r (Netbox.interface_rows inv) /\
       row_key r = (device_id, name) /\
       Netbox.row_description r = description facts /\
       Netbox.row_mac r = normalize_mac (mac_address facts)) /\
  (forall name, ~ In name done ->
     In (device_id, name) (map row_key (Netbox.interface_rows inv)) <->
     In (device_id, name) (map row_key (Netbox.interface_rows inv0))) /\
  (exists extra,
     map row_identity (Netbox.interface_rows inv) =
     (map row_identity (Netbox.interface_rows inv0) ++ extra)%list).

(** The inventory as a completed reconciliation of host [h] leaves it:
    the host is bound, keys and addresses are unique, every observed
    interface has its record with the observed description and MAC
    address, every interface of the intent that has a record has its
    address recorded, and the lifecycle update is in place. *)
Definition reconciled {ipaddress : Ipaddress} (h : string) (device_id : Z)
    (cfg : config_vars) (device_interfaces : list (string * interface_facts))
    (inv : Netbox.inventory) : Prop :=
  bound inv h device_id /\
  unique_interfaces inv /\
  unique_ips inv /\
  (forall x, In x (map fst device_interfaces) ->
     exists facts r,
       lookup x device_interfaces = Some facts /\
       In r (Netbox.interface_rows inv) /\
       row_key r = (device_id, x) /\
       Netbox.row_description r = description facts /\
       Netbox.row_mac r = normalize_mac (mac_address facts)) /\
  (forall intf, In intf (interfaces cfg) ->
     exists a, canonical (snd intf) = Some a /\
       ((exists nb, In nb (Netbox.get_interfaces inv device_id) /\
                    nb_name nb = fst intf) ->
        In a (map Netbox.ip_address (Netbox.ip_rows inv)))) /\
  Netbox.update_device inv h 2 2 1 = Some inv /\
  reapplied inv (UpdateDevice h 2 2 1).

(** No interface record of [inv] has gone from [inv']: the records of
    [inv] are still there, in place, under the same identifier, device,
    name and type, and [inv'] may hold more after them. *)
Definition keeps_records (inv inv' : Netbox.inventory) : Prop :=
  exists extra,
    map row_identity (Netbox.interface_rows inv') =
    (map row_identity (Netbox.interface_rows inv) ++ extra)%list.

(** A computation that deletes no interface record, whatever its outcome. *)
Definition preserving {transport : Transport} {A} (c : task A) : Prop :=
  forall s, keeps_records (netbox s) (netbox (fst (c s))).

(** ** Vocabulary of the pipeline *)



(** The tasks of the pipeline, in order. *)
Definition pipeline : list stage :=
  [ScpEnable; GetConfigVars; RenderConfigs; ApplyL3Configs; ValidateL3;
   ApplyBgpConfigs; ValidateBgp; UpdateNetbox; ScpDisable].

(** A stage of [main]: the task on the cohort, then the printed list of
    failed hosts. *)
Definition run_stage {runner : Runner} (nr : list string) (t : stage)
  : script unit :=
  nr_run nr t ;;; print_failed_hosts t.

Definition run_stages {runner : Runner} (nr : list string) (ts : list stage)
  : script unit :=
  for_each ts (run_stage nr).

(** The operator's answer lets the run go on. *)
Definition confirms (answer : string) : Prop := lower answer = "y".




(** The hosts that [kickoff] keeps. *)
Definition provisioned (inventory : list (string * string)) : list string :=
  map fst (filter (fun h => String.eqb (snd h) "wan-router-provision") inventory).

(** The state in which [exit()] leaves the run. *)
Definition exited {runner : Runner} (s : run_state) : run_state :=
  {| failed_hosts := failed_hosts s; stdin := stdin s; world := world s;
     log := log s ++ [Exiting] |}.

(** The state after one line of standard input was read. *)
Definition answered {runner : Runner} (s : run_state) : run_state :=
  {| failed_hosts := failed_hosts s; stdin := tl (stdin s); world := world s;
     log := log s |}.



(** ** Sample data

    The configuration context of the script's docstring for one router,
    a small inventory, and deterministic stand-ins for the transport and
    the runner. *)

Module Sample.

Definition config : config_vars :=
  {| bgp_neighbors :=
       [ {| neighbor_ipaddr := "172.20.12.2"; remote_asn := 65512 |};
         {| neighbor_ipaddr := "172.20.13.3"; remote_asn := 65513 |} ];
     interfaces :=
       [ ("GigabitEthernet1",
          {| intent_description := "Uplink to CSR-2";
             intent_ipaddr := "172.20.12.1 255.255.255.0";
             intent_state := "up" |});
         ("GigabitEthernet2",
          {| intent_description := "Uplink to CSR-3";
             intent_ipaddr := "172.20.13.1 255.255.255.0";
             intent_state := "up" |});
         ("Loopback0",
          {| intent_description := "Router ID";
             intent_ipaddr := "1.1.1.1 255.255.255.255";
             intent_state := "up" |}) ] |}.

(** What the device reports: the loopback has no MAC address. *)
Definition device_interfaces : list (string * interface_facts) :=
  [ ("GigabitEthernet1",
     {| description := "Uplink to CSR-2";
        mac_address := Py.Str "00:0C:29:4F:A1:01" |});
    ("GigabitEthernet2",
     {| description := "Uplink to CSR-3";
        mac_address := Py.Str "00:0C:29:4F:A1:02" |});
    ("Loopback0",
     {| description := "Router ID"; mac_address := Py.Str "" |}) ].

Definition peers : list (string * peer_facts) :=
  [ ("172.20.12.2", {| is_up := Py.Bool true |});
    ("172.20.13.3", {| is_up := Py.Bool false |}) ].

Definition reply (loss : Z) : ping_result :=
  {| success := Some {| probes_sent := 5; packet_loss := loss |};
     error := None |}.

(** Probes to 172.20.12.2 lose nothing, all other probes lose everything;
    the getters answer with the data above. *)
Definition transport : Transport :=
  {| network_state := unit;
     napalm_ping := fun _ dest _ w =>
       (w, Some (if String.eqb dest "172.20.12.2" then reply 0 else reply 5));
     napalm_get_bgp_neighbors := fun _ _ => Some peers;
     napalm_get_interfaces := fun _ _ => Some device_interfaces;
     napalm_get_facts := fun _ _ => Some "CSR1000V" |}.

Definition ipaddress : Ipaddress :=
  {| ip_interface := IPv4.ip_interface;
     ip_interface_str := IPv4.ip_interface_str |}.

(** The router is known to the inventory with one of its interfaces. *)
Definition inventory : Netbox.inventory :=
  {| Netbox.devices :=
       [ {| Netbox.dev_id := 7; Netbox.dev_name := "csr1";
            Netbox.dev_type := 1; Netbox.dev_role := 1; Netbox.dev_site := 1 |} ];
     Netbox.interface_rows :=
       [ {| Netbox.row_id := 31; Netbox.row_device_id := 7;
            Netbox.row_name := "GigabitEthernet1"; Netbox.row_type := 1000;
            Netbox.row_description := ""; Netbox.row_mac := Py.None_ |} ];
     Netbox.ip_rows := [];
     Netbox.next_id := 32 |}.

Definition host_csr1 : host_data :=
  {| host_name := "csr1";
     host_device_id := Some 7;
     host_config_vars := Some config;
     host_nb_interfaces := None;
     host_interfaces := None;
     host_device_info := None |}.

Definition start : @state transport :=
  @mk_state transport host_csr1 inventory tt [].

(** Two uplinks in one /16: a neighbor inside it is probed from each. *)
Definition overlapping : @state transport :=
  @mk_state transport
    {| host_name := "csr1";
       host_device_id := Some 7;
       host_config_vars :=
         Some {| bgp_neighbors :=
                   [ {| neighbor_ipaddr := "10.0.2.2"; remote_asn := 65512 |} ];
                 interfaces :=
                   [ ("GigabitEthernet1",
                      {| intent_description := "Uplink A";
                         intent_ipaddr := "10.0.0.1 255.255.0.0";
                         intent_state := "up" |});
                     ("GigabitEthernet2",
                      {| intent_description := "Uplink B";
                         intent_ipaddr := "10.0.1.1 255.255.0.0";
                         intent_state := "up" |}) ] |};
       host_nb_interfaces := None;
       host_interfaces := None;
       host_device_info := None |}
    inventory tt [].

(** The reconciliation, run once and run again. *)
Definition first_run : @state transport :=
  fst (@update_netbox transport ipaddress start).

Definition second_run : @state transport :=
  fst (@update_netbox transport ipaddress first_run).

(** Three routers to provision and one switch; the layer-3 configuration
    fails on the second router. *)
Definition hosts : list (string * string) :=
  [ ("csr1", "wan-router-provision");
    ("csr2", "wan-router-provision");
    ("sw1", "access-switch");
    ("csr3", "wan-router-provision") ].

Definition runner : Runner :=
  {| world_state := unit;
     run_task := fun t h w =>
       (w, match t with
           | ApplyL3Configs => String.eqb h "csr2"
           | _ => false
           end) |}.

Definition launch (answers : list string) : @run_state runner :=
  @mk_run_state runner [] answers tt [].

End Sample.

(** ** The other tasks of the script *)

(** *** Printed text *)

(** The number of occurrences of a character. *)
Fixpoint count_char (c : ascii) (s : string) : nat :=
  match s with
  | EmptyString => 0
  | String c' s' => (if Ascii.eqb c' c then 1 else 0) + count_char c s'
  end.

Fixpoint spaces (n : nat) : string :=
  match n with
  | O => EmptyString
  | S n' => String " " (spaces n')
  end.

(** Text is held in UTF-8: a character is one byte that is no
    continuation byte (the bytes [10xxxxxx]), followed by its continuation
    bytes. *)
Definition is_continuation (c : ascii) : bool :=
  match c with
  | Ascii _ _ _ _ _ _ false true => true
  | _ => false
  end.

(** [len(s)]: the number of characters. *)
Fixpoint char_length (s : string) : nat :=
  match s with
  | EmptyString => 0
  | String c s' => (if is_continuation c then 0 else 1) + char_length s'
  end.

(** [s.center(width, ' ')]: a string of at least [width] characters is
    returned as it is; otherwise the margin is split, the left part being
    half of it, plus one when margin and width are both odd. *)
Definition center (width : nat) (s : string) : string :=
  let len := char_length s in
  if (width <=? len)%nat then s
  else
    let marg := (width - len)%nat in
    let left := (marg / 2 + Nat.land (Nat.land marg width) 1)%nat in
    spaces left ++ s ++ spaces (marg - left).

Definition newline : string := String (ascii_of_nat 10) EmptyString.

(** [c_print]: the text handed to [print]. *)
Definition c_print_text (printme : string) : string :=
  newline ++ center 80 printme ++ newline.

(** *** Configuration variables *)

(** Modelled from the spec: device lookup by name and by id, as lists of
    the matching records. *)
Definition get_devices_by_name (inv : Netbox.inventory) (name : string)
  : list Netbox.device_row :=
  filter (fun d => String.eqb (Netbox.dev_name d) name) (Netbox.devices inv).

Definition get_devices_by_id (inv : Netbox.inventory) (id : Z)
  : list Netbox.device_row :=
  filter (fun d => Netbox.dev_id d =? id) (Netbox.devices inv).

(** Modelled from the spec: the config context of a device, by device id;
    a device without one has a null context. *)
Class ConfigContext : Type := {
  local_context_data : Z -> option config_vars
}.

Definition set_device_id (v : Z) (h : host_data) : host_data :=
  {| host_name := host_name h; host_device_id := Some v;
     host_config_vars := host_config_vars h;
     host_nb_interfaces := host_nb_interfaces h;
     host_interfaces := host_interfaces h;
     host_device_info := host_device_info h |}.

(** A null context is kept as an absent entry: subscripting fails on
    both. *)
Definition set_config_vars (v : option config_vars) (h : host_data) : host_data :=
  {| host_name := host_name h; host_device_id := host_device_id h;
     host_config_vars := v;
     host_nb_interfaces := host_nb_interfaces h;
     host_interfaces := host_interfaces h;
     host_device_info := host_device_info h |}.

Section ConfigVars.

Context {transport : Transport} {context : ConfigContext}.

(** [get_config_vars]: [l[0]] on an empty list raises. *)
Definition get_config_vars : task unit :=
  task_host <- gets (fun s => host_name (host s)) ;;
  found <- gets (fun s => get_devices_by_name (netbox s) task_host) ;;
  first <- require Py.IndexError (hd_error found) ;;
  let device_id := Netbox.dev_id first in
  set_host (set_device_id device_id) ;;;
  nb_device <- gets (fun s => get_devices_by_id (netbox s) device_id) ;;
  first' <- require Py.IndexError (hd_error nb_device) ;;
  set_host (set_config_vars (local_context_data (Netbox.dev_id first'))).

End ConfigVars.

(** *** Rendering and applying configurations *)

(** The files of the working directory, the last one written first. *)
Definition files : Type := list (string * string).

(** [open(path, "w+")] and [write]: the file is created or replaced. *)
Definition write_file (path text : string) (fs : files) : files :=
  (path, text) :: fs.

Definition read_file (path : string) (fs : files) : option string :=
  lookup path fs.

(** The subtasks that act on a device, each with the new state of the
    network and whether it failed, and the template renderer, which gives
    no text when it fails. *)
Class Provisioner {transport : Transport} : Type := {
  netmiko_send_config :
    string -> string -> network_state -> network_state * bool;
  netmiko_save_config : string -> network_state -> network_state * bool;
  napalm_configure :
    string -> string -> network_state -> network_state * bool;
  template_file : string -> string -> host_data -> option string
}.

Inductive provision_message : Type :=
| ScpEnabled (host : string)
  (* "{host}: SCP has been enabled" *)
| ScpDisabled (host : string)
  (* "{host}: SCP has been disabled" *)
| InterfaceRendered (host : string)
  (* "{host}: inteface configuration rendered" *)
| BgpRendered (host : string)
  (* "{host}: BGP routing configuration rendered" *)
| InterfaceApplied (host : string)
  (* "{host}: Interface configuration applied" *)
| BgpApplied (host : string)
  (* "{host}: BGP routing configuration applied" *).

(** What a provisioning task does to the outside: text printed, commands
    sent, the configuration saved, configuration text loaded on the
    device. *)
Inductive provision_event : Type :=
| Said (m : provision_message)
| SendConfig (host config_commands : string)
| SaveConfig (host : string)
| Configure (host text : string).

Section Provisioning.

Context {transport : Transport} {provisioner : Provisioner}.

#[projections(primitive)]
Record workspace : Type := mk_workspace {
  ws_host : host_data;
  ws_files : files;
  ws_net : network_state;
  ws_out : list provision_event
}.

Definition job : Type -> Type := M workspace.

Definition say (m : provision_message) : job unit :=
  modify (fun s =>
    {| ws_host := ws_host s; ws_files := ws_files s; ws_net := ws_net s;
       ws_out := ws_out s ++ [Said m] |}).

(** A subtask on the device: a failed one raises in the calling task. *)
Definition run_on_device (e : provision_event)
    (subtask : network_state -> network_state * bool) : job unit :=
  fun s =>
    let r := subtask (ws_net s) in
    ({| ws_host := ws_host s; ws_files := ws_files s; ws_net := fst r;
        ws_out := ws_out s ++ [e] |},
     if snd r then Raise Py.NornirSubTaskError else Ok tt).

Definition run_netmiko_send_config (config_commands : string) : job unit :=
  fun s =>
    run_on_device (SendConfig (host_name (ws_host s)) config_commands)
      (netmiko_send_config (host_name (ws_host s)) config_commands) s.

Definition run_netmiko_save_config : job unit :=
  fun s =>
    run_on_device (SaveConfig (host_name (ws_host s)))
      (netmiko_save_config (host_name (ws_host s))) s.

(** [napalm_configure] with a file name: the candidate configuration is
    the content of the file, and a missing file fails the subtask. *)
Definition run_napalm_configure (filename : string) : job unit :=
  fun s =>
    match read_file filename (ws_files s) with
    | Some text =>
        run_on_device (Configure (host_name (ws_host s)) text)
          (napalm_configure (host_name (ws_host s)) text) s
    | None => (s, Raise Py.NornirSubTaskError)
    end.

Definition run_template_file (template path : string) : job string :=
  fun s =>
    match template_file template path (ws_host s) with
    | Some text => (s, Ok text)
    | None => (s, Raise Py.NornirSubTaskError)
    end.

(** [open(path, "w+")] and [file.write(text)], taken to succeed: the
    directory of the configurations exists and can be written to. *)
Definition write (path text : string) : job unit :=
  modify (fun s =>
    {| ws_host := ws_host s; ws_files := write_file path text (ws_files s);
       ws_net := ws_net s; ws_out := ws_out s |}).

Definition intf_path (h : string) : string := "configs/" ++ h ++ "_intf.txt".

Definition bgp_path (h : string) : string := "configs/" ++ h ++ "_bgp.txt".

(** [scp_enable] *)
Definition scp_enable : job unit :=
  run_netmiko_send_config "ip scp server enable" ;;;
  task_host <- gets (fun s => host_name (ws_host s)) ;;
  say (ScpEnabled task_host).

(** [scp_disable] *)
Definition scp_disable : job unit :=
  run_netmiko_send_config "no ip scp server enable" ;;;
  run_netmiko_save_config ;;;
  task_host <- gets (fun s => host_name (ws_host s)) ;;
  say (ScpDisabled task_host).

(** [interface_jinja] *)
Definition interface_jinja : job string :=
  run_template_file "interfaces.j2" "templates/".

(** [bgp_jinja] *)
Definition bgp_jinja : job string :=
  run_template_file "bgp.j2" "templates/".

(** [render_configs] *)
Definition render_configs : job unit :=
  task_host <- gets (fun s => host_name (ws_host s)) ;;
  intf_cfg <- interface_jinja ;;
  write (intf_path task_host) intf_cfg ;;;
  say (InterfaceRendered task_host) ;;;
  bgp_cfg <- bgp_jinja ;;
  write (bgp_path task_host) bgp_cfg ;;;
  say (BgpRendered task_host).

(** [apply_l3_configs] *)
Definition apply_l3_configs : job unit :=
  task_host <- gets (fun s => host_name (ws_host s)) ;;
  run_napalm_configure (intf_path task_host) ;;;
  say (InterfaceApplied task_host).

(** [apply_bgp_configs] *)
Definition apply_bgp_configs : job unit :=
  task_host <- gets (fun s => host_name (ws_host s)) ;;
  run_napalm_configure (bgp_path task_host) ;;;
  say (BgpApplied task_host).

End Provisioning.

(** *** Further sample data *)

Module Bench.

(** The sample router's config context hangs on its device record. *)
Definition context : ConfigContext :=
  {| local_context_data := fun id => if id =? 7 then Some Sample.config else None |}.

(** The router before its variables are fetched. *)
Definition fresh : @state Sample.transport :=
  @mk_state Sample.transport
    {| host_name := "csr1";
       host_device_id := None;
       host_config_vars := None;
       host_nb_interfaces := None;
       host_interfaces := None;
       host_device_info := None |}
    Sample.inventory tt [].

(** An intent whose neighbor is on none of the interfaces' networks. *)
Definition remote_neighbor : config_vars :=
  {| bgp_neighbors :=
       [ {| neighbor_ipaddr := "192.0.2.9"; remote_asn := 65512 |} ];
     interfaces :=
       [ ("GigabitEthernet1",
          {| intent_description := "Uplink to CSR-2";
             intent_ipaddr := "172.20.12.1 255.255.255.0";
             intent_state := "up" |}) ] |}.

Definition isolated : @state Sample.transport :=
  @mk_state Sample.transport
    {| host_name := "csr1";
       host_device_id := Some 7;
       host_config_vars := Some remote_neighbor;
       host_nb_interfaces := None;
       host_interfaces := None;
       host_device_info := None |}
    Sample.inventory tt [].

(** An intent whose second address is written in CIDR form. *)
Definition cidr_uplink : intent :=
  {| intent_description := "Uplink to CSR-3";
     intent_ipaddr := "172.20.13.1/24";
     intent_state := "up" |}.

Definition mistyped : config_vars :=
  {| bgp_neighbors :=
       [ {| neighbor_ipaddr := "172.20.12.2"; remote_asn := 65512 |} ];
     interfaces :=
       [ ("GigabitEthernet1",
          {| intent_description := "Uplink to CSR-2";
             intent_ipaddr := "172.20.12.1 255.255.255.0";
             intent_state := "up" |});
         ("GigabitEthernet2", cidr_uplink) ] |}.

Definition malformed : @state Sample.transport :=
  @mk_state Sample.transport
    {| host_name := "csr1";
       host_device_id := Some 7;
       host_config_vars := Some mistyped;
       host_nb_interfaces := None;
       host_interfaces := None;
       host_device_info := None |}
    Sample.inventory tt [].

(** The device accepts every command; the interface template renders for
    every host with variables, the BGP template needs a neighbor. *)
Definition provisioner : @Provisioner Sample.transport :=
  @Build_Provisioner Sample.transport
    (fun _ _ w => (w, false))
    (fun _ w => (w, false))
    (fun _ _ w => (w, false))
    (fun template _ h =>
       match host_config_vars h with
       | None => None
       | Some cfg =>
           if String.eqb template "bgp.j2"
              && (List.length (bgp_neighbors cfg) =? 0)%nat
           then None
           else Some (template ++ " for " ++ host_name h)
       end).

Definition desk : @workspace Sample.transport :=
  @mk_workspace Sample.transport Sample.host_csr1 [] tt [].

(** A router without neighbors, with a BGP file left by an earlier run. *)
Definition lone : @workspace Sample.transport :=
  @mk_workspace Sample.transport
    {| host_name := "csr9";
       host_device_id := Some 9;
       host_config_vars :=
         Some {| bgp_neighbors := []; interfaces := interfaces Sample.config |};
       host_nb_interfaces := None;
       host_interfaces := None;
       host_device_info := None |}
    [("configs/csr9_bgp.txt", "router bgp 65009")] tt [].

End Bench.

(** *** Vocabulary of the further properties *)

(** A computation keeps the relation [R] between the state it starts in
    and the state it ends in, whatever its outcome. *)
Definition keeps {S A} (R : S -> S -> Prop) (c : M S A) : Prop :=
  forall s, R s (fst (c s)).

(** What the connectivity task may add to the output. *)
Definition is_l3_event (e : event) : bool :=
  match e with
  | Ping _ _ _ => true
  | Printed (PingFailed _ _ _) => true
  | Printed (AllPingsSucceeded _) => true
  | _ => false
  end.

(** A run of the connectivity loops from [st] to [st'] with result [r],
    started with the count [failed]: host data and inventory are as they
    were, the output has grown by probes and failure reports, and a count
    that is returned has grown by the number of failure reports. *)
Definition probed {transport : Transport} (failed : Z) (st st' : state)
    (r : result Z) : Prop :=
  host st' = host st /\ netbox st' = netbox st /\
  exists new,
    out st' = (out st ++ new)%list /\
    Forall (fun e => is_probe e = true \/ is_failure_report e = true) new /\
    forall failed',
      r = Ok failed' ->
      failed' = failed + Z.of_nat (List.length (filter is_failure_report new)).

(** The line that [validate_bgp] prints for a peer whose state is a
    Boolean. *)
Definition peer_line (h : string) (peer : string * peer_facts) : event :=
  Printed (if Py.eq (is_up (snd peer)) (Py.Bool true)
           then PeerUp h (fst peer) else PeerDown h (fst peer)).

(** What identifies a device record and is never rewritten. *)
Definition device_key (d : Netbox.device_row) : Z * string :=
  (Netbox.dev_id d, Netbox.dev_name d).

(** What [update_netbox] leaves alone between the state it starts in and
    the state it ends in: the network, the host's name, device id and
    configuration variables, the IP records already there, the identity
    of the devices; and it sends no probe. *)
Definition reconciling {transport : Transport} (s s' : state) : Prop :=
  net s' = net s /\
  host_name (host s') = host_name (host s) /\
  host_device_id (host s') = host_device_id (host s) /\
  host_config_vars (host s') = host_config_vars (host s) /\
  (exists extra,
     Netbox.ip_rows (netbox s') = (Netbox.ip_rows (netbox s) ++ extra)%list) /\
  map device_key (Netbox.devices (netbox s'))
    = map device_key (Netbox.devices (netbox s)) /\
  (exists new,
     out s' = (out s ++ new)%list /\ Forall (fun e => is_probe e = false) new).

(** From [s] to [s'] tasks ran on hosts of [nr] only, and only hosts of
    [nr] joined the failed hosts. *)
Definition confined {runner : Runner} (nr : list string) (s s' : run_state)
  : Prop :=
  (forall t h failed,
     In (Executed t h failed) (log s') ->
     In (Executed t h failed) (log s) \/ In h nr) /\
  (forall h, In h (failed_hosts s') -> In h (failed_hosts s) \/ In h nr).



(** The job [c] prints the message [m] of its host exactly when it returns
    normally. *)
Definition announces {transport : Transport} (c : job unit)
    (m : string -> provision_message) : Prop :=
  forall s : workspace,
  exists new,
    ws_out (fst (c s)) = (ws_out s ++ new)%list /\
    (In (Said (m (host_name (ws_host s)))) new <-> snd (c s) = Ok tt).

Definition is_said (e : provision_event) : bool :=
  match e with
  | Said _ => true
  | _ => false
  end.

(** From [s] to [s'] the job left host data and files alone. *)
Definition on_device {transport : Transport} (s s' : workspace) : Prop :=
  ws_host s' = ws_host s /\ ws_files s' = ws_files s.

(** From [s] to [s'] the job left host data and network alone and sent
    nothing to the device. *)
Definition off_device {transport : Transport} (s s' : workspace) : Prop :=
  ws_host s' = ws_host s /\ ws_net s' = ws_net s /\
  exists new,
    ws_out s' = (ws_out s ++ new)%list /\
    Forall (fun e => is_said e = true) new.

(** *** Vocabulary of the connectivity run *)

Section ProbeVocabulary.

Context {transport : Transport} {ipaddress : Ipaddress}.

(** The probes owed to the host [h] with the intent [cfg]: for each
    neighbor in turn and each interface in turn, the probes of the
    pair. *)
Definition owed_probes (h : string) (cfg : config_vars) : list event :=
  flat_map
    (fun n =>
       flat_map (probes_for h (neighbor_ipaddr n)) (map snd (interfaces cfg)))
    (bgp_neighbors cfg).

(** After the spec: a probe has failed when the transport reports no
    success outcome, or reports success with a packet loss of 2 or
    more. *)
Definition probe_failed (r : ping_result) : bool :=
  match success r with
  | None => true
  | Some ok => 2 <=? packet_loss ok
  end.

(** The results that the transport returns for the probes, sent in turn
    from the network state [w], which they leave as [w']. *)
Inductive replies
  : network_state -> list event -> list ping_result -> network_state -> Prop :=
| replies_nil w : replies w [] [] w
| replies_cons w h dest source w' r probes results w'' :
    napalm_ping h dest source w = (w', Some r) ->
    replies w' probes results w'' ->
    replies w (Ping h dest source :: probes) (r :: results) w''.

(** What the output shows of a probe with the result [r]: the probe, and
    the report of its failure when it has failed. *)
Definition verdict (probe : event) (r : ping_result) : list event :=
  match probe with
  | Ping h dest source =>
      if probe_failed r then [probe; Printed (PingFailed h source dest)]
      else [probe]
  | _ => [probe]
  end.

Fixpoint verdicts (probes : list event) (results : list ping_result)
  : list event :=
  match probes, results with
  | probe :: probes', r :: results' => (verdict probe r ++ verdicts probes' results')%list
  | _, _ => []
  end.

(** The closing message: printed when no probe has failed. *)
Definition closing (h : string) (results : list ping_result) : list event :=
  match filter probe_failed results with
  | [] => [Printed (AllPingsSucceeded h)]
  | _ :: _ => []
  end.

(** A run of the loops from [st] to [st'] that sent the probes [owed]:
    the output has grown by the probes' verdicts and the count by the
    number of failed probes. *)
Definition tallied (owed : list event) (failed failed' : Z) (st st' : state)
  : Prop :=
  exists results,
    replies (net st) owed results (net st') /\
    host st' = host st /\ netbox st' = netbox st /\
    out st' = (out st ++ verdicts owed results)%list /\
    failed' = failed + Z.of_nat (List.length (filter probe_failed results)).

End ProbeVocabulary.

(** *** Vocabulary of the reconciliation run *)

(** The inventory holds a record of the interface [name] of the device
    [device_id]. *)
Definition has_record (inv : Netbox.inventory) (device_id : Z) (name : string)
  : bool :=
  existsb
    (fun r => (Netbox.row_device_id r =? device_id)
              && String.eqb (Netbox.row_name r) name)
    (Netbox.interface_rows inv).

(** After the spec: the write owed to an observed interface, by the
    inventory [inv0] found at the start: a create when it holds no record
    under the device and the interface's name, otherwise an update of
    description and MAC address. *)
Definition upsert_write (inv0 : Netbox.inventory) (h : string) (device_id : Z)
    (observed : string * interface_facts) : event :=
  if has_record inv0 device_id (fst observed)
  then UpdateInterface h (fst observed) (description (snd observed))
         (normalize_mac (mac_address (snd observed)))
  else CreateInterface (fst observed) device_id 1000 (description (snd observed))
         (normalize_mac (mac_address (snd observed))).

(** What the output shows of the upsert of one observed interface. *)
Definition upsert_events (inv0 : Netbox.inventory) (h : string) (device_id : Z)
    (observed : string * interface_facts) : list event :=
  [Printed (if has_record inv0 device_id (fst observed)
            then UpdatingInterface h (fst observed)
            else CreatingInterface h (fst observed));
   upsert_write inv0 h device_id observed].

Definition is_interface_write (e : event) : bool :=
  match e with
  | CreateInterface _ _ _ _ _ | UpdateInterface _ _ _ _ => true
  | _ => false
  end.

Definition is_ip_event (e : event) : bool :=
  match e with
  | CreateIpAddress _ _ => true
  | Printed (IpExists _ _) => true
  | _ => false
  end.

(** The identifiers of the records of the device [device_id] that carry
    the interface name [name]. *)
Definition matching_ids (inv : Netbox.inventory) (device_id : Z) (name : string)
  : list Z :=
  map Netbox.row_id
    (filter
       (fun r => (Netbox.row_device_id r =? device_id)
                 && String.eqb name (Netbox.row_name r))
       (Netbox.interface_rows inv)).

Definition new_ip (address : string) (interface_id : Z) : Netbox.ip_row :=
  {| Netbox.ip_address := address; Netbox.ip_interface_id := interface_id |}.

Section ReconcileVocabulary.

Context {transport : Transport} {ipaddress : Ipaddress}.

(** The part of [update_netbox] that follows the interface loop (lines
    429-466): the second refresh, the address loop and the lifecycle
    update. *)
Definition record_addresses : task unit :=
  get_updated_info ;;;
  nb_interfaces <- bind (gets (fun s => host_nb_interfaces (host s))) (require Py.KeyError) ;;
  cfg <- bind (gets (fun s => host_config_vars (host s))) (require Py.KeyError) ;;
  for_each (interfaces cfg) (reconcile_ip nb_interfaces) ;;;
  task_host <- gets (fun s => host_name (host s)) ;;
  netbox_update_device task_host 2 2 1 ;;;
  c_print (MovedToProduction task_host).

(** From [s] to [s'] the interface records are as they were and no write
    of an interface was issued. *)
Definition settling (s s' : state) : Prop :=
  Netbox.interface_rows (netbox s') = Netbox.interface_rows (netbox s) /\
  exists new,
    out s' = (out s ++ new)%list /\
    Forall (fun e => is_interface_write e = false) new.

(** After the spec: the IP reconciliation of the interfaces of the
    intent, in turn, from the IP records [ips] to the IP records [ips'].
    For an interface whose canonical address no IP record carries, a
    record with that address is created on each matching interface
    record; for an interface whose address some IP record carries
    already, nothing is created or rewritten and the address is flagged
    for each matching interface record. *)
Inductive ip_reconciled (h : string) (ids : string -> list Z)
  : list Netbox.ip_row -> list (string * intent) -> list event ->
    list Netbox.ip_row -> Prop :=
| ip_done ips : ip_reconciled h ids ips [] [] ips
| ip_created ips name i a rest events ips' :
    canonical i = Some a ->
    ~ In a (map Netbox.ip_address ips) ->
    ip_reconciled h ids (ips ++ map (new_ip a) (ids name)) rest events ips' ->
    ip_reconciled h ids ips ((name, i) :: rest)
      (map (CreateIpAddress a) (ids name) ++ events) ips'
| ip_flagged ips name i a rest events ips' :
    canonical i = Some a ->
    In a (map Netbox.ip_address ips) ->
    ip_reconciled h ids ips rest events ips' ->
    ip_reconciled h ids ips ((name, i) :: rest)
      (map (fun _ => Printed (IpExists h a)) (ids name) ++ events) ips'.

End ReconcileVocabulary.

(** The sample router on an inventory that records the address of its
    first uplink already, on an interface of another device. *)
Module Taken.

Definition inventory : Netbox.inventory :=
  {| Netbox.devices := Netbox.devices Sample.inventory;
     Netbox.interface_rows := Netbox.interface_rows Sample.inventory;
     Netbox.ip_rows :=
       [ {| Netbox.ip_address := "172.20.12.1/24";
            Netbox.ip_interface_id := 99 |} ];
     Netbox.next_id := Netbox.next_id Sample.inventory |}.

Definition start : @state Sample.transport :=
  @mk_state Sample.transport Sample.host_csr1 inventory tt [].

End Taken.

(** * Properties *)

(** ** Running computations *)

Lemma bind_ok {S A B} (c : M S A) (k : A -> M S B) s s' a :
  c s = (s', Ok a) -> bind c k s = k a s'.
Proof. intros H. unfold bind. rewrite H. reflexivity. Qed.

Lemma bind_raise {S A B} (c : M S A) (k : A -> M S B) s s' e :
  c s = (s', Raise e) -> bind c k s = (s', Raise e).
Proof. intros H. unfold bind. rewrite H. reflexivity. Qed.

(** Unfolds the primitives of the state monad and of the tasks. *)
Ltac run :=
  cbv beta iota zeta delta
    [bind ret raise gets modify require unpack2 emit c_print set_host set_netbox
     netbox_create_interface netbox_update_interface
     netbox_create_ip_address netbox_update_device];
  cbn [fst snd host netbox net out].

(** ** MAC normalization *)

Section Reconciliation.

Context {transport : Transport} {ipaddress : Ipaddress}.

(** C7: the three literal strings "None", "Unspecified" and the empty
    string are mapped to the sentinel "EE:EE:EE:EE:EE:EE"; every other
    string is returned unchanged. *)
Theorem normalize_mac_strings (s : string) :
  mac_sentinel = "EE:EE:EE:EE:EE:EE" /\
  (s = "None" \/ s = "Unspecified" \/ s = "" ->
   normalize_mac (Py.Str s) = Py.Str mac_sentinel) /\
  (s <> "None" -> s <> "Unspecified" -> s <> "" ->
   normalize_mac (Py.Str s) = Py.Str s).
Proof.
  split; [reflexivity|]. split.
  - intros [-> | [-> | ->]]; reflexivity.
  - intros H1 H2 H3. unfold normalize_mac. simpl.
    apply String.eqb_neq in H1, H2, H3. rewrite H1, H2, H3. reflexivity.
Qed.

(** The two branches of one pass of the interface loop. *)
Lemma upsert_interface_absent device_interfaces nb_interfaces device_id
    interface_name facts (st : state) :
  lookup interface_name device_interfaces = Some facts ->
  is_interface_present nb_interfaces (host_name (host st)) interface_name = false ->
  upsert_interface device_interfaces nb_interfaces device_id interface_name st =
  ({| host := host st;
      netbox :=
        Netbox.create_interface (netbox st) interface_name device_id 1000
          (description facts) (normalize_mac (mac_address facts));
      net := net st;
      out :=
        out st ++
        [Printed (CreatingInterface (host_name (host st)) interface_name);
         CreateInterface interface_name device_id 1000 (description facts)
           (normalize_mac (mac_address facts))] |},
   Ok tt).
Proof.
  intros Hl Hp. unfold upsert_interface. run.
  rewrite Hl, Hp. cbn. rewrite <- app_assoc. reflexivity.
Qed.

Lemma upsert_interface_present device_interfaces nb_interfaces device_id
    interface_name facts (st : state) :
  lookup interface_name device_interfaces = Some facts ->
  is_interface_present nb_interfaces (host_name (host st)) interface_name = true ->
  upsert_interface device_interfaces nb_interfaces device_id interface_name st =
  let events :=
    [Printed (UpdatingInterface (host_name (host st)) interface_name);
     UpdateInterface (host_name (host st)) interface_name (description facts)
       (normalize_mac (mac_address facts))] in
  match
    Netbox.update_interface (netbox st) (host_name (host st)) interface_name
      (description facts) (normalize_mac (mac_address facts))
  with
  | Some inv' =>
      ({| host := host st; netbox := inv'; net := net st;
          out := out st ++ events |}, Ok tt)
  | None =>
      ({| host := host st; netbox := netbox st; net := net st;
          out := out st ++ events |}, Raise Py.IndexError)
  end.
Proof.
  intros Hl Hp. unfold upsert_interface. run.
  rewrite Hl, Hp. cbn. rewrite <- app_assoc.
  destruct (Netbox.update_interface _ _ _ _ _); reflexivity.
Qed.


End Reconciliation.

(** ** Adjacency classification *)

Section Validation.

Context {transport : Transport} {ipaddress : Ipaddress}.

Lemma validate_bgp_peer_run peer (st : state) :
  exists printed,
    validate_bgp_peer peer st =
    ({| host := host st; netbox := netbox st; net := net st;
        out := out st ++ printed |}, Ok tt) /\
    classified (host_name (host st)) peer printed.
Proof.
  unfold validate_bgp_peer, classified. run.
  destruct (is_up (snd peer)) as [| [|] | z | s] eqn:E; cbn.
  - exists []. rewrite app_nil_r.
    split; [reflexivity|]. split; [|split]; try discriminate. intros e [].
  - exists [Printed (PeerUp (host_name (host st)) (fst peer))].
    split; [reflexivity|]. split; [|split]; try discriminate; [reflexivity|].
    intros e [<-|[]]. now left.
  - exists [Printed (PeerDown (host_name (host st)) (fst peer))].
    split; [reflexivity|]. split; [|split]; try discriminate; [reflexivity|].
    intros e [<-|[]]. now right.
  - destruct (z =? 1), (z =? 0); cbn;
      [ exists [Printed (PeerUp (host_name (host st)) (fst peer));
                Printed (PeerDown (host_name (host st)) (fst peer))];
        rewrite <- app_assoc
      | exists [Printed (PeerUp (host_name (host st)) (fst peer))]
      | exists [Printed (PeerDown (host_name (host st)) (fst peer))]
      | exists []; rewrite app_nil_r ];
      (split; [reflexivity|]); (split; [|split]); try discriminate;
      intros e He; cbn in He; intuition.
  - exists []. rewrite app_nil_r.
    split; [reflexivity|]. split; [|split]; try discriminate. intros e [].
Qed.

Lemma validate_bgp_peers_run peers (st : state) :
  exists classes,
    for_each peers validate_bgp_peer st =
    ({| host := host st; netbox := netbox st; net := net st;
        out := out st ++ List.concat classes |}, Ok tt) /\
    Forall2 (classified (host_name (host st))) peers classes.
Proof.
  revert st. induction peers as [|peer peers IH]; intros st.
  - exists []. cbn. rewrite app_nil_r. destruct st; split; [reflexivity|constructor].
  - destruct (validate_bgp_peer_run peer st) as (printed & Hrun & Hc).
    cbn [for_each]. rewrite (bind_ok _ _ _ _ _ Hrun).
    destruct (IH {| host := host st; netbox := netbox st; net := net st;
                    out := out st ++ printed |}) as (classes & Hrest & Hcs).
    cbn [host netbox net out] in Hrest, Hcs.
    exists (printed :: classes). split.
    + rewrite Hrest. cbn [List.concat]. rewrite app_assoc. reflexivity.
    + constructor; assumption.
Qed.

(** C8: every peer of the fetched facts whose [is_up] is true is printed
    as UP, every peer whose [is_up] is false is printed as DOWN, and
    nothing but these two messages is printed for any peer. *)
Theorem adjacency_classification (st : state) peers :
  napalm_get_bgp_neighbors (host_name (host st)) (net st) = Some peers ->
  exists classes,
    validate_bgp st =
    ({| host := host st; netbox := netbox st; net := net st;
        out := out st ++ List.concat classes |}, Ok tt) /\
    Forall2 (classified (host_name (host st))) peers classes.
Proof.
  intros Hget. unfold validate_bgp. run. rewrite Hget.
  apply validate_bgp_peers_run.
Qed.

(** ** Connectivity validation *)

(** One pass of the inner loop on a pair whose networks agree, when the
    probe comes back with a result. *)
Lemma validate_l3_pair_probe destination failed_pings intf (st : state)
    source mask src dst net' r :
  split " " (intent_ipaddr intf) = [source; mask] ->
  ip_interface (source ++ "/" ++ mask) = Some src ->
  ip_interface (destination ++ "/" ++ mask) = Some dst ->
  network_eq (network src) (network dst) = true ->
  napalm_ping (host_name (host st)) destination source (net st) = (net', Some r) ->
  validate_l3_pair destination failed_pings intf st =
  match success r with
  | Some ok =>
      if packet_loss ok <? 2 then
        ({| host := host st; netbox := netbox st; net := net';
            out := out st ++ [Ping (host_name (host st)) destination source] |},
         Ok failed_pings)
      else
        ({| host := host st; netbox := netbox st; net := net';
            out := out st ++
                   [Ping (host_name (host st)) destination source;
                    Printed (PingFailed (host_name (host st)) source destination)] |},
         Ok (failed_pings + 1))
  | None =>
      ({| host := host st; netbox := netbox st; net := net';
          out := out st ++
                 [Ping (host_name (host st)) destination source;
                  Printed (PingFailed (host_name (host st)) source destination)] |},
       Ok (failed_pings + 1))
  end.
Proof.
  intros Hs Hsrc Hdst Hnet Hping. unfold validate_l3_pair, run_napalm_ping.
  rewrite Hs. run. rewrite Hsrc, Hdst. cbn. rewrite Hnet. cbn.
  rewrite Hping. cbn.
  destruct (success r) as [ok|]; cbn.
  - destruct (packet_loss ok <? 2); cbn; [reflexivity|].
    rewrite <- app_assoc. reflexivity.
  - rewrite <- app_assoc. reflexivity.
Qed.

(** One pass of the inner loop on a pair whose networks differ. *)
Lemma validate_l3_pair_skip destination failed_pings intf (st : state)
    source mask :
  split " " (intent_ipaddr intf) = [source; mask] ->
  well_formed_pair destination intf ->
  same_network source mask destination = false ->
  validate_l3_pair destination failed_pings intf st = (st, Ok failed_pings).
Proof.
  intros Hs (source' & mask' & src & dst & Hs' & Hsrc & Hdst) Hnet.
  rewrite Hs in Hs'. injection Hs' as <- <-.
  unfold same_network in Hnet. rewrite Hsrc, Hdst in Hnet.
  unfold validate_l3_pair. rewrite Hs. run. rewrite Hsrc, Hdst. cbn.
  rewrite Hnet. reflexivity.
Qed.

End Validation.

(** ** The inventory's tables *)

Section PatchFirst.

Context {A : Type} (p : A -> bool) (f : A -> A).

Lemma patch_first_some l :
  (exists x, In x l /\ p x = true) ->
  exists l', Netbox.patch_first p f l = Some l'.
Proof.
  induction l as [|y l IH]; intros (x & Hin & Hp); [destruct Hin|].
  cbn. destruct (p y) eqn:Hy; [eauto|].
  destruct Hin as [->|Hin]; [congruence|].
  destruct IH as (l' & ->); eauto.
Qed.

Lemma patch_first_map {K} (k : A -> K) l l' :
  Netbox.patch_first p f l = Some l' ->
  (forall x, k (f x) = k x) ->
  map k l' = map k l.
Proof.
  intros H Hk. revert l' H. induction l as [|y l IH]; intros l' H; [discriminate|].
  cbn in H. destruct (p y).
  - injection H as <-. cbn. rewrite Hk. reflexivity.
  - destruct (Netbox.patch_first p f l) as [l''|]; [|discriminate].
    injection H as <-. cbn. rewrite (IH l'' eq_refl). reflexivity.
Qed.

Lemma patch_first_fixed l :
  (exists x, In x l /\ p x = true) ->
  (forall x, In x l -> p x = true -> f x = x) ->
  Netbox.patch_first p f l = Some l.
Proof.
  induction l as [|y l IH]; intros (x & Hin & Hp) Hfix; [destruct Hin|].
  cbn. destruct (p y) eqn:Hy.
  - rewrite (Hfix y (or_introl eq_refl) Hy). reflexivity.
  - destruct Hin as [->|Hin]; [congruence|].
    rewrite IH; [reflexivity|eauto|].
    intros z Hz. apply Hfix. now right.
Qed.

Lemma patch_first_other l l' x :
  Netbox.patch_first p f l = Some l' ->
  In x l -> p x = false -> In x l'.
Proof.
  revert l'. induction l as [|y l IH]; intros l' H Hin Hp; [destruct Hin|].
  cbn in H. destruct (p y) eqn:Hy.
  - injection H as <-. destruct Hin as [->|Hin]; [congruence|now right].
  - destruct (Netbox.patch_first p f l) as [l''|]; [|discriminate].
    injection H as <-. destruct Hin as [->|Hin]; [now left|].
    right. now apply IH.
Qed.

Lemma patch_first_patched l l' :
  Netbox.patch_first p f l = Some l' ->
  exists x, In x l /\ p x = true /\ In (f x) l'.
Proof.
  revert l'. induction l as [|y l IH]; intros l' H; [discriminate|].
  cbn in H. destruct (p y) eqn:Hy.
  - injection H as <-. exists y. repeat split; [now left|assumption|now left].
  - destruct (Netbox.patch_first p f l) as [l''|]; [|discriminate].
    injection H as <-. destruct (IH l'' eq_refl) as (x & Hin & Hp & Hf).
    exists x. repeat split; [now right|assumption|now right].
Qed.

Lemma patch_first_again l l' :
  Netbox.patch_first p f l = Some l' ->
  (forall x, p (f x) = p x) ->
  (forall x, f (f x) = f x) ->
  Netbox.patch_first p f l' = Some l'.
Proof.
  intros H Hp Hf. revert l' H.
  induction l as [|y l IH]; intros l' H; [discriminate|].
  cbn in H. destruct (p y) eqn:Hy.
  - injection H as <-. cbn. rewrite Hp, Hy, Hf. reflexivity.
  - destruct (Netbox.patch_first p f l) as [l''|]; [|discriminate].
    injection H as <-. cbn. rewrite Hy, (IH l'' eq_refl). reflexivity.
Qed.

Lemma patch_first_find (q : A -> bool) l l' :
  Netbox.patch_first p f l = Some l' ->
  (forall x, q (f x) = q x) ->
  find q l' = find q l \/
  exists x, find q l = Some x /\ find q l' = Some (f x).
Proof.
  intros H Hq. revert l' H.
  induction l as [|y l IH]; intros l' H; [discriminate|].
  cbn in H. destruct (p y) eqn:Hy.
  - injection H as <-. cbn. rewrite Hq. destruct (q y); [|now left].
    right. exists y. split; reflexivity.
  - destruct (Netbox.patch_first p f l) as [l''|]; [|discriminate].
    injection H as <-. cbn. destruct (q y); [now left|].
    apply IH. reflexivity.
Qed.

End PatchFirst.

Lemma NoDup_map_injective {A K} (k : A -> K) l x y :
  NoDup (map k l) -> In x l -> In y l -> k x = k y -> x = y.
Proof.
  induction l as [|z l IH]; intros Hnd Hx Hy Hk; [destruct Hx|].
  cbn in Hnd. inversion Hnd as [|? ? Hnotin Hnd']; subst.
  destruct Hx as [->|Hx], Hy as [->|Hy].
  - reflexivity.
  - exfalso. apply Hnotin. rewrite Hk. now apply in_map.
  - exfalso. apply Hnotin. rewrite <- Hk. now apply in_map.
  - now apply IH.
Qed.

Lemma lookup_in_keys {A} key (d : list (string * A)) :
  In key (map fst d) -> exists v, lookup key d = Some v.
Proof.
  induction d as [|[k v] d IH]; intros Hin; [destruct Hin|].
  cbn. destruct (String.eqb_spec k key); [eauto|].
  destruct Hin as [Hk|Hin]; [cbn in Hk; congruence|auto].
Qed.

Lemma is_interface_present_iff nb_interfaces device_name interface_name :
  is_interface_present nb_interfaces device_name interface_name = true <->
  exists i, In i nb_interfaces /\ nb_name i = interface_name /\
            nb_device_display_name i = device_name.
Proof.
  induction nb_interfaces as [|i rest IH]; cbn.
  - split; [discriminate|]. intros (? & [] & _).
  - destruct (String.eqb_spec (nb_name i) interface_name) as [Hn|Hn];
    destruct (String.eqb_spec (nb_device_display_name i) device_name) as [Hd|Hd];
    cbn.
    + split; [|reflexivity]. intros _. exists i. auto.
    + rewrite IH. split.
      * intros (j & Hj & H). exists j. split; [now right|exact H].
      * intros (j & [<-|Hj] & Hjn & Hjd); [contradiction|]. exists j. auto.
    + rewrite IH. split.
      * intros (j & Hj & H). exists j. split; [now right|exact H].
      * intros (j & [<-|Hj] & Hjn & Hjd); [contradiction|]. exists j. auto.
    + rewrite IH. split.
      * intros (j & Hj & H). exists j. split; [now right|exact H].
      * intros (j & [<-|Hj] & Hjn & Hjd); [contradiction|]. exists j. auto.
Qed.

(** Against the records of the device itself, the lookup by name and
    device name is the lookup of the key. *)
Lemma is_interface_present_key inv h device_id interface_name :
  Netbox.display_name inv device_id = h ->
  is_interface_present (Netbox.get_interfaces inv device_id) h interface_name = true <->
  In (device_id, interface_name) (map row_key (Netbox.interface_rows inv)).
Proof.
  intros Hd. rewrite is_interface_present_iff. unfold Netbox.get_interfaces. split.
  - intros (i & Hi & Hn & _). apply in_map_iff in Hi as (r & <- & Hr).
    apply filter_In in Hr as (Hr & Hdev). apply Z.eqb_eq in Hdev.
    apply in_map_iff. exists r. split; [|assumption].
    unfold row_key. cbn in Hn. congruence.
  - intros Hin. apply in_map_iff in Hin as (r & Hk & Hr).
    unfold row_key in Hk. injection Hk as Hdev Hn.
    exists (Netbox.view inv r). split; [|split].
    + apply in_map. apply filter_In. split; [assumption|]. now apply Z.eqb_eq.
    + exact Hn.
    + cbn. rewrite Hdev. exact Hd.
Qed.

(** ** The interface loop *)

Section InterfaceLoop.

Context {transport : Transport} {ipaddress : Ipaddress}.

Lemma display_name_devices inv inv' device_id :
  Netbox.devices inv' = Netbox.devices inv ->
  Netbox.display_name inv' device_id = Netbox.display_name inv device_id.
Proof. intros H. unfold Netbox.display_name. rewrite H. reflexivity. Qed.

Lemma upserted_start h device_id device_interfaces inv0 :
  unique_interfaces inv0 ->
  bound inv0 h device_id ->
  upserted h device_id device_interfaces inv0 [] inv0.
Proof.
  intros Hu (_ & Hb). repeat split; try assumption; try tauto.
  - intros name [].
  - exists []. now rewrite app_nil_r.
Qed.

Lemma upsert_interface_step h device_id device_interfaces inv0 done x (st : state) :
  upserted h device_id device_interfaces inv0 done (netbox st) ->
  Netbox.display_name inv0 device_id = h ->
  host_name (host st) = h ->
  In x (map fst device_interfaces) ->
  ~ In x done ->
  exists st',
    upsert_interface device_interfaces (Netbox.get_interfaces inv0 device_id)
      device_id x st = (st', Ok tt) /\
    upserted h device_id device_interfaces inv0 (done ++ [x]) (netbox st') /\
    host st' = host st /\ net st' = net st.
Proof.
  intros (Hdev & Hip & Huniq & Hown & Hdone & Hrest & extra & Hext) Hname Hh Hx Hnew.
  destruct (lookup_in_keys _ _ Hx) as (facts & Hl).
  pose proof (is_interface_present_key inv0 h device_id x Hname) as Hkey.
  rewrite <- (Hrest x Hnew) in Hkey.
  destruct (is_interface_present (Netbox.get_interfaces inv0 device_id) h x) eqn:Hp.
  - (* update *)
    assert (Hin : In (device_id, x) (map row_key (Netbox.interface_rows (netbox st))))
      by (now apply Hkey).
    rewrite <- Hh in Hp.
    rewrite (upsert_interface_present _ _ _ _ _ _ Hl Hp). cbv zeta.
    unfold Netbox.update_interface. rewrite Hh.
    set (p := fun r => _ && _).
    set (f := Netbox.set_description_mac _ _).
    apply in_map_iff in Hin as (r0 & Hk0 & Hr0).
    unfold row_key in Hk0. injection Hk0 as Hd0 Hn0.
    assert (Hp0 : p r0 = true).
    { unfold p. rewrite Hd0, (display_name_devices _ _ _ Hdev), Hname, Hn0.
      now rewrite !String.eqb_refl. }
    destruct (patch_first_some p f _ (ex_intro _ r0 (conj Hr0 Hp0)))
      as (rows' & Hpatch).
    rewrite Hpatch. eexists. split; [reflexivity|].
    cbn [netbox host net].
    assert (Hkeys : map row_key rows' = map row_key (Netbox.interface_rows (netbox st)))
      by (apply (patch_first_map p f row_key _ _ Hpatch); reflexivity).
    assert (Hids : map row_identity rows'
                   = map row_identity (Netbox.interface_rows (netbox st)))
      by (apply (patch_first_map p f row_identity _ _ Hpatch); reflexivity).
    split; [|split; reflexivity].
    unfold upserted, unique_interfaces. cbn [Netbox.devices Netbox.ip_rows Netbox.interface_rows].
    rewrite Hkeys, Hids.
    split; [assumption|]. split; [assumption|]. split; [assumption|].
    split; [|split; [|split]].
    + intros r Hr Hdisp.
      assert (Hk : In (row_key r) (map row_key (Netbox.interface_rows (netbox st))))
        by (rewrite <- Hkeys; now apply in_map).
      apply in_map_iff in Hk as (r1 & Hk1 & Hr1).
      unfold row_key in Hk1. injection Hk1 as Hd1 _.
      rewrite <- Hd1 in *. now apply Hown.
    + intros name Hin. apply in_app_or in Hin as [Hin|[<-|[]]].
      * destruct (Hdone name Hin) as (fs & r & Hlk & Hr & Hk & Hd & Hm).
        exists fs, r. repeat split; try assumption.
        apply (patch_first_other p f _ _ _ Hpatch Hr).
        unfold p. unfold row_key in Hk. injection Hk as _ Hn.
        rewrite Hn. destruct (String.eqb_spec name x) as [->|]; [contradiction|].
        apply andb_false_r.
      * destruct (patch_first_patched p f _ _ Hpatch) as (r1 & Hr1 & Hp1 & Hf1).
        exists facts, (f r1). split; [assumption|]. split; [assumption|].
        unfold p in Hp1. apply andb_true_iff in Hp1 as (Hd1 & Hn1).
        apply String.eqb_eq in Hd1, Hn1.
        rewrite (display_name_devices _ _ _ Hdev) in Hd1.
        unfold row_key, f. cbn. rewrite (Hown r1 Hr1 Hd1), Hn1. auto.
    + intros name Hn. apply Hrest. intros Hin. apply Hn. apply in_or_app. now left.
    + exists extra. assumption.
  - (* create *)
    assert (Hout : ~ In (device_id, x) (map row_key (Netbox.interface_rows (netbox st)))).
    { intros Hin. apply Hkey in Hin. discriminate. }
    rewrite <- Hh in Hp.
    rewrite (upsert_interface_absent _ _ _ _ _ _ Hl Hp).
    eexists. split; [reflexivity|]. cbn [netbox host net].
    split; [|split; reflexivity].
    unfold upserted, unique_interfaces, Netbox.create_interface.
    cbn [Netbox.devices Netbox.ip_rows Netbox.interface_rows].
    rewrite !map_app. cbn [map].
    split; [assumption|]. split; [assumption|].
    split; [|split; [|split; [|split]]].
    + apply NoDup_app; [assumption|repeat constructor; intros []|].
      intros k Hk [<-|[]]. contradiction.
    + intros r Hr Hdisp. apply in_app_or in Hr as [Hr|[<-|[]]]; [now apply Hown|reflexivity].
    + intros name Hin. apply in_app_or in Hin as [Hin|[<-|[]]].
      * destruct (Hdone name Hin) as (fs & r & Hlk & Hr & Hk & Hd & Hm).
        exists fs, r. repeat split; try assumption. apply in_or_app. now left.
      * eexists facts, _. split; [assumption|]. split; [apply in_or_app; right; now left|].
        repeat split.
    + intros name Hn. rewrite <- Hrest.
      2:{ intros Hin. apply Hn. apply in_or_app. now left. }
      rewrite in_app_iff. cbn. split; [|tauto].
      intros [H|[H|[]]]; [assumption|]. unfold row_key in H. cbn in H.
      injection H as <-. exfalso. apply Hn. apply in_or_app. right. now left.
    + eexists. rewrite Hext, <- app_assoc. reflexivity.
Qed.

Lemma upsert_interface_loop h device_id device_interfaces inv0 ks :
  Netbox.display_name inv0 device_id = h ->
  NoDup ks ->
  (forall k, In k ks -> In k (map fst device_interfaces)) ->
  forall done (st : state),
    upserted h device_id device_interfaces inv0 done (netbox st) ->
    host_name (host st) = h ->
    (forall k, In k ks -> ~ In k done) ->
    exists st',
      for_each ks
        (upsert_interface device_interfaces
           (Netbox.get_interfaces inv0 device_id) device_id) st = (st', Ok tt) /\
      upserted h device_id device_interfaces inv0 (done ++ ks) (netbox st') /\
      host st' = host st /\ net st' = net st.
Proof.
  intros Hname Hnd. induction Hnd as [|x ks Hx Hnd IH]; intros Hkeys done st Hinv Hh Hfresh.
  - exists st. rewrite app_nil_r. cbn. auto.
  - destruct (upsert_interface_step h device_id device_interfaces inv0 done x st)
      as (st1 & Hrun & Hinv1 & Hh1 & Hn1); try assumption.
    { apply Hkeys. now left. }
    { apply Hfresh. now left. }
    destruct (IH (fun k Hk => Hkeys k (or_intror Hk)) (done ++ [x])%list st1)
      as (st2 & Hrest & Hinv2 & Hh2 & Hn2); try assumption.
    { congruence. }
    { intros k Hk Hin. apply in_app_or in Hin as [Hin|[<-|[]]].
      - apply (Hfresh k (or_intror Hk) Hin).
      - contradiction. }
    exists st2. cbn [for_each]. rewrite (bind_ok _ _ _ _ _ Hrun).
    rewrite <- app_assoc in Hinv2. cbn in Hinv2.
    split; [exact Hrest|]. split; [exact Hinv2|]. split; congruence.
Qed.

(** On an inventory whose record of the interface already carries the
    observed description and MAC address, one pass of the loop repeats the
    update and changes nothing. *)
Lemma upsert_interface_settled h device_id device_interfaces x (st : state) :
  host_name (host st) = h ->
  bound (netbox st) h device_id ->
  unique_interfaces (netbox st) ->
  (exists facts r,
     lookup x device_interfaces = Some facts /\
     In r (Netbox.interface_rows (netbox st)) /\
     row_key r = (device_id, x) /\
     Netbox.row_description r = description facts /\
     Netbox.row_mac r = normalize_mac (mac_address facts)) ->
  exists facts,
    lookup x device_interfaces = Some facts /\
    upsert_interface device_interfaces
      (Netbox.get_interfaces (netbox st) device_id) device_id x st =
    ({| host := host st; netbox := netbox st; net := net st;
        out := out st ++
               [Printed (UpdatingInterface h x);
                UpdateInterface h x (description facts)
                  (normalize_mac (mac_address facts))] |}, Ok tt) /\
    reapplied (netbox st)
      (UpdateInterface h x (description facts) (normalize_mac (mac_address facts))).
Proof.
  intros Hh ((d & Hfind & Hdn) & Hown) Huniq (facts & r & Hl & Hr & Hk & Hd & Hm).
  assert (Hname : Netbox.display_name (netbox st) device_id = h).
  { unfold Netbox.display_name. rewrite Hfind. exact Hdn. }
  exists facts. split; [assumption|].
  pose proof Hk as Hk'. unfold row_key in Hk'. injection Hk' as Hrd Hrn.
  assert (Hp : is_interface_present (Netbox.get_interfaces (netbox st) device_id)
                 (host_name (host st)) x = true).
  { rewrite Hh. apply (is_interface_present_key _ _ _ _ Hname).
    rewrite <- Hk. now apply in_map. }
  rewrite (upsert_interface_present _ _ _ _ _ _ Hl Hp). cbv zeta.
  unfold Netbox.update_interface. rewrite Hh.
  rewrite patch_first_fixed.
  - split; [reflexivity|]. cbn. exists r. rewrite Hrd. auto.
  - exists r. split; [assumption|]. rewrite Hrd, Hname, Hrn.
    now rewrite !String.eqb_refl.
  - intros r' Hr' Hp'. apply andb_true_iff in Hp' as (Hd' & Hn').
    apply String.eqb_eq in Hd', Hn'.
    assert (r' = r).
    { apply (NoDup_map_injective row_key _ _ _ Huniq Hr' Hr).
      unfold row_key. rewrite (Hown r' Hr' Hd'), Hn'. congruence. }
    subst r'. destruct r. cbn in *. unfold Netbox.set_description_mac. cbn.
    congruence.
Qed.

Lemma upsert_interface_loop_settled h device_id device_interfaces ks :
  forall (st : state),
    host_name (host st) = h ->
    bound (netbox st) h device_id ->
    unique_interfaces (netbox st) ->
    (forall x, In x ks ->
       exists facts r,
         lookup x device_interfaces = Some facts /\
         In r (Netbox.interface_rows (netbox st)) /\
         row_key r = (device_id, x) /\
         Netbox.row_description r = description facts /\
         Netbox.row_mac r = normalize_mac (mac_address facts)) ->
    exists events,
      for_each ks
        (upsert_interface device_interfaces
           (Netbox.get_interfaces (netbox st) device_id) device_id) st =
      ({| host := host st; netbox := netbox st; net := net st;
          out := out st ++ events |}, Ok tt) /\
      Forall (reapplied (netbox st)) events /\
      Forall (fun e => is_write e = true -> is_interface_update e = true) events.
Proof.
  induction ks as [|x ks IH]; intros st Hh Hb Hu Hall.
  - exists []. rewrite app_nil_r. cbn. auto.
  - destruct (upsert_interface_settled h device_id device_interfaces x st Hh Hb Hu
                (Hall x (or_introl eq_refl))) as (facts & _ & Hrun & Hre).
    destruct (IH {| host := host st; netbox := netbox st; net := net st;
                    out := out st ++
                           [Printed (UpdatingInterface h x);
                            UpdateInterface h x (description facts)
                              (normalize_mac (mac_address facts))] |}
                Hh Hb Hu (fun y Hy => Hall y (or_intror Hy)))
      as (events & Hrest & Hre' & Hw').
    cbn [host netbox net out] in Hrest, Hre'.
    eexists (_ :: _ :: events). cbn [for_each].
    rewrite (bind_ok _ _ _ _ _ Hrun). rewrite Hrest.
    rewrite <- app_assoc. split; [reflexivity|].
    split.
    + constructor; [exact I|]. constructor; [exact Hre|exact Hre'].
    + constructor; [discriminate|]. constructor; [reflexivity|exact Hw'].
Qed.

End InterfaceLoop.

(** ** The address loop *)

Section AddressLoop.

Context {transport : Transport} {ipaddress : Ipaddress}.

Lemma create_ip_loop name ipaddr nb_interfaces :
  forall (st : state),
    for_each nb_interfaces
      (fun nb_intf =>
         if String.eqb name (nb_name nb_intf)
         then netbox_create_ip_address ipaddr (nb_id nb_intf)
         else ret tt) st =
    let matching :=
      filter (fun nb_intf => String.eqb name (nb_name nb_intf)) nb_interfaces in
    ({| host := host st;
        netbox :=
          {| Netbox.devices := Netbox.devices (netbox st);
             Netbox.interface_rows := Netbox.interface_rows (netbox st);
             Netbox.ip_rows :=
               Netbox.ip_rows (netbox st) ++
               map (fun nb_intf =>
                      {| Netbox.ip_address := ipaddr;
                         Netbox.ip_interface_id := nb_id nb_intf |}) matching;
             Netbox.next_id := Netbox.next_id (netbox st) |};
        net := net st;
        out := out st ++
               map (fun nb_intf => CreateIpAddress ipaddr (nb_id nb_intf)) matching |},
     Ok tt).
Proof.
  induction nb_interfaces as [|nb rest IH]; intros st; cbv zeta.
  - cbn. rewrite !app_nil_r. reflexivity.
  - cbn [for_each filter]. destruct (String.eqb name (nb_name nb)).
    + unfold netbox_create_ip_address at 1. run. rewrite IH. cbv zeta.
      unfold Netbox.create_ip_address.
      cbn [host netbox net out map Netbox.devices Netbox.interface_rows
           Netbox.ip_rows Netbox.next_id].
      rewrite <- !app_assoc. reflexivity.
    + run. apply IH.
Qed.

Lemma flag_ip_loop h name ipaddr nb_interfaces :
  forall (st : state),
    for_each nb_interfaces
      (fun nb_intf =>
         if String.eqb name (nb_name nb_intf)
         then c_print (IpExists h ipaddr)
         else ret tt) st =
    ({| host := host st; netbox := netbox st; net := net st;
        out := out st ++
               map (fun _ => Printed (IpExists h ipaddr))
                 (filter (fun nb_intf => String.eqb name (nb_name nb_intf))
                    nb_interfaces) |},
     Ok tt).
Proof.
  induction nb_interfaces as [|nb rest IH]; intros st.
  - cbn. rewrite !app_nil_r. reflexivity.
  - cbn [for_each filter]. destruct (String.eqb name (nb_name nb)).
    + run. rewrite IH.
      cbn [host netbox net out map]. rewrite <- !app_assoc. reflexivity.
    + run. apply IH.
Qed.

(** One pass of the address loop, by what the lookup of the address
    returns. *)
Lemma reconcile_ip_run nb_interfaces (intf : string * intent) (st : state)
    ip mask parsed :
  split " " (intent_ipaddr (snd intf)) = [ip; mask] ->
  ip_interface (ip ++ "/" ++ mask) = Some parsed ->
  let ipaddr := ip_interface_str parsed in
  let matching :=
    filter (fun nb_intf => String.eqb (fst intf) (nb_name nb_intf)) nb_interfaces in
  (Netbox.get_ip_addresses (netbox st) ipaddr = [] ->
   reconcile_ip nb_interfaces intf st =
   ({| host := host st;
       netbox :=
         {| Netbox.devices := Netbox.devices (netbox st);
            Netbox.interface_rows := Netbox.interface_rows (netbox st);
            Netbox.ip_rows :=
              Netbox.ip_rows (netbox st) ++
              map (fun nb_intf =>
                     {| Netbox.ip_address := ipaddr;
                        Netbox.ip_interface_id := nb_id nb_intf |}) matching;
            Netbox.next_id := Netbox.next_id (netbox st) |};
       net := net st;
       out := out st ++
              map (fun nb_intf => CreateIpAddress ipaddr (nb_id nb_intf)) matching |},
    Ok tt)) /\
  (Netbox.get_ip_addresses (netbox st) ipaddr <> [] ->
   reconcile_ip nb_interfaces intf st =
   ({| host := host st; netbox := netbox st; net := net st;
       out := out st ++
              map (fun _ => Printed (IpExists (host_name (host st)) ipaddr)) matching |},
    Ok tt)).
Proof.
  intros Hs Hparse ipaddr matching. split; intros Hex.
  - unfold reconcile_ip. rewrite Hs. run. rewrite Hparse. cbn.
    fold ipaddr. rewrite Hex. apply create_ip_loop.
  - unfold reconcile_ip. rewrite Hs. run. rewrite Hparse. cbn.
    fold ipaddr.
    destruct (Netbox.get_ip_addresses (netbox st) ipaddr) as [|e es];
      [contradiction|].
    apply (flag_ip_loop (host_name (host st)) (fst intf) ipaddr).
Qed.

Lemma canonical_some intf a :
  canonical intf = Some a ->
  exists ip mask parsed,
    split " " (intent_ipaddr intf) = [ip; mask] /\
    ip_interface (ip ++ "/" ++ mask) = Some parsed /\
    a = ip_interface_str parsed.
Proof.
  unfold canonical. intros H.
  destruct (split " " (intent_ipaddr intf)) as [|ip [|mask [|? ?]]];
    try discriminate.
  destruct (ip_interface (ip ++ "/" ++ mask)) as [parsed|] eqn:Hp;
    [|discriminate].
  injection H as <-. exists ip, mask, parsed. auto.
Qed.

Lemma get_ip_addresses_nil inv a :
  Netbox.get_ip_addresses inv a = [] <->
  ~ In a (map Netbox.ip_address (Netbox.ip_rows inv)).
Proof.
  unfold Netbox.get_ip_addresses.
  induction (Netbox.ip_rows inv) as [|r rows IH]; cbn.
  - tauto.
  - destruct (String.eqb_spec (Netbox.ip_address r) a) as [He|He].
    + split; [discriminate|]. intros H. exfalso. apply H. now left.
    + rewrite IH. tauto.
Qed.

Lemma filter_by_name_none name nb_interfaces :
  ~ In name (map nb_name nb_interfaces) ->
  filter (fun nb_intf => String.eqb name (nb_name nb_intf)) nb_interfaces = [].
Proof.
  induction nb_interfaces as [|nb rest IH]; intros Hnotin; [reflexivity|].
  cbn. destruct (String.eqb_spec name (nb_name nb)) as [He|He].
  - exfalso. apply Hnotin. left. now symmetry.
  - apply IH. intros H. apply Hnotin. now right.
Qed.

Lemma filter_by_name_unique name nb_interfaces :
  NoDup (map nb_name nb_interfaces) ->
  let matching :=
    filter (fun nb_intf => String.eqb name (nb_name nb_intf)) nb_interfaces in
  matching = [] \/ exists nb, matching = [nb].
Proof.
  induction nb_interfaces as [|nb rest IH]; intros Hnd; cbn.
  - now left.
  - inversion Hnd as [|? ? Hnotin Hnd']; subst.
    destruct (String.eqb_spec name (nb_name nb)) as [->|Hne].
    + right. exists nb. f_equal. now apply filter_by_name_none.
    + apply IH. assumption.
Qed.

Lemma filter_by_name_some name nb_interfaces :
  (exists nb, In nb nb_interfaces /\ nb_name nb = name) <->
  filter (fun nb_intf => String.eqb name (nb_name nb_intf)) nb_interfaces <> [].
Proof.
  split.
  - intros (nb & Hin & Hn) H.
    assert (Hf : In nb (filter (fun nb_intf => String.eqb name (nb_name nb_intf))
                          nb_interfaces)).
    { apply filter_In. split; [assumption|]. rewrite Hn. apply String.eqb_refl. }
    rewrite H in Hf. destruct Hf.
  - intros H.
    destruct (filter (fun nb_intf => String.eqb name (nb_name nb_intf)) nb_interfaces)
      as [|nb l] eqn:Hf; [contradiction|].
    assert (Hin : In nb (nb :: l)) by now left.
    rewrite <- Hf in Hin. apply filter_In in Hin as (Hin & Hn).
    apply String.eqb_eq in Hn. exists nb. auto.
Qed.

(** One pass of the address loop keeps the addresses unique and leaves
    the address of a matched interface recorded. *)
Lemma reconcile_ip_step nb_interfaces (intf : string * intent) (st : state) a :
  canonical (snd intf) = Some a ->
  NoDup (map nb_name nb_interfaces) ->
  unique_ips (netbox st) ->
  exists st',
    reconcile_ip nb_interfaces intf st = (st', Ok tt) /\
    host st' = host st /\ net st' = net st /\
    Netbox.devices (netbox st') = Netbox.devices (netbox st) /\
    Netbox.interface_rows (netbox st') = Netbox.interface_rows (netbox st) /\
    Netbox.next_id (netbox st') = Netbox.next_id (netbox st) /\
    unique_ips (netbox st') /\
    (forall b, In b (map Netbox.ip_address (Netbox.ip_rows (netbox st))) ->
               In b (map Netbox.ip_address (Netbox.ip_rows (netbox st')))) /\
    ((exists nb, In nb nb_interfaces /\ nb_name nb = fst intf) ->
     In a (map Netbox.ip_address (Netbox.ip_rows (netbox st')))).
Proof.
  intros Hc Hnd Hu.
  destruct (canonical_some _ _ Hc) as (ip & mask & parsed & Hs & Hp & ->).
  destruct (reconcile_ip_run nb_interfaces intf st ip mask parsed Hs Hp)
    as (Hcreate & Hflag).
  destruct (Netbox.get_ip_addresses (netbox st) (ip_interface_str parsed))
    as [|e es] eqn:Hex.
  - rewrite (Hcreate eq_refl). eexists. split; [reflexivity|].
    cbn [host net netbox Netbox.devices Netbox.interface_rows Netbox.next_id
         Netbox.ip_rows].
    apply get_ip_addresses_nil in Hex.
    repeat split.
    + unfold unique_ips. cbn [Netbox.ip_rows]. rewrite map_app, map_map. cbn.
      destruct (filter_by_name_unique (fst intf) nb_interfaces Hnd) as [->|[nb ->]].
      * cbn. rewrite app_nil_r. exact Hu.
      * cbn. apply NoDup_app; [exact Hu|repeat constructor; intros []|].
        intros k Hk [<-|[]]. contradiction.
    + intros b Hb. rewrite map_app. apply in_or_app. now left.
    + intros Hm. apply filter_by_name_some in Hm.
      rewrite map_app, map_map. cbn. apply in_or_app. right.
      destruct (filter _ nb_interfaces); [contradiction|]. now left.
  - rewrite Hflag by discriminate. eexists. split; [reflexivity|].
    cbn [host net netbox]. repeat split; try assumption; try tauto.
    intros _. apply Decidable.not_not.
    + destruct (in_dec String.string_dec (ip_interface_str parsed)
                  (map Netbox.ip_address (Netbox.ip_rows (netbox st))));
        [now left|now right].
    + intros H. apply get_ip_addresses_nil in H. congruence.
Qed.

Lemma reconcile_ip_loop nb_interfaces intfs :
  NoDup (map nb_name nb_interfaces) ->
  (forall intf, In intf intfs -> exists a, canonical (snd intf) = Some a) ->
  forall (st : state),
    unique_ips (netbox st) ->
    exists st',
      for_each intfs (reconcile_ip nb_interfaces) st = (st', Ok tt) /\
      host st' = host st /\ net st' = net st /\
      Netbox.devices (netbox st') = Netbox.devices (netbox st) /\
      Netbox.interface_rows (netbox st') = Netbox.interface_rows (netbox st) /\
      Netbox.next_id (netbox st') = Netbox.next_id (netbox st) /\
      unique_ips (netbox st') /\
      (forall b, In b (map Netbox.ip_address (Netbox.ip_rows (netbox st))) ->
                 In b (map Netbox.ip_address (Netbox.ip_rows (netbox st')))) /\
      (forall intf, In intf intfs ->
         (exists nb, In nb nb_interfaces /\ nb_name nb = fst intf) ->
         exists a, canonical (snd intf) = Some a /\
                   In a (map Netbox.ip_address (Netbox.ip_rows (netbox st')))).
Proof.
  intros Hnd. induction intfs as [|intf intfs IH]; intros Hc st Hu.
  - exists st. cbn. repeat split; auto. intros ? [].
  - destruct (Hc intf (or_introl eq_refl)) as (a & Ha).
    destruct (reconcile_ip_step nb_interfaces intf st a Ha Hnd Hu)
      as (st1 & Hrun & Hh1 & Hn1 & Hd1 & Hr1 & Hi1 & Hu1 & Hmono1 & Hin1).
    destruct (IH (fun i Hi => Hc i (or_intror Hi)) st1 Hu1)
      as (st2 & Hrest & Hh2 & Hn2 & Hd2 & Hr2 & Hi2 & Hu2 & Hmono2 & Hin2).
    exists st2. cbn [for_each]. rewrite (bind_ok _ _ _ _ _ Hrun).
    split; [exact Hrest|]. repeat split; try congruence; auto.
    intros i [<-|Hi] Hm; [|now apply Hin2].
    exists a. split; [assumption|]. apply Hmono2. now apply Hin1.
Qed.

(** On an inventory that already records the address of every matched
    interface, one pass of the address loop only prints. *)
Lemma reconcile_ip_settled nb_interfaces (intf : string * intent) (st : state) a :
  canonical (snd intf) = Some a ->
  ((exists nb, In nb nb_interfaces /\ nb_name nb = fst intf) ->
   In a (map Netbox.ip_address (Netbox.ip_rows (netbox st)))) ->
  exists events,
    reconcile_ip nb_interfaces intf st =
    ({| host := host st; netbox := netbox st; net := net st;
        out := out st ++ events |}, Ok tt) /\
    Forall (fun e => exists m, e = Printed m) events.
Proof.
  intros Hc Hin.
  destruct (canonical_some _ _ Hc) as (ip & mask & parsed & Hs & Hp & ->).
  destruct (reconcile_ip_run nb_interfaces intf st ip mask parsed Hs Hp)
    as (Hcreate & Hflag).
  destruct (Netbox.get_ip_addresses (netbox st) (ip_interface_str parsed))
    as [|e es] eqn:Hex.
  - rewrite (Hcreate eq_refl).
    destruct (filter (fun nb_intf => String.eqb (fst intf) (nb_name nb_intf))
                nb_interfaces) as [|nb l] eqn:Hf.
    + exists []. cbn. rewrite !app_nil_r. split; [reflexivity|constructor].
    + exfalso. apply get_ip_addresses_nil in Hex. apply Hex, Hin.
      apply filter_by_name_some. rewrite Hf. discriminate.
  - rewrite Hflag by discriminate. eexists. split; [reflexivity|].
    apply Forall_forall. intros e' He'. apply in_map_iff in He' as (? & <- & _).
    eauto.
Qed.

Lemma reconcile_ip_loop_settled nb_interfaces intfs :
  forall (st : state),
    (forall intf, In intf intfs ->
       exists a, canonical (snd intf) = Some a /\
         ((exists nb, In nb nb_interfaces /\ nb_name nb = fst intf) ->
          In a (map Netbox.ip_address (Netbox.ip_rows (netbox st))))) ->
    exists events,
      for_each intfs (reconcile_ip nb_interfaces) st =
      ({| host := host st; netbox := netbox st; net := net st;
          out := out st ++ events |}, Ok tt) /\
      Forall (fun e => exists m, e = Printed m) events.
Proof.
  induction intfs as [|intf intfs IH]; intros st Hall.
  - exists []. cbn. rewrite app_nil_r. split; [reflexivity|constructor].
  - destruct (Hall intf (or_introl eq_refl)) as (a & Ha & Hin).
    destruct (reconcile_ip_settled nb_interfaces intf st a Ha Hin)
      as (ev1 & Hrun & Hp1).
    destruct (IH {| host := host st; netbox := netbox st; net := net st;
                    out := out st ++ ev1 |}
                (fun i Hi => Hall i (or_intror Hi)))
      as (ev2 & Hrest & Hp2).
    cbn [host netbox net out] in Hrest.
    exists (ev1 ++ ev2)%list. cbn [for_each].
    rewrite (bind_ok _ _ _ _ _ Hrun), Hrest, <- app_assoc.
    split; [reflexivity|]. apply Forall_app. auto.
Qed.

End AddressLoop.

(** ** Reconciliation, run twice *)

Section Reconcile.

Context {transport : Transport} {ipaddress : Ipaddress}.

Lemma get_updated_info_run (st : state) device_id device_interfaces info :
  host_device_id (host st) = Some device_id ->
  napalm_get_interfaces (host_name (host st)) (net st) = Some device_interfaces ->
  napalm_get_facts (host_name (host st)) (net st) = Some info ->
  get_updated_info st =
  ({| host :=
        set_device_info info
          (set_interfaces device_interfaces
             (set_nb_interfaces (Netbox.get_interfaces (netbox st) device_id)
                (host st)));
      netbox := netbox st; net := net st; out := out st |}, Ok tt).
Proof.
  intros Hid Hi Hf. unfold get_updated_info. run. rewrite Hid. cbn.
  rewrite Hi. cbn. rewrite Hf. reflexivity.
Qed.

Lemma get_interfaces_stable inv inv' device_id :
  Netbox.interface_rows inv' = Netbox.interface_rows inv ->
  (forall d, Netbox.display_name inv' d = Netbox.display_name inv d) ->
  Netbox.get_interfaces inv' device_id = Netbox.get_interfaces inv device_id.
Proof.
  intros Hr Hd. unfold Netbox.get_interfaces. rewrite Hr.
  apply map_ext. intros r. unfold Netbox.view. now rewrite Hd.
Qed.

Lemma snapshot_names_unique inv device_id :
  unique_interfaces inv ->
  NoDup (map nb_name (Netbox.get_interfaces inv device_id)).
Proof.
  unfold unique_interfaces, Netbox.get_interfaces. rewrite map_map. cbn.
  induction (Netbox.interface_rows inv) as [|r rows IH]; intros Hnd; cbn.
  - constructor.
  - inversion Hnd as [|? ? Hnotin Hnd']; subst.
    destruct (Z.eqb_spec (Netbox.row_device_id r) device_id) as [He|He]; [|auto].
    cbn. constructor; [|auto].
    intros Hin. apply in_map_iff in Hin as (r' & Hn & Hr').
    apply filter_In in Hr' as (Hr' & Hd'). apply Z.eqb_eq in Hd'.
    apply Hnotin. apply in_map_iff. exists r'. split; [|assumption].
    unfold row_key. congruence.
Qed.

(** The lifecycle update on a bound host: it succeeds, touches only the
    device's type, role and site, and is a fixed point from then on. *)
Lemma update_device_bound inv h device_id :
  bound inv h device_id ->
  exists inv',
    Netbox.update_device inv h 2 2 1 = Some inv' /\
    Netbox.interface_rows inv' = Netbox.interface_rows inv /\
    Netbox.ip_rows inv' = Netbox.ip_rows inv /\
    Netbox.next_id inv' = Netbox.next_id inv /\
    (forall d, Netbox.display_name inv' d = Netbox.display_name inv d) /\
    bound inv' h device_id /\
    Netbox.update_device inv' h 2 2 1 = Some inv' /\
    reapplied inv' (UpdateDevice h 2 2 1).
Proof.
  intros ((d & Hfind & Hdn) & Hown).
  unfold Netbox.update_device.
  set (p := fun d => String.eqb (Netbox.dev_name d) h).
  set (f := Netbox.set_type_role_site 2 2 1).
  destruct (patch_first_some p f (Netbox.devices inv)) as (devs & Hpatch).
  { exists d. apply find_some in Hfind as (Hin & _). split; [assumption|].
    unfold p. rewrite Hdn. apply String.eqb_refl. }
  rewrite Hpatch. eexists. split; [reflexivity|].
  cbn [Netbox.devices Netbox.interface_rows Netbox.ip_rows Netbox.next_id].
  assert (Hdisp : forall k,
            Netbox.display_name
              {| Netbox.devices := devs;
                 Netbox.interface_rows := Netbox.interface_rows inv;
                 Netbox.ip_rows := Netbox.ip_rows inv;
                 Netbox.next_id := Netbox.next_id inv |} k
            = Netbox.display_name inv k).
  { intros k. unfold Netbox.display_name. cbn [Netbox.devices].
    destruct (patch_first_find p f (fun d => Netbox.dev_id d =? k) _ _ Hpatch)
      as [->|(x & -> & ->)]; reflexivity. }
  repeat split; try reflexivity; try assumption.
  - destruct (patch_first_find p f (fun d => Netbox.dev_id d =? device_id) _ _ Hpatch)
      as [He|(x & Hx & He)]; [reflexivity| |].
    + exists d. cbn [Netbox.devices]. rewrite He. auto.
    + exists (f x). cbn [Netbox.devices]. rewrite He. split; [reflexivity|].
      rewrite Hfind in Hx. injection Hx as <-. exact Hdn.
  - intros r Hr. rewrite Hdisp. now apply Hown.
  - rewrite (patch_first_again p f _ _ Hpatch); reflexivity.
  - destruct (patch_first_patched p f _ _ Hpatch) as (x & _ & Hp & Hin).
    exists (f x). cbn [Netbox.devices]. split; [assumption|].
    unfold p in Hp. apply String.eqb_eq in Hp. cbn. auto.
Qed.

Ltac step H := rewrite (bind_ok _ _ _ _ _ H).

(** A run of [update_netbox] on a bound host with well-formed intent
    completes and leaves the inventory reconciled, with every record it
    found still there. *)
Lemma update_netbox_reconciles (st : state) h device_id cfg device_interfaces info :
  host_name (host st) = h ->
  host_device_id (host st) = Some device_id ->
  host_config_vars (host st) = Some cfg ->
  napalm_get_interfaces h (net st) = Some device_interfaces ->
  napalm_get_facts h (net st) = Some info ->
  NoDup (map fst device_interfaces) ->
  (forall intf, In intf (interfaces cfg) -> exists a, canonical (snd intf) = Some a) ->
  bound (netbox st) h device_id ->
  unique_interfaces (netbox st) ->
  unique_ips (netbox st) ->
  exists st',
    update_netbox st = (st', Ok tt) /\
    host_name (host st') = h /\
    host_device_id (host st') = Some device_id /\
    host_config_vars (host st') = Some cfg /\
    net st' = net st /\
    reconciled h device_id cfg device_interfaces (netbox st') /\
    (exists extra,
       map row_identity (Netbox.interface_rows (netbox st')) =
       (map row_identity (Netbox.interface_rows (netbox st)) ++ extra)%list).
Proof.
  intros Hh Hid Hcfg Hgi Hgf Hnd Hparse Hb Hu Hui.
  pose proof Hb as ((d0 & Hfind0 & Hdn0) & Hown0).
  assert (Hname : Netbox.display_name (netbox st) device_id = h).
  { unfold Netbox.display_name. rewrite Hfind0. exact Hdn0. }
  unfold update_netbox.
  (* refresh *)
  rewrite <- Hh in Hgi, Hgf.
  step (get_updated_info_run st device_id device_interfaces info Hid Hgi Hgf).
  set (sa := {| host := _; netbox := netbox st; net := net st; out := out st |}).
  assert (Hga : bind (gets (fun s : state => host_interfaces (host s)))
                  (require Py.KeyError) sa = (sa, Ok device_interfaces))
    by reflexivity.
  step Hga.
  assert (Hgb : bind (gets (fun s : state => host_nb_interfaces (host s)))
                  (require Py.KeyError) sa
                = (sa, Ok (Netbox.get_interfaces (netbox st) device_id)))
    by reflexivity.
  step Hgb.
  assert (Hgc : bind (gets (fun s : state => host_device_id (host s)))
                  (require Py.KeyError) sa = (sa, Ok device_id)).
  { unfold bind, gets, require, sa. cbn. rewrite Hid. reflexivity. }
  step Hgc.
  (* interface loop *)
  destruct (upsert_interface_loop h device_id device_interfaces (netbox st)
              (map fst device_interfaces) Hname Hnd (fun k Hk => Hk) [] sa)
    as (sb & Hloop & Hups & Hhb & Hnb).
  { apply upserted_start; assumption. }
  { exact Hh. }
  { intros k _ []. }
  step Hloop. cbn [app] in Hups.
  destruct Hups as (Hdev & Hip & Huniq & Hown & Hdone & _ & Hext).
  (* refresh *)
  assert (Hidb : host_device_id (host sb) = Some device_id).
  { rewrite Hhb. unfold sa. cbn. exact Hid. }
  assert (Hhnb : host_name (host sb) = host_name (host st)) by (rewrite Hhb; reflexivity).
  assert (Hgib : napalm_get_interfaces (host_name (host sb)) (net sb)
                 = Some device_interfaces) by (rewrite Hhnb, Hnb; exact Hgi).
  assert (Hgfb : napalm_get_facts (host_name (host sb)) (net sb) = Some info)
    by (rewrite Hhnb, Hnb; exact Hgf).
  step (get_updated_info_run sb device_id device_interfaces info Hidb Hgib Hgfb).
  set (sc := {| host := _; netbox := netbox sb; net := net sb; out := out sb |}).
  assert (Hgd : bind (gets (fun s : state => host_nb_interfaces (host s)))
                  (require Py.KeyError) sc
                = (sc, Ok (Netbox.get_interfaces (netbox sb) device_id)))
    by reflexivity.
  step Hgd.
  assert (Hge : bind (gets (fun s : state => host_config_vars (host s)))
                  (require Py.KeyError) sc = (sc, Ok cfg)).
  { unfold bind, gets, require, sc. cbn. rewrite Hhb. unfold sa. cbn.
    rewrite Hcfg. reflexivity. }
  step Hge.
  (* address loop *)
  destruct (reconcile_ip_loop (Netbox.get_interfaces (netbox sb) device_id)
              (interfaces cfg) (snapshot_names_unique _ _ Huniq) Hparse sc)
    as (sd & Hloop2 & Hhd & Hnd2 & Hdevd & Hrowd & Hnextd & Huipd & _ & Haddr).
  { unfold unique_ips. cbn [sc netbox]. rewrite Hip. exact Hui. }
  step Hloop2.
  cbn [sc netbox] in Hdevd, Hrowd, Hnextd.
  (* lifecycle update *)
  assert (Hdispd : forall k, Netbox.display_name (netbox sd) k
                             = Netbox.display_name (netbox st) k).
  { intros k. apply display_name_devices. congruence. }
  assert (Hbd : bound (netbox sd) h device_id).
  { split.
    - exists d0. rewrite Hdevd, Hdev. auto.
    - intros r Hr Hdisp. rewrite Hrowd in Hr. rewrite Hdispd in Hdisp. auto. }
  destruct (update_device_bound _ _ _ Hbd)
    as (inv' & Hupd & Hrow' & Hip' & Hnext' & Hdisp' & Hb' & Hagain & Hre).
  assert (Hhn : host_name (host sd) = h).
  { rewrite Hhd. unfold sc. cbn. rewrite Hhnb. exact Hh. }
  assert (Hfin : (task_host <- gets (fun s : state => host_name (host s)) ;;
                  netbox_update_device task_host 2 2 1 ;;;
                  c_print (MovedToProduction task_host)) sd
                 = ({| host := host sd; netbox := inv'; net := net sd;
                       out := out sd ++ [UpdateDevice h 2 2 1;
                                         Printed (MovedToProduction h)] |}, Ok tt)).
  { run. rewrite Hhn, Hupd. cbn. rewrite <- !app_assoc. reflexivity. }
  rewrite Hfin. eexists. split; [reflexivity|].
  cbn [host netbox net].
  split; [exact Hhn|].
  split; [rewrite Hhd; unfold sc; cbn; exact Hidb|].
  split; [rewrite Hhd; unfold sc; cbn; rewrite Hhb; unfold sa; cbn; exact Hcfg|].
  split; [rewrite Hnd2; unfold sc; cbn; exact Hnb|].
  split.
  - unfold reconciled.
    split; [exact Hb'|].
    split; [unfold unique_interfaces; rewrite Hrow', Hrowd; exact Huniq|].
    split; [unfold unique_ips; rewrite Hip'; exact Huipd|].
    split; [|split; [|split; assumption]].
    + intros x Hx. rewrite Hrow', Hrowd. now apply Hdone.
    + intros intf Hin. destruct (Hparse intf Hin) as (a & Ha).
      exists a. split; [assumption|]. intros Hm. rewrite Hip'.
      rewrite (get_interfaces_stable (netbox sb) inv' device_id) in Hm.
      * destruct (Haddr intf Hin Hm) as (a' & Ha' & Hin'). congruence.
      * congruence.
      * intros k. rewrite Hdisp', Hdispd. symmetry. now apply display_name_devices.
  - rewrite Hrow', Hrowd. exact Hext.
Qed.

(** A run of [update_netbox] on a reconciled inventory completes, leaves
    the inventory as it is, and issues no write but interface updates and
    the lifecycle update, each with the values already stored. *)
Lemma update_netbox_settled (st : state) h device_id cfg device_interfaces info :
  host_name (host st) = h ->
  host_device_id (host st) = Some device_id ->
  host_config_vars (host st) = Some cfg ->
  napalm_get_interfaces h (net st) = Some device_interfaces ->
  napalm_get_facts h (net st) = Some info ->
  reconciled h device_id cfg device_interfaces (netbox st) ->
  exists st' events,
    update_netbox st = (st', Ok tt) /\
    netbox st' = netbox st /\
    net st' = net st /\
    out st' = (out st ++ events)%list /\
    Forall (reapplied (netbox st)) events /\
    Forall (fun e => is_write e = true ->
                     is_interface_update e = true \/ e = UpdateDevice h 2 2 1)
      events.
Proof.
  intros Hh Hid Hcfg Hgi Hgf (Hb & Hu & Hui & Hdone & Haddr & Hupd & Hre).
  unfold update_netbox.
  rewrite <- Hh in Hgi, Hgf.
  step (get_updated_info_run st device_id device_interfaces info Hid Hgi Hgf).
  set (sa := {| host := _; netbox := netbox st; net := net st; out := out st |}).
  assert (Hga : bind (gets (fun s : state => host_interfaces (host s)))
                  (require Py.KeyError) sa = (sa, Ok device_interfaces))
    by reflexivity.
  step Hga.
  assert (Hgb : bind (gets (fun s : state => host_nb_interfaces (host s)))
                  (require Py.KeyError) sa
                = (sa, Ok (Netbox.get_interfaces (netbox sa) device_id)))
    by reflexivity.
  step Hgb.
  assert (Hgc : bind (gets (fun s : state => host_device_id (host s)))
                  (require Py.KeyError) sa = (sa, Ok device_id)).
  { unfold bind, gets, require, sa. cbn. rewrite Hid. reflexivity. }
  step Hgc.
  destruct (upsert_interface_loop_settled h device_id device_interfaces
              (map fst device_interfaces) sa Hh Hb Hu Hdone)
    as (ev1 & Hloop & Hre1 & Hw1).
  step Hloop. cbn [sa host netbox net out] in *.
  set (sb := {| host := _; netbox := netbox st; net := net st;
                out := out st ++ ev1 |}).
  assert (Hidb : host_device_id (host sb) = Some device_id) by exact Hid.
  step (get_updated_info_run sb device_id device_interfaces info Hidb Hgi Hgf).
  set (sc := {| host := _; netbox := netbox sb; net := net sb; out := out sb |}).
  assert (Hgd : bind (gets (fun s : state => host_nb_interfaces (host s)))
                  (require Py.KeyError) sc
                = (sc, Ok (Netbox.get_interfaces (netbox st) device_id)))
    by reflexivity.
  step Hgd.
  assert (Hge : bind (gets (fun s : state => host_config_vars (host s)))
                  (require Py.KeyError) sc = (sc, Ok cfg)).
  { unfold bind, gets, require, sc, sb. cbn. rewrite Hcfg. reflexivity. }
  step Hge.
  destruct (reconcile_ip_loop_settled (Netbox.get_interfaces (netbox st) device_id)
              (interfaces cfg) sc Haddr)
    as (ev2 & Hloop2 & Hp2).
  step Hloop2. cbn [sc sb host netbox net out].
  run. cbn [host_name set_device_info set_interfaces set_nb_interfaces].
  rewrite Hh, Hupd. cbn.
  eexists _, (ev1 ++ ev2 ++ [UpdateDevice h 2 2 1; Printed (MovedToProduction h)])%list.
  split; [reflexivity|]. cbn [netbox net out].
  split; [reflexivity|]. split; [reflexivity|].
  split; [rewrite <- !app_assoc; reflexivity|].
  split.
  - apply Forall_app. split; [assumption|]. apply Forall_app. split.
    + eapply Forall_impl; [|exact Hp2]. intros e (m & ->). exact I.
    + constructor; [exact Hre|]. constructor; [exact I|constructor].
  - apply Forall_app. split.
    + eapply Forall_impl; [|exact Hw1]. intros e H Hw. left. auto.
    + apply Forall_app. split.
      * eapply Forall_impl; [|exact Hp2]. intros e (m & ->). discriminate.
      * constructor; [intros _; now right|]. constructor; [discriminate|constructor].
Qed.

(** C3 (amended): a second run of the whole reconciliation, on the
    inventory left by the first and with the same observed facts, creates
    no interface record and no IP record and leaves the inventory equal to
    what it was; its writes are the updates of existing interface records
    with the description and MAC address they already have, and the
    lifecycle update of the device with the type, role and site it already
    has; interface keys and literal addresses stay unique. *)
Theorem reconciliation_idempotent (st : state) h device_id cfg
    device_interfaces info :
  host_name (host st) = h ->
  host_device_id (host st) = Some device_id ->
  host_config_vars (host st) = Some cfg ->
  napalm_get_interfaces h (net st) = Some device_interfaces ->
  napalm_get_facts h (net st) = Some info ->
  NoDup (map fst device_interfaces) ->
  (forall intf, In intf (interfaces cfg) -> exists a, canonical (snd intf) = Some a) ->
  bound (netbox st) h device_id ->
  unique_interfaces (netbox st) ->
  unique_ips (netbox st) ->
  exists st1 st2 events,
    update_netbox st = (st1, Ok tt) /\
    update_netbox st1 = (st2, Ok tt) /\
    netbox st2 = netbox st1 /\
    out st2 = (out st1 ++ events)%list /\
    Forall (reapplied (netbox st1)) events /\
    Forall (fun e => is_write e = true ->
                     is_interface_update e = true \/ e = UpdateDevice h 2 2 1)
      events /\
    unique_interfaces (netbox st2) /\
    unique_ips (netbox st2).
Proof.
  intros Hh Hid Hcfg Hgi Hgf Hnd Hparse Hb Hu Hui.
  destruct (update_netbox_reconciles st h device_id cfg device_interfaces info
              Hh Hid Hcfg Hgi Hgf Hnd Hparse Hb Hu Hui)
    as (st1 & Hrun1 & Hh1 & Hid1 & Hcfg1 & Hn1 & Hrec & _).
  rewrite <- Hn1 in Hgi, Hgf.
  destruct (update_netbox_settled st1 h device_id cfg device_interfaces info
              Hh1 Hid1 Hcfg1 Hgi Hgf Hrec)
    as (st2 & events & Hrun2 & Hnb & _ & Hout & Hre & Hw).
  exists st1, st2, events.
  destruct Hrec as (_ & Hu1 & Hui1 & _).
  rewrite Hnb. auto 10.
Qed.

End Reconcile.

(** ** Interface upsert *)

Section Upsert.

Context {transport : Transport} {ipaddress : Ipaddress}.

Lemma keeps_records_refl inv : keeps_records inv inv.
Proof. exists []. now rewrite app_nil_r. Qed.

Lemma keeps_records_trans inv1 inv2 inv3 :
  keeps_records inv1 inv2 -> keeps_records inv2 inv3 -> keeps_records inv1 inv3.
Proof.
  intros (e1 & H1) (e2 & H2). exists (e1 ++ e2)%list.
  rewrite H2, H1, app_assoc. reflexivity.
Qed.

Lemma preserving_bind {A B} (c : task A) (k : A -> task B) :
  preserving c -> (forall a, preserving (k a)) -> preserving (bind c k).
Proof.
  intros Hc Hk s. unfold bind. specialize (Hc s).
  destruct (c s) as [s' [a|e]]; cbn in *.
  - eapply keeps_records_trans; [exact Hc|apply Hk].
  - exact Hc.
Qed.

Lemma preserving_for_each {A} (l : list A) (body : A -> task unit) :
  (forall x, preserving (body x)) -> preserving (for_each l body).
Proof.
  intros Hb. induction l as [|x l IH]; cbn.
  - intros s. apply keeps_records_refl.
  - apply preserving_bind; auto.
Qed.

Lemma preserving_same {A} (c : task A) :
  (forall s, Netbox.interface_rows (netbox (fst (c s)))
             = Netbox.interface_rows (netbox s)) ->
  preserving c.
Proof. intros H s. exists []. rewrite H, app_nil_r. reflexivity. Qed.

Lemma preserving_require {A} e (o : option A) : preserving (require e o).
Proof. apply preserving_same. intros s. destruct o; reflexivity. Qed.

Lemma preserving_get {A} (f : state -> option A) e :
  preserving (bind (gets f) (require e)).
Proof.
  apply preserving_bind; [apply preserving_same; reflexivity|].
  intros a. apply preserving_require.
Qed.

Lemma preserving_get_updated_info : preserving get_updated_info.
Proof.
  unfold get_updated_info.
  repeat first
    [ apply preserving_bind; [|intros ?]
    | apply preserving_get
    | apply preserving_same; reflexivity ].
Qed.

Lemma preserving_upsert_interface device_interfaces nb_interfaces device_id x :
  preserving (upsert_interface device_interfaces nb_interfaces device_id x).
Proof.
  unfold upsert_interface.
  apply preserving_bind; [apply preserving_same; reflexivity|intros h].
  apply preserving_bind; [apply preserving_require|intros facts]. cbv zeta.
  destruct (negb _).
  - apply preserving_bind; [apply preserving_same; reflexivity|intros _].
    intros s. unfold netbox_create_interface. run.
    unfold Netbox.create_interface, keeps_records. cbn [Netbox.interface_rows].
    eexists. rewrite map_app. reflexivity.
  - apply preserving_bind; [apply preserving_same; reflexivity|intros _].
    intros s. unfold netbox_update_interface, Netbox.update_interface. run.
    destruct (Netbox.patch_first _ _ _) as [rows|] eqn:Hpatch; cbn.
    + exists []. rewrite app_nil_r.
      apply (patch_first_map _ _ row_identity _ _ Hpatch). reflexivity.
    + apply keeps_records_refl.
Qed.

Lemma preserving_reconcile_ip nb_interfaces intf :
  preserving (reconcile_ip nb_interfaces intf).
Proof.
  unfold reconcile_ip.
  apply preserving_bind; [apply preserving_same; reflexivity|intros h].
  apply preserving_bind.
  { apply preserving_same. intros s. unfold unpack2.
    destruct (split " " _) as [|? [|? [|? ?]]]; reflexivity. }
  intros [ip mask].
  apply preserving_bind; [apply preserving_require|intros parsed]. cbv zeta.
  apply preserving_bind; [apply preserving_same; reflexivity|intros ip_exists].
  apply preserving_for_each. intros nb.
  destruct (String.eqb _ _); [|apply preserving_same; reflexivity].
  destruct ip_exists; apply preserving_same; reflexivity.
Qed.

Lemma preserving_update_netbox : preserving update_netbox.
Proof.
  unfold update_netbox.
  apply preserving_bind; [apply preserving_get_updated_info|intros _].
  apply preserving_bind; [apply preserving_get|intros device_interfaces].
  apply preserving_bind; [apply preserving_get|intros nb_interfaces].
  apply preserving_bind; [apply preserving_get|intros device_id].
  apply preserving_bind.
  { apply preserving_for_each. intros x. apply preserving_upsert_interface. }
  intros _.
  apply preserving_bind; [apply preserving_get_updated_info|intros _].
  apply preserving_bind; [apply preserving_get|intros nb_interfaces'].
  apply preserving_bind; [apply preserving_get|intros cfg].
  apply preserving_bind.
  { apply preserving_for_each. intros x. apply preserving_reconcile_ip. }
  intros _.
  apply preserving_bind; [apply preserving_same; reflexivity|intros h].
  apply preserving_bind; [|intros _; apply preserving_same; reflexivity].
  apply preserving_same. intros s.
  unfold netbox_update_device, Netbox.update_device. run.
  destruct (Netbox.patch_first _ _ _); reflexivity.
Qed.

End Upsert.

(** ** The pipeline *)

Section Sequencer.

Context {runner : Runner}.

Lemma run_stage_ok nr t (s : run_state) :
  run_stage nr t s = (fst (run_stage nr t s), Ok tt).
Proof. reflexivity. Qed.

Lemma run_stages_ok nr ts (s : run_state) :
  run_stages nr ts s = (fst (run_stages nr ts s), Ok tt).
Proof.
  revert s. induction ts as [|t ts IH]; intros s; [reflexivity|].
  unfold run_stages in *. cbn [for_each].
  rewrite (bind_ok _ _ _ _ _ (run_stage_ok nr t s)). apply IH.
Qed.

Lemma run_stages_cons nr t ts (s : run_state) :
  fst (run_stages nr (t :: ts) s) = fst (run_stages nr ts (fst (run_stage nr t s))).
Proof.
  unfold run_stages. cbn [for_each].
  rewrite (bind_ok _ _ _ _ _ (run_stage_ok nr t s)). reflexivity.
Qed.

Lemma run_stages_stdin nr ts (s : run_state) :
  stdin (fst (run_stages nr ts s)) = stdin s.
Proof.
  revert s. induction ts as [|t ts IH]; intros s; [reflexivity|].
  rewrite run_stages_cons, IH. reflexivity.
Qed.

(** In [main], a stage hands over to what follows it. *)
Lemma stage_then {B} nr t (k : script B) (s : run_state) :
  (nr_run nr t ;;; print_failed_hosts t ;;; k) s = k (fst (run_stage nr t s)).
Proof. reflexivity. Qed.

Lemma proceed_run (s : run_state) answer rest :
  stdin s = answer :: rest ->
  (confirms answer -> proceed s = (answered s, Ok tt)) /\
  (~ confirms answer -> proceed s = (exited (answered s), Raise Py.SystemExit)).
Proof.
  intros Hin. unfold proceed, input, confirms, answered, exited.
  split; intros Hc.
  - unfold bind. rewrite Hin. cbn. rewrite Hc. reflexivity.
  - unfold bind. rewrite Hin. cbn.
    apply String.eqb_neq in Hc. rewrite Hc. reflexivity.
Qed.

Lemma kickoff_run inventory (s : run_state) :
  (provisioned inventory = [] ->
   kickoff inventory s = (exited s, Raise Py.SystemExit)) /\
  (provisioned inventory <> [] ->
   kickoff inventory s = (s, Ok (provisioned inventory))).
Proof.
  unfold kickoff. fold (provisioned inventory).
  destruct (provisioned inventory) as [|h nr]; split; intros H;
    try contradiction; try discriminate; reflexivity.
Qed.

Lemma mem_iff h l : mem h l = true <-> In h l.
Proof.
  unfold mem. rewrite existsb_exists. split.
  - intros (x & Hin & He). apply String.eqb_eq in He. now subst.
  - intros Hin. exists h. split; [assumption|apply String.eqb_refl].
Qed.

Lemma update_iff h new : forall set, In h (update set new) <-> In h set \/ In h new.
Proof.
  induction new as [|x new IH]; intros set; cbn.
  - tauto.
  - rewrite IH. destruct (mem x set) eqn:Hm.
    + apply mem_iff in Hm. split; [tauto|].
      intros [H|[<-|H]]; auto.
    + rewrite in_app_iff. cbn. tauto.
Qed.

Lemma run_on_hosts_hosts t hs w : map fst (snd (run_on_hosts t hs w)) = hs.
Proof.
  revert w. induction hs as [|h hs IH]; intros w; [reflexivity|].
  cbn. destruct (run_task t h w) as [w' failed].
  specialize (IH w'). destruct (run_on_hosts t hs w') as [w'' results].
  cbn in *. now rewrite IH.
Qed.

Lemma stage_index_injective t t' : stage_index t = stage_index t' -> t = t'.
Proof. destruct t, t'; cbn; intros H; try reflexivity; discriminate. Qed.





End Sequencer.

(** ** The properties on the sample data *)

(** Both uplinks of the overlapping sample probe the neighbor, and both
    probes fail. *)
Example overlapping_networks :
  @validate_l3_pings Sample.transport Sample.ipaddress Sample.overlapping =
  (@mk_state Sample.transport (host Sample.overlapping) Sample.inventory tt
     [Ping "csr1" "10.0.2.2" "10.0.0.1";
      Printed (PingFailed "csr1" "10.0.0.1" "10.0.2.2");
      Ping "csr1" "10.0.2.2" "10.0.1.1";
      Printed (PingFailed "csr1" "10.0.1.1" "10.0.2.2")],
   Ok 2).
Proof. vm_compute. reflexivity. Qed.

(** Two runs on the sample inventory. *)
Lemma reconciliation_idempotent_witness :
  exists st1 st2,
    @update_netbox Sample.transport Sample.ipaddress Sample.start = (st1, Ok tt) /\
    @update_netbox Sample.transport Sample.ipaddress st1 = (st2, Ok tt) /\
    netbox st2 = netbox st1.
Proof.
  destruct (@reconciliation_idempotent Sample.transport Sample.ipaddress
              Sample.start "csr1" 7 Sample.config Sample.device_interfaces
              "CSR1000V" eq_refl eq_refl eq_refl eq_refl eq_refl)
    as (st1 & st2 & events & Hrun1 & Hrun2 & Hsame & _).
  - cbn. repeat constructor; cbn; intuition discriminate.
  - intros intf Hin. cbn in Hin.
    destruct Hin as [<-|[<-|[<-|[]]]]; eexists; reflexivity.
  - split.
    + eexists. split; reflexivity.
    + intros r [<-|[]] _. reflexivity.
  - unfold unique_interfaces. cbn. repeat constructor. intros [].
  - unfold unique_ips. cbn. constructor.
  - exists st1, st2. split; [exact Hrun1|]. split; [exact Hrun2|exact Hsame].
Defined.

(** The second run on the sample inventory repeats the lifecycle update:
    among its writes is one that is no interface update. *)
Lemma second_run_repeats_lifecycle_update :
  snd (@update_netbox Sample.transport Sample.ipaddress Sample.start) = Ok tt /\
  snd (@update_netbox Sample.transport Sample.ipaddress Sample.first_run) = Ok tt /\
  let events :=
    skipn (List.length (out Sample.first_run)) (out Sample.second_run) in
  In (UpdateDevice "csr1" 2 2 1) events /\
  ~ Forall (fun e => is_write e = true -> is_interface_update e = true) events.
Proof.
  split; [vm_compute; reflexivity|]. split; [vm_compute; reflexivity|].
  assert (Hin : In (UpdateDevice "csr1" 2 2 1)
                  (skipn (List.length (out Sample.first_run))
                     (out Sample.second_run))).
  { vm_compute. do 9 right. left. reflexivity. }
  split; [exact Hin|]. intros H.
  rewrite Forall_forall in H. specialize (H _ Hin eq_refl). discriminate H.
Qed.


Lemma normalize_mac_strings_witness :
  normalize_mac (Py.Str "Unspecified") = Py.Str "EE:EE:EE:EE:EE:EE" /\
  normalize_mac (Py.Str "00:0C:29:4F:A1:01") = Py.Str "00:0C:29:4F:A1:01".
Proof.
  split.
  - apply (proj1 (proj2 (normalize_mac_strings "Unspecified"))).
    right. left. reflexivity.
  - apply (proj2 (proj2 (normalize_mac_strings "00:0C:29:4F:A1:01")));
      discriminate.
Defined.

(** The peers of the sample router: one up, one down. *)
Lemma adjacency_classification_witness :
  exists classes,
    @validate_bgp Sample.transport Sample.start =
    ({| host := host Sample.start; netbox := netbox Sample.start;
        net := net Sample.start;
        out := out Sample.start ++ List.concat classes |}, Ok tt) /\
    Forall2 (classified "csr1") Sample.peers classes.
Proof.
  exact (@adjacency_classification Sample.transport Sample.start
           Sample.peers eq_refl).
Defined.


(** * Further properties *)

(** ** Text *)

Lemma split_nonempty sep s : split sep s <> [].
Proof.
  destruct s as [|c s]; cbn; [discriminate|].
  destruct (Ascii.eqb c sep); [discriminate|].
  destruct (split sep s); discriminate.
Qed.

Lemma split_length sep s :
  List.length (split sep s) = S (count_char sep s).
Proof.
  induction s as [|c s IH]; [reflexivity|].
  cbn. destruct (Ascii.eqb c sep); cbn.
  - now rewrite IH.
  - destruct (split sep s); cbn in *; [discriminate|assumption].
Qed.

Lemma concat_cons_char sep c piece pieces :
  String.concat sep (String c piece :: pieces)
  = String c (String.concat sep (piece :: pieces)).
Proof. destruct pieces; reflexivity. Qed.

(** X1: [split] cuts at every separator and nowhere else: there is one
    piece more than there are separators, no piece holds a separator, and
    joining the pieces with the separator gives the string back. *)
Theorem split_pieces sep s :
  List.length (split sep s) = S (count_char sep s) /\
  Forall (fun piece => count_char sep piece = 0%nat) (split sep s) /\
  String.concat (String sep EmptyString) (split sep s) = s.
Proof.
  split; [apply split_length|]. split.
  - induction s as [|c s IH]; cbn; [repeat constructor|].
    destruct (Ascii.eqb c sep) eqn:E.
    + constructor; [reflexivity|assumption].
    + destruct (split sep s) as [|piece pieces]; [repeat constructor; cbn; now rewrite E|].
      inversion IH; subst. constructor; [|assumption]. cbn. now rewrite E.
  - induction s as [|c s IH]; [reflexivity|].
    cbn [split]. destruct (Ascii.eqb_spec c sep) as [->|Hne].
    + pose proof (split_nonempty sep s) as Hn.
      destruct (split sep s) as [|piece pieces]; [contradiction|].
      change (String.concat (String sep EmptyString)
                (EmptyString :: piece :: pieces))
        with (EmptyString ++ String sep EmptyString ++
              String.concat (String sep EmptyString) (piece :: pieces)).
      rewrite IH. reflexivity.
    + pose proof (split_nonempty sep s) as Hn.
      destruct (split sep s) as [|piece pieces]; [contradiction|].
      rewrite concat_cons_char, IH. reflexivity.
Qed.

Lemma length_append_string a b :
  String.length (a ++ b) = (String.length a + String.length b)%nat.
Proof. induction a; cbn; congruence. Qed.

Lemma char_length_spaces n : char_length (spaces n) = n.
Proof. induction n; cbn; congruence. Qed.

Lemma char_length_append a b :
  char_length (a ++ b) = (char_length a + char_length b)%nat.
Proof. induction a as [|c a IH]; cbn; [reflexivity|]. rewrite IH. lia. Qed.

(** X2: [c_print] never cuts its text: the text is centered in a line of
    80 characters between margins that differ by at most one, the right
    one being the larger, and a text of 80 characters or more is left as
    it is; characters are counted, not bytes. *)
Theorem center_keeps_text s :
  (exists left right,
     center 80 s = spaces left ++ s ++ spaces right /\
     (left <= right <= left + 1)%nat) /\
  char_length (center 80 s) = Nat.max 80 (char_length s) /\
  ((80 <= char_length s)%nat -> center 80 s = s) /\
  c_print_text s = newline ++ center 80 s ++ newline.
Proof.
  assert (Hland : forall m, Nat.land (Nat.land m 80) 1 = 0%nat).
  { intros m. rewrite <- Nat.land_assoc.
    replace (Nat.land 80 1) with 0%nat by (vm_compute; reflexivity).
    apply Nat.land_0_r. }
  unfold center. rewrite Hland.
  destruct (Nat.leb_spec 80 (char_length s)) as [Hle|Hlt].
  - split; [|split; [|split]].
    + exists 0%nat, 0%nat. split; [|lia].
      change (spaces 0 ++ s ++ spaces 0) with (s ++ EmptyString).
      clear. induction s as [|c s IH]; cbn; [reflexivity|]. now rewrite <- IH.
    + lia.
    + reflexivity.
    + unfold c_print_text, center.
      destruct (Nat.leb_spec 80 (char_length s)); [reflexivity|lia].
  - cbv zeta. rewrite Nat.add_0_r. split; [|split; [|split]].
    + eexists _, _. split; [reflexivity|].
      pose proof (Nat.div_mod_eq (80 - char_length s) 2).
      pose proof (Nat.mod_upper_bound (80 - char_length s) 2). lia.
    + rewrite !char_length_append, !char_length_spaces.
      pose proof (Nat.div_mod_eq (80 - char_length s) 2).
      pose proof (Nat.mod_upper_bound (80 - char_length s) 2). lia.
    + lia.
    + unfold c_print_text, center. rewrite Hland.
      destruct (Nat.leb_spec 80 (char_length s)); [lia|].
      cbv zeta. rewrite Nat.add_0_r. reflexivity.
Qed.

Lemma confirms_iff (answer : string) :
  confirms answer <-> answer = "y" \/ answer = "Y".
Proof.
  unfold confirms. split.
  - destruct answer as [|c [|c' rest]]; cbn; intros H; try discriminate H.
    injection H as H.
    destruct c as [[|] [|] [|] [|] [|] [|] [|] [|]]; cbv in H;
      try discriminate H; auto.
  - intros [->| ->]; reflexivity.
Qed.

(** X3: [proceed] lets the run go on exactly when the line it reads is
    "y" or "Y"; on every other line it announces the exit and ends the
    script with [exit()]. *)
Theorem confirms_y {runner : Runner} (s : run_state) answer rest :
  stdin s = answer :: rest ->
  (proceed s = (answered s, Ok tt) <-> answer = "y" \/ answer = "Y") /\
  (proceed s = (exited (answered s), Raise Py.SystemExit) <->
   answer <> "y" /\ answer <> "Y").
Proof.
  intros Hin. destruct (proceed_run s answer rest Hin) as (Hy & Hn).
  pose proof (confirms_iff answer) as Hc.
  assert (Hdec : confirms answer \/ ~ confirms answer).
  { unfold confirms. destruct (String.eqb_spec (lower answer) "y"); auto. }
  split; split.
  - intros Hrun. apply Hc. destruct Hdec as [H|H]; [exact H|].
    rewrite (Hn H) in Hrun. discriminate Hrun.
  - intros H. apply Hy, Hc, H.
  - intros Hrun. destruct Hdec as [H|H].
    + rewrite (Hy H) in Hrun. discriminate Hrun.
    + split; intros E; apply H, Hc; auto.
  - intros (H1 & H2). apply Hn. intros H. apply Hc in H as [H|H]; auto.
Qed.

(** ** Relations that a computation keeps *)

Section Keeps.

Context {S : Type} (R : S -> S -> Prop).
Hypothesis R_refl : forall s, R s s.
Hypothesis R_trans : forall a b c, R a b -> R b c -> R a c.

Lemma keeps_bind {A B} (c : M S A) (k : A -> M S B) :
  keeps R c -> (forall a, keeps R (k a)) -> keeps R (bind c k).
Proof.
  intros Hc Hk s. unfold bind. specialize (Hc s).
  destruct (c s) as [s' [a|e]]; cbn in *.
  - eapply R_trans; [exact Hc|apply Hk].
  - exact Hc.
Qed.

Lemma keeps_unchanged {A} (c : M S A) :
  (forall s, fst (c s) = s) -> keeps R c.
Proof. intros H s. rewrite H. apply R_refl. Qed.

Lemma keeps_require {A} e (o : option A) : keeps R (require e o).
Proof. apply keeps_unchanged. intros s. destruct o; reflexivity. Qed.

Lemma keeps_get {A} (f : S -> option A) e : keeps R (bind (gets f) (require e)).
Proof.
  apply keeps_bind; [apply keeps_unchanged; reflexivity|].
  intros a. apply keeps_require.
Qed.

Lemma keeps_for_each {A} (l : list A) (body : A -> M S unit) :
  (forall x, keeps R (body x)) -> keeps R (for_each l body).
Proof.
  intros Hb. induction l as [|x l IH]; cbn.
  - apply keeps_unchanged. reflexivity.
  - apply keeps_bind; auto.
Qed.

Lemma keeps_for_fold {A B} (l : list A) (body : B -> A -> M S B) :
  (forall acc x, keeps R (body acc x)) ->
  forall acc, keeps R (for_fold l acc body).
Proof.
  intros Hb. induction l as [|x l IH]; intros acc; cbn.
  - apply keeps_unchanged. reflexivity.
  - apply keeps_bind; auto.
Qed.

End Keeps.

(** ** Connectivity validation, whatever its outcome *)

Section ValidationOutcomes.

Context {transport : Transport} {ipaddress : Ipaddress}.

Lemma probed_refl failed (st : state) r :
  (forall failed', r = Ok failed' -> failed' = failed) ->
  probed failed st st r.
Proof.
  intros Hr. split; [reflexivity|]. split; [reflexivity|].
  exists []. rewrite app_nil_r. split; [reflexivity|]. split; [constructor|].
  intros f' Hf. cbn. rewrite (Hr f' Hf). lia.
Qed.

Lemma probed_trans f1 f2 (st1 st2 st3 : state) r :
  probed f1 st1 st2 (Ok f2) -> probed f2 st2 st3 r -> probed f1 st1 st3 r.
Proof.
  intros (Hh1 & Hn1 & n1 & Ho1 & Hf1 & Hc1) (Hh2 & Hn2 & n2 & Ho2 & Hf2 & Hc2).
  split; [congruence|]. split; [congruence|].
  exists (n1 ++ n2)%list. split; [rewrite Ho2, Ho1, app_assoc; reflexivity|].
  split; [apply Forall_app; auto|].
  intros f' Hr. rewrite filter_app, length_app.
  rewrite (Hc2 f' Hr), (Hc1 f2 eq_refl). lia.
Qed.

Lemma validate_l3_pair_probed destination failed_pings intf (st : state) :
  probed failed_pings st
    (fst (validate_l3_pair destination failed_pings intf st))
    (snd (validate_l3_pair destination failed_pings intf st)).
Proof.
  unfold validate_l3_pair, run_napalm_ping.
  destruct (split " " (intent_ipaddr intf)) as [|source [|mask [|? ?]]]; run;
    try (apply probed_refl; discriminate).
  destruct (ip_interface (source ++ "/" ++ mask)) as [src|]; run;
    [|apply probed_refl; discriminate].
  destruct (ip_interface (destination ++ "/" ++ mask)) as [dst|]; run;
    [|apply probed_refl; discriminate].
  destruct (network_eq (network src) (network dst)); run;
    [|apply probed_refl; intros f' H; now injection H].
  destruct (napalm_ping (host_name (host st)) destination source (net st))
    as [net' [ping|]]; run.
  - destruct (success ping) as [ok|]; [destruct (packet_loss ok <? 2)|]; run.
    + split; [reflexivity|]. split; [reflexivity|].
      exists [Ping (host_name (host st)) destination source].
      split; [reflexivity|]. split; [repeat constructor|].
      intros f' H. injection H as <-. cbn. lia.
    + split; [reflexivity|]. split; [reflexivity|].
      exists [Ping (host_name (host st)) destination source;
              Printed (PingFailed (host_name (host st)) source destination)].
      split; [now rewrite <- app_assoc|].
      split; [constructor; [now left|constructor; [now right|constructor]]|].
      intros f' H. injection H as <-. cbn. lia.
    + split; [reflexivity|]. split; [reflexivity|].
      exists [Ping (host_name (host st)) destination source;
              Printed (PingFailed (host_name (host st)) source destination)].
      split; [now rewrite <- app_assoc|].
      split; [constructor; [now left|constructor; [now right|constructor]]|].
      intros f' H. injection H as <-. cbn. lia.
  - split; [reflexivity|]. split; [reflexivity|].
    exists [Ping (host_name (host st)) destination source].
    split; [reflexivity|]. split; [repeat constructor|]. discriminate.
Qed.

Lemma for_fold_probed {A} (body : Z -> A -> task Z) (l : list A) :
  (forall f x (st : state), probed f st (fst (body f x st)) (snd (body f x st))) ->
  forall f (st : state),
    probed f st (fst (for_fold l f body st)) (snd (for_fold l f body st)).
Proof.
  intros Hb. induction l as [|x l IH]; intros f st.
  - cbn. apply probed_refl. intros f' H. now injection H.
  - cbn [for_fold]. unfold bind. specialize (Hb f x st).
    destruct (body f x st) as [st1 [f1|e]]; cbn in *.
    + eapply probed_trans; [exact Hb|apply IH].
    + destruct Hb as (Hh & Hn & new & Ho & Hf & _).
      split; [assumption|]. split; [assumption|].
      exists new. split; [assumption|]. split; [assumption|]. discriminate.
Qed.

Lemma validate_l3_pings_probed (st : state) :
  probed 0 st (fst (validate_l3_pings st)) (snd (validate_l3_pings st)).
Proof.
  unfold validate_l3_pings. run.
  destruct (host_config_vars (host st)) as [cfg|]; cbn.
  - apply for_fold_probed. intros f n st'.
    apply for_fold_probed. intros f' intf st''.
    apply validate_l3_pair_probed.
  - apply probed_refl. discriminate.
Qed.

Lemma filter_failure_report_nil (l : list event) :
  List.length (filter is_failure_report l) = 0%nat <->
  filter is_failure_report l = [].
Proof. destruct (filter is_failure_report l); cbn; split; congruence. Qed.

(** The whole task: what it adds to the output and when the closing
    message is part of it. *)
Lemma validate_l3_outcome (st : state) :
  host (fst (validate_l3 st)) = host st /\
  netbox (fst (validate_l3 st)) = netbox st /\
  exists new,
    out (fst (validate_l3 st)) = (out st ++ new)%list /\
    Forall (fun e => is_l3_event e = true) new /\
    (In (Printed (AllPingsSucceeded (host_name (host st)))) new <->
     snd (validate_l3 st) = Ok tt /\ filter is_failure_report new = []).
Proof.
  assert (E : validate_l3 st =
              match validate_l3_pings st with
              | (st1, Ok f) =>
                  if f =? 0
                  then ({| host := host st1; netbox := netbox st1; net := net st1;
                           out := out st1 ++
                                  [Printed (AllPingsSucceeded (host_name (host st1)))] |},
                        Ok tt)
                  else (st1, Ok tt)
              | (st1, Raise e) => (st1, Raise e)
              end).
  { unfold validate_l3, bind.
    destruct (validate_l3_pings st) as [st1 [f|e]]; [|reflexivity].
    destruct (f =? 0); reflexivity. }
  rewrite E. clear E.
  pose proof (validate_l3_pings_probed st) as (Hh & Hn & new & Ho & Hf & Hc).
  assert (Hl3 : Forall (fun e => is_l3_event e = true) new).
  { eapply Forall_impl; [|exact Hf]. intros e [H|H].
    - destruct e; try discriminate H. reflexivity.
    - destruct e as [[]| | | | |]; try discriminate H. reflexivity. }
  assert (Hnot : ~ In (Printed (AllPingsSucceeded (host_name (host st)))) new).
  { intros Hin. rewrite Forall_forall in Hf. destruct (Hf _ Hin); discriminate. }
  destruct (validate_l3_pings st) as [st1 [f|e]]; cbn [fst snd] in *.
  - specialize (Hc f eq_refl).
    destruct (Z.eqb_spec f 0) as [Hz|Hz].
    + cbn [fst snd host netbox net out]. rewrite Hh.
      split; [reflexivity|]. split; [assumption|].
      exists (new ++ [Printed (AllPingsSucceeded (host_name (host st)))])%list.
      split; [rewrite Ho, app_assoc; reflexivity|].
      split; [apply Forall_app; split; [assumption|repeat constructor]|].
      rewrite filter_app. cbn. rewrite app_nil_r. split.
      * intros _. split; [reflexivity|].
        apply filter_failure_report_nil. lia.
      * intros _. apply in_or_app. right. now left.
    + cbn [fst snd]. split; [assumption|]. split; [assumption|].
      exists new. split; [assumption|]. split; [assumption|]. split.
      * intros Hin. contradiction.
      * intros (_ & Hnil). rewrite Hnil in Hc. cbn in Hc. lia.
  - split; [assumption|]. split; [assumption|].
    exists new. split; [assumption|]. split; [assumption|]. split.
    + intros Hin. contradiction.
    + intros (H & _). discriminate H.
Qed.

(** X4: whatever the outcome, [validate_l3] leaves the host's data and
    the inventory as they are, and adds to the output nothing but probes,
    failure reports and the closing message. *)
Theorem validate_l3_only_probes (st : state) :
  host (fst (validate_l3 st)) = host st /\
  netbox (fst (validate_l3 st)) = netbox st /\
  exists new,
    out (fst (validate_l3 st)) = (out st ++ new)%list /\
    Forall (fun e => is_l3_event e = true) new.
Proof.
  destruct (validate_l3_outcome st) as (Hh & Hn & new & Ho & Hf & _).
  split; [assumption|]. split; [assumption|]. exists new. auto.
Qed.

(** X5: the closing message "All ping tests have succeeded" is printed
    exactly when the task returns without having reported a failed probe;
    a task that raises, on a missing entry, a malformed address or a
    failed subtask, never prints it. *)
Theorem all_succeeded_iff_clean (st : state) :
  exists new,
    out (fst (validate_l3 st)) = (out st ++ new)%list /\
    (In (Printed (AllPingsSucceeded (host_name (host st)))) new <->
     snd (validate_l3 st) = Ok tt /\ filter is_failure_report new = []).
Proof.
  destruct (validate_l3_outcome st) as (_ & _ & new & Ho & _ & Hiff).
  exists new. auto.
Qed.

Lemma for_fold_skip {A} (body : Z -> A -> task Z) (l : list A) f (st : state) :
  (forall x, In x l -> body f x st = (st, Ok f)) ->
  for_fold l f body st = (st, Ok f).
Proof.
  induction l as [|x l IH]; intros Hb; [reflexivity|].
  cbn [for_fold]. rewrite (bind_ok _ _ _ _ _ (Hb x (or_introl eq_refl))).
  apply IH. intros y Hy. apply Hb. now right.
Qed.

(** X6: when no interface of the intent shares a network with any
    neighbor, and in particular when there is no neighbor or no
    interface, no probe is sent and the task reports that all ping tests
    have succeeded. *)
Theorem no_adjacency_reports_success (st : state) cfg :
  host_config_vars (host st) = Some cfg ->
  (forall n intf,
     In n (bgp_neighbors cfg) -> In intf (map snd (interfaces cfg)) ->
     well_formed_pair (neighbor_ipaddr n) intf /\
     probes_for (host_name (host st)) (neighbor_ipaddr n) intf = []) ->
  validate_l3 st =
  ({| host := host st; netbox := netbox st; net := net st;
      out := out st ++ [Printed (AllPingsSucceeded (host_name (host st)))] |},
   Ok tt).
Proof.
  intros Hcfg Hall.
  assert (Hloop : validate_l3_pings st = (st, Ok 0)).
  { unfold validate_l3_pings. run. rewrite Hcfg.
    apply for_fold_skip. intros n Hn. cbv beta zeta.
    apply for_fold_skip. intros intf Hi.
    destruct (Hall n intf Hn Hi) as (Hwf & Hnone).
    pose proof Hwf as (source & mask & src & dst & Hs & Hsrc & Hdst).
    apply (validate_l3_pair_skip _ _ _ _ source mask Hs Hwf).
    unfold probes_for in Hnone. rewrite Hs in Hnone.
    destruct (same_network source mask (neighbor_ipaddr n));
      [discriminate|reflexivity]. }
  unfold validate_l3. rewrite (bind_ok _ _ _ _ _ Hloop). reflexivity.
Qed.

(** X7: an interface entry that does not hold exactly one space cannot be
    unpacked into address and mask: the pass of the connectivity loop and
    the pass of the address loop on it raise [ValueError] and do nothing
    before. *)
Theorem one_space_or_value_error nb_interfaces destination failed_pings
    name intf (st : state) :
  count_char " " (intent_ipaddr intf) <> 1%nat ->
  validate_l3_pair destination failed_pings intf st = (st, Raise Py.ValueError) /\
  reconcile_ip nb_interfaces (name, intf) st = (st, Raise Py.ValueError).
Proof.
  intros Hcount.
  pose proof (split_length " " (intent_ipaddr intf)) as Hlen.
  unfold validate_l3_pair, reconcile_ip. run. cbn [snd].
  destruct (split " " (intent_ipaddr intf)) as [|a [|b [|c rest]]]; cbn in *;
    try (split; reflexivity).
  exfalso. apply Hcount. lia.
Qed.

End ValidationOutcomes.

(** ** Adjacency validation and the refresh *)

Section Refresh.

Context {transport : Transport} {ipaddress : Ipaddress}.

Lemma validate_bgp_peer_boolean peer b (st : state) :
  is_up (snd peer) = Py.Bool b ->
  validate_bgp_peer peer st =
  ({| host := host st; netbox := netbox st; net := net st;
      out := out st ++ [peer_line (host_name (host st)) peer] |}, Ok tt).
Proof.
  intros Hb. unfold validate_bgp_peer, peer_line. run. rewrite Hb.
  destruct b; reflexivity.
Qed.

(** X8: when every peer's state is a Boolean, [validate_bgp] prints one
    line per peer, in the order of the facts, UP or DOWN by that state;
    when the getter fails, the task raises and prints nothing. *)
Theorem validate_bgp_report (st : state) :
  (forall peers,
     napalm_get_bgp_neighbors (host_name (host st)) (net st) = Some peers ->
     (forall peer, In peer peers -> exists b, is_up (snd peer) = Py.Bool b) ->
     validate_bgp st =
     ({| host := host st; netbox := netbox st; net := net st;
         out := out st ++ map (peer_line (host_name (host st))) peers |},
      Ok tt)) /\
  (napalm_get_bgp_neighbors (host_name (host st)) (net st) = None ->
   validate_bgp st = (st, Raise Py.NornirSubTaskError)).
Proof.
  split.
  - intros peers Hget Hbool. unfold validate_bgp. run. rewrite Hget.
    cbv beta iota. clear Hget. revert st Hbool.
    induction peers as [|peer peers IH]; intros st Hbool.
    + cbn. rewrite app_nil_r. reflexivity.
    + destruct (Hbool peer (or_introl eq_refl)) as (b & Hb).
      cbn [for_each map].
      rewrite (bind_ok _ _ _ _ _ (validate_bgp_peer_boolean peer b st Hb)).
      rewrite IH by (intros p Hp; apply Hbool; now right).
      cbn [host netbox net out]. rewrite <- app_assoc. reflexivity.
  - intros Hget. unfold validate_bgp. run. rewrite Hget. reflexivity.
Qed.

(** X9: [get_updated_info] stops at the first thing it cannot get, and
    keeps what it stored before: without a device id nothing is stored;
    when the interfaces getter fails the inventory's interface records
    are already stored; when the facts getter fails the device's
    interfaces are stored as well.  It never writes to the inventory, the
    network or the output. *)
Theorem get_updated_info_failures (st : state) :
  (host_device_id (host st) = None ->
   get_updated_info st = (st, Raise Py.KeyError)) /\
  (forall device_id,
     host_device_id (host st) = Some device_id ->
     napalm_get_interfaces (host_name (host st)) (net st) = None ->
     get_updated_info st =
     ({| host := set_nb_interfaces
                   (Netbox.get_interfaces (netbox st) device_id) (host st);
         netbox := netbox st; net := net st; out := out st |},
      Raise Py.NornirSubTaskError)) /\
  (forall device_id device_interfaces,
     host_device_id (host st) = Some device_id ->
     napalm_get_interfaces (host_name (host st)) (net st)
       = Some device_interfaces ->
     napalm_get_facts (host_name (host st)) (net st) = None ->
     get_updated_info st =
     ({| host := set_interfaces device_interfaces
                   (set_nb_interfaces
                      (Netbox.get_interfaces (netbox st) device_id) (host st));
         netbox := netbox st; net := net st; out := out st |},
      Raise Py.NornirSubTaskError)) /\
  netbox (fst (get_updated_info st)) = netbox st /\
  net (fst (get_updated_info st)) = net st /\
  out (fst (get_updated_info st)) = out st.
Proof.
  split; [|split; [|split]].
  - intros Hid. unfold get_updated_info. run. rewrite Hid. reflexivity.
  - intros device_id Hid Hi. unfold get_updated_info. run. rewrite Hid. cbn.
    rewrite Hi. reflexivity.
  - intros device_id device_interfaces Hid Hi Hf.
    unfold get_updated_info. run. rewrite Hid. cbn. rewrite Hi. cbn.
    rewrite Hf. reflexivity.
  - unfold get_updated_info. run.
    destruct (host_device_id (host st)); cbn; [|auto].
    destruct (napalm_get_interfaces (host_name (host st)) (net st)); cbn; [|auto].
    destruct (napalm_get_facts (host_name (host st)) (net st)); cbn; auto.
Qed.

(** X10: refreshing twice in a row is refreshing once: the second refresh
    of [get_updated_info] reads the same inventory and the same device
    and stores the same entries, and when the first one raises the second
    is not reached. *)
Theorem get_updated_info_twice (st : state) :
  bind get_updated_info (fun _ => get_updated_info) st = get_updated_info st.
Proof.
  unfold bind.
  destruct (host_device_id (host st)) as [device_id|] eqn:Hid.
  - destruct (napalm_get_interfaces (host_name (host st)) (net st))
      as [device_interfaces|] eqn:Hi.
    + destruct (napalm_get_facts (host_name (host st)) (net st)) as [info|] eqn:Hf.
      * rewrite (get_updated_info_run st device_id device_interfaces info Hid Hi Hf).
        rewrite (get_updated_info_run _ device_id device_interfaces info);
          [reflexivity|exact Hid|exact Hi|exact Hf].
      * assert (E : snd (get_updated_info st) = Raise Py.NornirSubTaskError).
        { unfold get_updated_info. run. rewrite Hid. cbn. rewrite Hi. cbn.
          rewrite Hf. reflexivity. }
        destruct (get_updated_info st) as [s' [[]|e]]; [discriminate E|reflexivity].
    + assert (E : snd (get_updated_info st) = Raise Py.NornirSubTaskError).
      { unfold get_updated_info. run. rewrite Hid. cbn. rewrite Hi. reflexivity. }
      destruct (get_updated_info st) as [s' [[]|e]]; [discriminate E|reflexivity].
  - assert (E : snd (get_updated_info st) = Raise Py.KeyError).
    { unfold get_updated_info. run. rewrite Hid. reflexivity. }
    destruct (get_updated_info st) as [s' [[]|e]]; [discriminate E|reflexivity].
Qed.

(** X11: [is_interface_present] holds exactly when some record of the
    list carries both the interface's name and the device's name; a
    record of the same name on another device does not count. *)
Theorem is_interface_present_spec nb_interfaces device_name interface_name :
  (is_interface_present nb_interfaces device_name interface_name = true <->
   exists i, In i nb_interfaces /\ nb_name i = interface_name /\
             nb_device_display_name i = device_name) /\
  (is_interface_present nb_interfaces device_name interface_name = false <->
   forall i, In i nb_interfaces ->
             nb_name i <> interface_name \/
             nb_device_display_name i <> device_name).
Proof.
  pose proof (is_interface_present_iff nb_interfaces device_name interface_name)
    as Hiff.
  split; [exact Hiff|].
  destruct (is_interface_present nb_interfaces device_name interface_name).
  - split; [discriminate|]. intros Hall.
    destruct (proj1 Hiff eq_refl) as (i & Hin & Hn & Hd).
    destruct (Hall i Hin); contradiction.
  - split; [|reflexivity]. intros _ i Hin.
    destruct (String.string_dec (nb_name i) interface_name) as [Hn|Hn]; [|now left].
    destruct (String.string_dec (nb_device_display_name i) device_name) as [Hd|Hd];
      [|now right].
    assert (H : false = true) by (apply Hiff; exists i; auto). discriminate H.
Qed.

End Refresh.

(** ** Reconciliation, whatever its outcome *)

Section ReconcileOutcomes.

Context {transport : Transport} {ipaddress : Ipaddress}.

Lemma reconciling_refl (s : state) : reconciling s s.
Proof.
  repeat split; try reflexivity.
  - exists []. now rewrite app_nil_r.
  - exists []. rewrite app_nil_r. split; [reflexivity|constructor].
Qed.

Lemma reconciling_trans (a b c : state) :
  reconciling a b -> reconciling b c -> reconciling a c.
Proof.
  intros (N1 & H1 & D1 & C1 & (x1 & I1) & K1 & (n1 & O1 & F1))
         (N2 & H2 & D2 & C2 & (x2 & I2) & K2 & (n2 & O2 & F2)).
  split; [congruence|]. split; [congruence|]. split; [congruence|].
  split; [congruence|]. split; [|split; [congruence|]].
  - exists (x1 ++ x2)%list. rewrite I2, I1, app_assoc. reflexivity.
  - exists (n1 ++ n2)%list. split; [rewrite O2, O1, app_assoc; reflexivity|].
    apply Forall_app. auto.
Qed.

(** A step that touches neither network, host, IP records nor devices
    and adds the events [new] to the output. *)
Lemma reconciling_output (s s' : state) new :
  net s' = net s -> host s' = host s ->
  Netbox.ip_rows (netbox s') = Netbox.ip_rows (netbox s) ->
  Netbox.devices (netbox s') = Netbox.devices (netbox s) ->
  out s' = (out s ++ new)%list ->
  Forall (fun e => is_probe e = false) new ->
  reconciling s s'.
Proof.
  intros Hn Hh Hi Hd Ho Hf. unfold reconciling. rewrite Hn, Hh, Hi, Hd.
  repeat split; try reflexivity.
  - exists []. now rewrite app_nil_r.
  - exists new. auto.
Qed.

Lemma keeps_reconciling_get_updated_info : keeps reconciling get_updated_info.
Proof.
  intros s. unfold get_updated_info. run.
  destruct (host_device_id (host s)) as [device_id|] eqn:Hid; cbn;
    [|apply reconciling_refl].
  assert (Hempty : forall h' : host_data,
            host_name h' = host_name (host s) ->
            host_device_id h' = host_device_id (host s) ->
            host_config_vars h' = host_config_vars (host s) ->
            reconciling s {| host := h'; netbox := netbox s; net := net s;
                             out := out s |}).
  { intros h' H1 H2 H3. unfold reconciling. cbn [host netbox net out].
    repeat split; try assumption; try reflexivity.
    - exists []. now rewrite app_nil_r.
    - exists []. rewrite app_nil_r. split; [reflexivity|constructor]. }
  destruct (napalm_get_interfaces (host_name (host s)) (net s)); cbn;
    [|apply Hempty; reflexivity].
  destruct (napalm_get_facts (host_name (host s)) (net s)); cbn;
    apply Hempty; reflexivity.
Qed.

Lemma keeps_reconciling_upsert_interface device_interfaces nb_interfaces
    device_id x :
  keeps reconciling
    (upsert_interface device_interfaces nb_interfaces device_id x).
Proof.
  intros s. unfold upsert_interface. run.
  destruct (lookup x device_interfaces) as [facts|]; cbn;
    [|apply reconciling_refl].
  destruct (is_interface_present nb_interfaces (host_name (host s)) x); cbn.
  - unfold Netbox.update_interface.
    destruct (Netbox.patch_first _ _ _); cbn;
      (eapply reconciling_output; cbn [host netbox net out];
       [reflexivity|reflexivity|reflexivity|reflexivity
       |rewrite <- app_assoc; reflexivity
       |repeat constructor]).
  - eapply reconciling_output; cbn [host netbox net out];
      [reflexivity|reflexivity|reflexivity|reflexivity
      |rewrite <- app_assoc; reflexivity
      |repeat constructor].
Qed.

Lemma keeps_reconciling_reconcile_ip nb_interfaces intf :
  keeps reconciling (reconcile_ip nb_interfaces intf).
Proof.
  unfold reconcile_ip.
  apply keeps_bind; [apply reconciling_trans|
                     apply keeps_unchanged; [apply reconciling_refl|reflexivity]|].
  intros h.
  apply keeps_bind; [apply reconciling_trans| |].
  { apply keeps_unchanged; [apply reconciling_refl|]. intros s. unfold unpack2.
    destruct (split " " _) as [|? [|? [|? ?]]]; reflexivity. }
  intros [ip mask].
  apply keeps_bind; [apply reconciling_trans
                    |apply keeps_require, reconciling_refl|].
  intros parsed. cbv zeta.
  apply keeps_bind; [apply reconciling_trans|
                     apply keeps_unchanged; [apply reconciling_refl|reflexivity]|].
  intros ip_exists.
  apply keeps_for_each; [apply reconciling_refl|apply reconciling_trans|].
  intros nb s.
  destruct (String.eqb (fst intf) (nb_name nb)); [|apply reconciling_refl].
  destruct ip_exists.
  - unfold netbox_create_ip_address, Netbox.create_ip_address. run.
    unfold reconciling. cbn [host netbox net out Netbox.ip_rows Netbox.devices].
    repeat split; try reflexivity.
    + eexists. reflexivity.
    + eexists. split; [reflexivity|repeat constructor].
  - run. eapply reconciling_output; cbn [host netbox net out];
      [reflexivity|reflexivity|reflexivity|reflexivity|reflexivity
      |repeat constructor].
Qed.

Lemma keeps_reconciling_update_device h :
  keeps reconciling
    (bind (netbox_update_device h 2 2 1)
       (fun _ => c_print (MovedToProduction h))).
Proof.
  intros s. unfold netbox_update_device, Netbox.update_device. run.
  destruct (Netbox.patch_first _ _ (Netbox.devices (netbox s))) as [devs|] eqn:Hp;
    cbn.
  - unfold reconciling. cbn [host netbox net out Netbox.ip_rows Netbox.devices].
    repeat split; try reflexivity.
    + exists []. now rewrite app_nil_r.
    + apply (patch_first_map _ _ device_key _ _ Hp). reflexivity.
    + eexists. split; [rewrite <- app_assoc; reflexivity|repeat constructor].
  - eapply reconciling_output; cbn [host netbox net out];
      [reflexivity|reflexivity|reflexivity|reflexivity|reflexivity
      |repeat constructor].
Qed.

Lemma keeps_reconciling_update_netbox : keeps reconciling update_netbox.
Proof.
  unfold update_netbox.
  pose proof reconciling_refl as Hr. pose proof reconciling_trans as Ht.
  apply keeps_bind; [exact Ht|apply keeps_reconciling_get_updated_info|intros _].
  apply keeps_bind; [exact Ht|apply keeps_get; assumption|intros device_interfaces].
  apply keeps_bind; [exact Ht|apply keeps_get; assumption|intros nb_interfaces].
  apply keeps_bind; [exact Ht|apply keeps_get; assumption|intros device_id].
  apply keeps_bind; [exact Ht| |intros _].
  { apply keeps_for_each; [exact Hr|exact Ht|].
    intros x. apply keeps_reconciling_upsert_interface. }
  apply keeps_bind; [exact Ht|apply keeps_reconciling_get_updated_info|intros _].
  apply keeps_bind; [exact Ht|apply keeps_get; assumption|intros nb_interfaces'].
  apply keeps_bind; [exact Ht|apply keeps_get; assumption|intros cfg].
  apply keeps_bind; [exact Ht| |intros _].
  { apply keeps_for_each; [exact Hr|exact Ht|].
    intros x. apply keeps_reconciling_reconcile_ip. }
  apply keeps_bind; [exact Ht|apply keeps_unchanged; [exact Hr|reflexivity]|].
  intros h. apply keeps_reconciling_update_device.
Qed.

(** X12: whatever its outcome, [update_netbox] removes and rewrites no
    IP-address record, and removes, renumbers and renames no device: the
    IP records it found are still there, in place, and the devices keep
    their identifiers and names. *)
Theorem update_netbox_keeps_addresses_and_devices (s : state) :
  (exists extra,
     Netbox.ip_rows (netbox (fst (update_netbox s)))
     = (Netbox.ip_rows (netbox s) ++ extra)%list) /\
  map device_key (Netbox.devices (netbox (fst (update_netbox s))))
    = map device_key (Netbox.devices (netbox s)).
Proof.
  destruct (keeps_reconciling_update_netbox s) as (_ & _ & _ & _ & Hi & Hd & _).
  auto.
Qed.

(** X13: whatever its outcome, [update_netbox] only reads the devices: the
    state of the network is as it was and no probe is sent; and of the
    host's entries it rewrites only the refreshed ones, not the name, the
    device id or the configuration variables. *)
Theorem update_netbox_reads_devices (s : state) :
  net (fst (update_netbox s)) = net s /\
  host_name (host (fst (update_netbox s))) = host_name (host s) /\
  host_device_id (host (fst (update_netbox s))) = host_device_id (host s) /\
  host_config_vars (host (fst (update_netbox s))) = host_config_vars (host s) /\
  exists new,
    out (fst (update_netbox s)) = (out s ++ new)%list /\
    Forall (fun e => is_probe e = false) new.
Proof.
  destruct (keeps_reconciling_update_netbox s) as (Hn & Hh & Hd & Hc & _ & _ & Ho).
  auto.
Qed.

End ReconcileOutcomes.

(** ** Reconciliation, one run *)

Ltac step H := rewrite (bind_ok _ _ _ _ _ H).

Section ReconcileOnce.

Context {transport : Transport} {ipaddress : Ipaddress}.

Lemma for_each_app {S A} (l1 l2 : list A) (body : A -> M S unit) (s : S) :
  for_each (l1 ++ l2) body s =
  bind (for_each l1 body) (fun _ => for_each l2 body) s.
Proof.
  revert s. induction l1 as [|x l1 IH]; intros s; [reflexivity|].
  cbn [app for_each]. unfold bind in *.
  destruct (body x s) as [s1 [[]|e]]; [apply IH|reflexivity].
Qed.

(** X14: on a host bound to its device, with distinct observed interface
    names and well-formed intent addresses, one run of [update_netbox]
    completes and leaves the inventory reconciled: one record per observed
    interface with the observed description and the normalized MAC
    address, the address of every interface of the intent that has a
    record, the device moved to its production type, role and site, and
    everything that was there before still there. *)
Theorem update_netbox_reconciles_inventory (st : state) h device_id cfg
    device_interfaces info :
  host_name (host st) = h ->
  host_device_id (host st) = Some device_id ->
  host_config_vars (host st) = Some cfg ->
  napalm_get_interfaces h (net st) = Some device_interfaces ->
  napalm_get_facts h (net st) = Some info ->
  NoDup (map fst device_interfaces) ->
  (forall intf, In intf (interfaces cfg) -> exists a, canonical (snd intf) = Some a) ->
  bound (netbox st) h device_id ->
  unique_interfaces (netbox st) ->
  unique_ips (netbox st) ->
  exists st',
    update_netbox st = (st', Ok tt) /\
    reconciled h device_id cfg device_interfaces (netbox st') /\
    keeps_records (netbox st) (netbox st').
Proof.
  intros Hh Hid Hcfg Hgi Hgf Hnd Hparse Hb Hu Hui.
  destruct (update_netbox_reconciles st h device_id cfg device_interfaces info
              Hh Hid Hcfg Hgi Hgf Hnd Hparse Hb Hu Hui)
    as (st' & Hrun & _ & _ & _ & _ & Hrec & Hkeep).
  exists st'. auto.
Qed.

Lemma reconcile_ip_malformed nb_interfaces (intf : string * intent) (st : state) :
  canonical (snd intf) = None ->
  reconcile_ip nb_interfaces intf st = (st, Raise Py.ValueError).
Proof.
  unfold canonical, reconcile_ip. intros Hc.
  destruct (split " " (intent_ipaddr (snd intf))) as [|ip [|mask [|? ?]]]; run;
    try reflexivity.
  destruct (ip_interface (ip ++ "/" ++ mask)); [discriminate Hc|reflexivity].
Qed.

(** X15: [update_netbox] is not transactional.  When an interface of the
    intent has a malformed address, and the ones before it are well
    formed, the run raises [ValueError] after the interface records have
    been created and updated; the lifecycle update is not reached, so
    the devices are as they were. *)
Theorem malformed_address_after_upsert (st : state) h device_id cfg
    device_interfaces info good bad rest :
  host_name (host st) = h ->
  host_device_id (host st) = Some device_id ->
  host_config_vars (host st) = Some cfg ->
  napalm_get_interfaces h (net st) = Some device_interfaces ->
  napalm_get_facts h (net st) = Some info ->
  NoDup (map fst device_interfaces) ->
  interfaces cfg = (good ++ bad :: rest)%list ->
  (forall intf, In intf good -> exists a, canonical (snd intf) = Some a) ->
  canonical (snd bad) = None ->
  bound (netbox st) h device_id ->
  unique_interfaces (netbox st) ->
  unique_ips (netbox st) ->
  exists st' inv,
    update_netbox st = (st', Raise Py.ValueError) /\
    upserted h device_id device_interfaces (netbox st)
      (map fst device_interfaces) inv /\
    Netbox.interface_rows (netbox st') = Netbox.interface_rows inv /\
    Netbox.devices (netbox st') = Netbox.devices (netbox st).
Proof.
  intros Hh Hid Hcfg Hgi Hgf Hnd Hintfs Hgood Hbad Hb Hu Hui.
  pose proof Hb as ((d0 & Hfind0 & Hdn0) & Hown0).
  assert (Hname : Netbox.display_name (netbox st) device_id = h).
  { unfold Netbox.display_name. rewrite Hfind0. exact Hdn0. }
  unfold update_netbox.
  rewrite <- Hh in Hgi, Hgf.
  step (get_updated_info_run st device_id device_interfaces info Hid Hgi Hgf).
  set (sa := {| host := _; netbox := netbox st; net := net st; out := out st |}).
  assert (Hga : bind (gets (fun s : state => host_interfaces (host s)))
                  (require Py.KeyError) sa = (sa, Ok device_interfaces))
    by reflexivity.
  step Hga.
  assert (Hgb : bind (gets (fun s : state => host_nb_interfaces (host s)))
                  (require Py.KeyError) sa
                = (sa, Ok (Netbox.get_interfaces (netbox st) device_id)))
    by reflexivity.
  step Hgb.
  assert (Hgc : bind (gets (fun s : state => host_device_id (host s)))
                  (require Py.KeyError) sa = (sa, Ok device_id)).
  { unfold bind, gets, require, sa. cbn. rewrite Hid. reflexivity. }
  step Hgc.
  destruct (upsert_interface_loop h device_id device_interfaces (netbox st)
              (map fst device_interfaces) Hname Hnd (fun k Hk => Hk) [] sa)
    as (sb & Hloop & Hups & Hhb & Hnb).
  { apply upserted_start; assumption. }
  { exact Hh. }
  { intros k _ []. }
  step Hloop. cbn [app] in Hups.
  pose proof Hups as (Hdev & Hip & Huniq & _).
  assert (Hidb : host_device_id (host sb) = Some device_id).
  { rewrite Hhb. unfold sa. cbn. exact Hid. }
  assert (Hhnb : host_name (host sb) = host_name (host st)) by (rewrite Hhb; reflexivity).
  assert (Hgib : napalm_get_interfaces (host_name (host sb)) (net sb)
                 = Some device_interfaces) by (rewrite Hhnb, Hnb; exact Hgi).
  assert (Hgfb : napalm_get_facts (host_name (host sb)) (net sb) = Some info)
    by (rewrite Hhnb, Hnb; exact Hgf).
  step (get_updated_info_run sb device_id device_interfaces info Hidb Hgib Hgfb).
  set (sc := {| host := _; netbox := netbox sb; net := net sb; out := out sb |}).
  assert (Hgd : bind (gets (fun s : state => host_nb_interfaces (host s)))
                  (require Py.KeyError) sc
                = (sc, Ok (Netbox.get_interfaces (netbox sb) device_id)))
    by reflexivity.
  step Hgd.
  assert (Hge : bind (gets (fun s : state => host_config_vars (host s)))
                  (require Py.KeyError) sc = (sc, Ok cfg)).
  { unfold bind, gets, require, sc. cbn. rewrite Hhb. unfold sa. cbn.
    rewrite Hcfg. reflexivity. }
  step Hge.
  destruct (reconcile_ip_loop (Netbox.get_interfaces (netbox sb) device_id)
              good (snapshot_names_unique _ _ Huniq) Hgood sc)
    as (sd & Hloop2 & _ & _ & Hdevd & Hrowd & _).
  { unfold unique_ips. cbn [sc netbox]. rewrite Hip. exact Hui. }
  cbn [sc netbox] in Hdevd, Hrowd.
  assert (Hfail : for_each (interfaces cfg)
                    (reconcile_ip (Netbox.get_interfaces (netbox sb) device_id)) sc
                  = (sd, Raise Py.ValueError)).
  { rewrite Hintfs, for_each_app. step Hloop2. cbn [for_each].
    apply bind_raise. now apply reconcile_ip_malformed. }
  rewrite (bind_raise _ _ _ _ _ Hfail).
  exists sd, (netbox sb). split; [reflexivity|]. split; [exact Hups|].
  split; [exact Hrowd|]. congruence.
Qed.

(** X16: [update_netbox] writes nothing when the first refresh fails:
    without a device id, or with a getter that fails, it raises and the
    inventory and the output are as they were. *)
Theorem update_netbox_fails_before_writing (st : state) :
  host_device_id (host st) = None \/
  napalm_get_interfaces (host_name (host st)) (net st) = None \/
  napalm_get_facts (host_name (host st)) (net st) = None ->
  exists e,
    snd (update_netbox st) = Raise e /\
    (e = Py.KeyError \/ e = Py.NornirSubTaskError) /\
    netbox (fst (update_netbox st)) = netbox st /\
    out (fst (update_netbox st)) = out st.
Proof.
  intros Hfail.
  assert (Hfirst : exists st' e,
            get_updated_info st = (st', Raise e) /\
            (e = Py.KeyError \/ e = Py.NornirSubTaskError) /\
            netbox st' = netbox st /\ out st' = out st).
  { unfold get_updated_info. run.
    destruct (host_device_id (host st)) as [device_id|]; cbn;
      [|eexists _, _; split; [reflexivity|]; auto].
    destruct (napalm_get_interfaces (host_name (host st)) (net st)); cbn;
      [|eexists _, _; split; [reflexivity|]; auto].
    destruct (napalm_get_facts (host_name (host st)) (net st)); cbn;
      [|eexists _, _; split; [reflexivity|]; auto].
    destruct Hfail as [H|[H|H]]; discriminate H. }
  destruct Hfirst as (st' & e & Hrun & He & Hn & Ho).
  exists e. unfold update_netbox. rewrite (bind_raise _ _ _ _ _ Hrun). auto.
Qed.

End ReconcileOnce.

(** ** The pipeline, whatever the operator answers *)

Section SequencerOutcomes.

Context {runner : Runner}.

Lemma provisioned_iff inventory h :
  In h (provisioned inventory) <-> In (h, "wan-router-provision") inventory.
Proof.
  unfold provisioned. rewrite in_map_iff. split.
  - intros ((h', role) & Hh & Hin). cbn in Hh. subst h'.
    apply filter_In in Hin as (Hin & Hr). cbn in Hr.
    apply String.eqb_eq in Hr. now subst.
  - intros Hin. exists (h, "wan-router-provision"). split; [reflexivity|].
    apply filter_In. split; [assumption|]. reflexivity.
Qed.

Lemma nr_run_log nr t (s : run_state) t0 h b :
  In (Executed t0 h b) (log (fst (nr_run nr t s))) <->
  In (Executed t0 h b) (log s) \/
  (t0 = t /\
   In (h, b)
      (snd (run_on_hosts t
              (filter (fun h => negb (mem h (failed_hosts s))) nr) (world s)))).
Proof.
  cbn. rewrite in_app_iff, in_map_iff. split.
  - intros [H|((h', b') & He & Hin)]; [now left|].
    cbn in He. injection He as <- <- <-. now right.
  - intros [H|(-> & Hin)]; [now left|]. right. now exists (h, b).
Qed.

Lemma ran_on_cohort nr t (s : run_state) h b :
  In (h, b)
     (snd (run_on_hosts t
             (filter (fun h => negb (mem h (failed_hosts s))) nr) (world s))) ->
  In h nr /\ ~ In h (failed_hosts s).
Proof.
  intros Hin.
  assert (Hh : In h (filter (fun h => negb (mem h (failed_hosts s))) nr)).
  { rewrite <- (run_on_hosts_hosts t _ (world s)).
    apply in_map_iff. now exists (h, b). }
  apply filter_In in Hh as (Hnr & Hm). split; [assumption|].
  intros Hf. apply mem_iff in Hf. rewrite Hf in Hm. discriminate Hm.
Qed.

Lemma confined_refl nr (s : run_state) : confined nr s s.
Proof. split; auto. Qed.

Lemma confined_trans nr (a b c : run_state) :
  confined nr a b -> confined nr b c -> confined nr a c.
Proof.
  intros (L1 & F1) (L2 & F2). split.
  - intros t h f Hin. destruct (L2 t h f Hin) as [H|H]; auto.
  - intros h Hin. destruct (F2 h Hin) as [H|H]; auto.
Qed.






Lemma keeps_nr_run nr t : keeps (confined nr) (nr_run nr t).
Proof.
  intros s; split.
  - intros t0 h b Hin. apply nr_run_log in Hin as [H|(_ & H)]; [now left|].
    right. now apply ran_on_cohort in H.
  - intros h Hin. cbn in Hin. apply update_iff in Hin as [H|H]; [now left|].
    right. apply in_map_iff in H as ((h', b) & He & Hin). cbn in He. subst h'.
    apply filter_In in Hin as (Hin & _). now apply ran_on_cohort in Hin.
Qed.



Lemma confined_log_only nr (s s' : run_state) es :
  (forall t h b, ~ In (Executed t h b) es) ->
  failed_hosts s' = failed_hosts s ->
  log s' = (log s ++ es)%list ->
  confined nr s s'.
Proof.
  intros Hes Hf Hl. split.
  - intros t h b Hin. rewrite Hl in Hin. apply in_app_or in Hin as [H|H];
      [now left|]. now apply Hes in H.
  - intros h Hin. rewrite Hf in Hin. now left.
Qed.


Lemma print_failed_hosts_quiet t (s : run_state) :
  failed_hosts (fst (print_failed_hosts t s)) = failed_hosts s /\
  exists es, log (fst (print_failed_hosts t s)) = (log s ++ es)%list /\
             forall t h b, ~ In (Executed t h b) es.
Proof.
  split; [reflexivity|]. eexists. split; [reflexivity|].
  intros t0 h b [H|[]]. discriminate H.
Qed.

Lemma proceed_quiet (s : run_state) :
  failed_hosts (fst (proceed s)) = failed_hosts s /\
  exists es, log (fst (proceed s)) = (log s ++ es)%list /\
             forall t h b, ~ In (Executed t h b) es.
Proof.
  unfold proceed, input, exit, record. run.
  destruct (stdin s) as [|line rest]; cbn.
  - split; [reflexivity|]. exists []. rewrite app_nil_r. split; [reflexivity|].
    intros t h b [].
  - destruct (lower line =? "y")%string; cbn.
    + split; [reflexivity|]. exists []. rewrite app_nil_r.
      split; [reflexivity|]. intros t h b [].
    + split; [reflexivity|]. eexists. split; [reflexivity|].
      intros t h b [H|[]]. discriminate H.
Qed.

Lemma main_no_hosts inventory (s : run_state) :
  provisioned inventory = [] ->
  main inventory s = (exited s, Raise Py.SystemExit).
Proof.
  intros Hnr. unfold main.
  apply bind_raise. now apply (proj1 (kickoff_run inventory s)).
Qed.

(** The part of [main] that follows [kickoff] keeps a relation that the
    runner keeps and that steps without task keep. *)
Lemma keeps_after_kickoff (R : run_state -> run_state -> Prop) nr :
  (forall s, R s s) ->
  (forall a b c, R a b -> R b c -> R a c) ->
  (forall t, keeps R (nr_run nr t)) ->
  (forall s s' es,
     (forall t h b, ~ In (Executed t h b) es) ->
     failed_hosts s' = failed_hosts s ->
     log s' = (log s ++ es)%list -> R s s') ->
  forall inventory s,
    provisioned inventory = nr -> nr <> [] ->
    R s (fst (main inventory s)).
Proof.
  intros Hrefl Htrans Hrun Hquiet inventory s Hnr Hne.
  assert (Hprint : forall t, keeps R (print_failed_hosts t)).
  { intros t s0. destruct (print_failed_hosts_quiet t s0) as (Hf & es & Hl & He).
    apply (Hquiet s0 _ es He Hf Hl). }
  assert (Hproceed : keeps R proceed).
  { intros s0. destruct (proceed_quiet s0) as (Hf & es & Hl & He).
    apply (Hquiet s0 _ es He Hf Hl). }
  unfold main.
  rewrite (bind_ok _ _ _ _ _ (proj2 (kickoff_run inventory s)
                                (eq_ind_r (fun l => l <> []) Hne Hnr))).
  rewrite Hnr. generalize s.
  repeat first
    [ apply Hprint
    | apply (keeps_bind R Htrans); [first [apply Hrun|apply Hprint|apply Hproceed]|intros _] ].
Qed.

(** X17: whatever the operator answers and however the run ends, [main]
    runs tasks on no host but those the inventory lists under the
    provisioning role: hosts of any other role are never touched. *)
Theorem only_provisioned_hosts_run inventory (s : run_state) t h failed :
  In (Executed t h failed) (log (fst (main inventory s))) ->
  In (Executed t h failed) (log s) \/
  In (h, "wan-router-provision") inventory.
Proof.
  intros Hin.
  destruct (provisioned inventory) as [|h0 nr0] eqn:Hnr.
  - rewrite (main_no_hosts inventory s Hnr) in Hin.
    cbn in Hin. apply in_app_or in Hin as [H|[H|[]]]; [now left|discriminate H].
  - assert (Hc : confined (h0 :: nr0) s (fst (main inventory s))).
    { apply (keeps_after_kickoff (confined (h0 :: nr0)) (h0 :: nr0));
        try assumption; try discriminate.
      - apply confined_refl.
      - apply confined_trans.
      - intros t0. apply keeps_nr_run.
      - intros s0 s' es. apply confined_log_only. }
    destruct (proj1 Hc t h failed Hin) as [H|H]; [now left|].
    right. apply provisioned_iff. now rewrite Hnr.
Qed.



End SequencerOutcomes.

(** ** Standard input that ends before the last prompt *)

Section InputExhausted.

Context {runner : Runner}.

Lemma proceed_eof (s : run_state) :
  stdin s = [] -> proceed s = (s, Raise Py.EOFError).
Proof.
  intros Hin. unfold proceed, input, bind. rewrite Hin. reflexivity.
Qed.

(** X19: when standard input ends before the operator has answered the
    three prompts and every answer given confirms, [main] is ended by the
    [EOFError] of [input()] at the first prompt left unanswered: the
    stages before that prompt have run, none after it, no exit is
    announced, and the process ends with status 1. *)
Theorem input_exhausted inventory (s : run_state) :
  let nr := provisioned inventory in
  let s1 := fst (run_stages nr [ScpEnable; GetConfigVars; RenderConfigs]
                   (answered s)) in
  let s2 := fst (run_stages nr [ApplyL3Configs; ValidateL3] (answered s1)) in
  nr <> [] ->
  (stdin s = [] -> main inventory s = (s, Raise Py.EOFError)) /\
  (forall a1,
     stdin s = [a1] -> confirms a1 ->
     main inventory s = (s1, Raise Py.EOFError)) /\
  (forall a1 a2,
     stdin s = [a1; a2] -> confirms a1 -> confirms a2 ->
     main inventory s = (s2, Raise Py.EOFError)) /\
  (forall answers,
     stdin s = answers -> Forall confirms answers ->
     (List.length answers < 3)%nat ->
     exit_code (termination_of (snd (main inventory s))) = 1).
Proof.
  intros nr s1 s2 Hnr.
  pose proof (proj2 (kickoff_run inventory s) Hnr) as Hk. fold nr in Hk.
  assert (E0 : stdin s = [] -> main inventory s = (s, Raise Py.EOFError)).
  { intros Hin. unfold main. rewrite (bind_ok _ _ _ _ _ Hk).
    now rewrite (bind_raise _ _ _ _ _ (proceed_eof s Hin)). }
  assert (E1 : forall a1, stdin s = [a1] -> confirms a1 ->
                          main inventory s = (s1, Raise Py.EOFError)).
  { intros a1 Hin H1. unfold main. rewrite (bind_ok _ _ _ _ _ Hk).
    rewrite (bind_ok _ _ _ _ _ (proj1 (proceed_run s a1 _ Hin) H1)).
    rewrite !stage_then.
    assert (Hin1 : stdin s1 = []).
    { unfold s1. rewrite run_stages_stdin.
      change (stdin (answered s)) with (tl (stdin s)). now rewrite Hin. }
    now rewrite (bind_raise _ _ _ _ _ (proceed_eof _ Hin1)). }
  assert (E2 : forall a1 a2, stdin s = [a1; a2] -> confirms a1 -> confirms a2 ->
                             main inventory s = (s2, Raise Py.EOFError)).
  { intros a1 a2 Hin H1 H2. unfold main. rewrite (bind_ok _ _ _ _ _ Hk).
    rewrite (bind_ok _ _ _ _ _ (proj1 (proceed_run s a1 _ Hin) H1)).
    rewrite !stage_then.
    assert (Hin1 : stdin s1 = [a2]).
    { unfold s1. rewrite run_stages_stdin.
      change (stdin (answered s)) with (tl (stdin s)). now rewrite Hin. }
    rewrite (bind_ok _ _ _ _ _ (proj1 (proceed_run _ a2 _ Hin1) H2)).
    rewrite !stage_then.
    assert (Hin2 : stdin s2 = []).
    { unfold s2. rewrite run_stages_stdin.
      change (stdin (answered s1)) with (tl (stdin s1)). now rewrite Hin1. }
    now rewrite (bind_raise _ _ _ _ _ (proceed_eof _ Hin2)). }
  split; [exact E0|]. split; [exact E1|]. split; [exact E2|].
  intros answers Hin Hall Hlen.
  destruct answers as [|a1 [|a2 [|a3 rest]]].
  - rewrite (E0 Hin). reflexivity.
  - inversion Hall as [|? ? H1 _]; subst. rewrite (E1 a1 Hin H1). reflexivity.
  - inversion Hall as [|? ? H1 Hall']; subst.
    inversion Hall' as [|? ? H2 _]; subst.
    rewrite (E2 a1 a2 Hin H1 H2). reflexivity.
  - cbn in Hlen. lia.
Qed.

End InputExhausted.

(** ** Fetching the configuration variables *)

Section FetchIntent.

Context {transport : Transport} {context : ConfigContext}.

Lemma hd_error_filter_some {A} (f : A -> bool) (l : list A) x :
  hd_error (filter f l) = Some x -> In x l /\ f x = true.
Proof.
  intros H. apply filter_In.
  destruct (filter f l) as [|y rest]; [discriminate H|].
  injection H as ->. now left.
Qed.

Lemma hd_error_filter_find {A} (f : A -> bool) (l : list A) :
  hd_error (filter f l) = find f l.
Proof.
  induction l as [|x l IH]; [reflexivity|].
  cbn. destruct (f x); [reflexivity|exact IH].
Qed.

Lemma get_config_vars_run (s : state) :
  match find (fun d => String.eqb (Netbox.dev_name d) (host_name (host s)))
             (Netbox.devices (netbox s)) with
  | None => get_config_vars s = (s, Raise Py.IndexError)
  | Some d =>
      get_config_vars s
      = ({| host :=
              set_config_vars (local_context_data (Netbox.dev_id d))
                (set_device_id (Netbox.dev_id d) (host s));
            netbox := netbox s; net := net s; out := out s |}, Ok tt)
  end.
Proof.
  unfold get_config_vars, get_devices_by_name, get_devices_by_id. run.
  rewrite hd_error_filter_find.
  destruct (find _ (Netbox.devices (netbox s))) as [d|] eqn:Hd; cbn;
    [|reflexivity].
  rewrite hd_error_filter_find.
  destruct (find (fun d0 => Netbox.dev_id d0 =? Netbox.dev_id d)
                 (Netbox.devices (netbox s))) as [d'|] eqn:Hd'; cbn.
  - apply find_some in Hd' as (_ & He). apply Z.eqb_eq in He.
    now rewrite He.
  - apply find_some in Hd as (Hin & _).
    pose proof (find_none _ _ Hd' d Hin) as Hn. cbn in Hn.
    now rewrite Z.eqb_refl in Hn.
Qed.

(** X20: [get_config_vars] fails, with [IndexError] and nothing changed,
    exactly when the inventory has no device under the host's name; in
    every other case it returns, having stored the id of the first device
    of that name and the config context of that id in the host's data and
    changed nothing else: the second lookup, by id, never comes back
    empty. *)
Theorem get_config_vars_outcome (s : state) :
  let named d := String.eqb (Netbox.dev_name d) (host_name (host s)) in
  (snd (get_config_vars s) = Raise Py.IndexError <->
   forall d, In d (Netbox.devices (netbox s)) ->
             Netbox.dev_name d <> host_name (host s)) /\
  (snd (get_config_vars s) = Raise Py.IndexError ->
   fst (get_config_vars s) = s) /\
  (snd (get_config_vars s) <> Raise Py.IndexError ->
   exists d,
     find named (Netbox.devices (netbox s)) = Some d /\
     get_config_vars s
     = ({| host :=
             {| host_name := host_name (host s);
                host_device_id := Some (Netbox.dev_id d);
                host_config_vars := local_context_data (Netbox.dev_id d);
                host_nb_interfaces := host_nb_interfaces (host s);
                host_interfaces := host_interfaces (host s);
                host_device_info := host_device_info (host s) |};
           netbox := netbox s; net := net s; out := out s |}, Ok tt)).
Proof.
  intros named. pose proof (get_config_vars_run s) as Hrun.
  fold named in Hrun.
  destruct (find named (Netbox.devices (netbox s))) as [d|] eqn:Hd.
  - rewrite Hrun. cbn [fst snd]. split; [split|split].
    + discriminate.
    + intros Hno. apply find_some in Hd as (Hin & He).
      apply String.eqb_eq in He. now apply Hno in Hin.
    + discriminate.
    + intros _. exists d. split; reflexivity.
  - rewrite Hrun. cbn [fst snd]. split; [split|split].
    + intros _ d Hin He. pose proof (find_none _ _ Hd d Hin) as Hn.
      unfold named in Hn. apply String.eqb_neq in Hn. contradiction.
    + reflexivity.
    + reflexivity.
    + intros H. now contradiction H.
Qed.

(** X21: in an inventory whose devices have distinct ids and distinct
    names, and for a host with a name, a run of [get_config_vars] that
    returns leaves the host bound to its device record: the id stored is
    the one under which the reconciliation finds the host's name and the
    interface records shown under that name. *)
Theorem get_config_vars_binds (s : state) :
  NoDup (map Netbox.dev_id (Netbox.devices (netbox s))) ->
  NoDup (map Netbox.dev_name (Netbox.devices (netbox s))) ->
  host_name (host s) <> EmptyString ->
  snd (get_config_vars s) = Ok tt ->
  exists device_id,
    host_device_id (host (fst (get_config_vars s))) = Some device_id /\
    bound (netbox (fst (get_config_vars s))) (host_name (host s)) device_id.
Proof.
  intros Hids Hnames Hname Hok.
  pose proof (get_config_vars_run s) as Hrun.
  destruct (find _ (Netbox.devices (netbox s))) as [d|] eqn:Hd;
    rewrite Hrun in *; [|discriminate Hok].
  cbn [fst snd host netbox]. exists (Netbox.dev_id d). split; [reflexivity|].
  apply find_some in Hd as (Hin & He). apply String.eqb_eq in He.
  assert (Hfind : forall id d',
            find (fun d0 => Netbox.dev_id d0 =? id) (Netbox.devices (netbox s))
            = Some d' -> In d' (Netbox.devices (netbox s)) /\ Netbox.dev_id d' = id).
  { intros id d' Hf. apply find_some in Hf as (Hin' & E).
    apply Z.eqb_eq in E. now split. }
  split.
  - destruct (find (fun d0 => Netbox.dev_id d0 =? Netbox.dev_id d)
                   (Netbox.devices (netbox s))) as [d'|] eqn:Hd'.
    + exists d'. split; [reflexivity|].
      destruct (Hfind _ _ Hd') as (Hin' & E).
      now rewrite (NoDup_map_injective _ _ _ _ Hids Hin' Hin E).
    + pose proof (find_none _ _ Hd' d Hin) as Hn. cbn in Hn.
      now rewrite Z.eqb_refl in Hn.
  - intros r _ Hdisp. unfold Netbox.display_name in Hdisp.
    destruct (find (fun d0 => Netbox.dev_id d0 =? Netbox.row_device_id r)
                   (Netbox.devices (netbox s))) as [d'|] eqn:Hd'.
    + destruct (Hfind _ _ Hd') as (Hin' & E).
      rewrite <- He in Hdisp.
      rewrite (NoDup_map_injective _ _ _ _ Hnames Hin' Hin Hdisp) in E.
      now symmetry.
    + now contradiction Hname.
Qed.

End FetchIntent.

(** ** Rendering and applying configurations *)

Lemma append_assoc_string (a b c : string) : ((a ++ b) ++ c = a ++ b ++ c)%string.
Proof. induction a as [|x a IH]; cbn; [reflexivity|]. now rewrite IH. Qed.

Lemma append_inj_l (a b c : string) : (a ++ b = a ++ c)%string -> b = c.
Proof.
  induction a as [|x a IH]; cbn; intros H; [exact H|].
  injection H as H. now apply IH.
Qed.

Lemma append_same_length (a b c d : string) :
  (a ++ b = c ++ d)%string -> String.length b = String.length d ->
  a = c /\ b = d.
Proof.
  revert c. induction a as [|x a IH]; intros [|y c] H Hlen; cbn in H.
  - now split.
  - rewrite H in Hlen. cbn in Hlen. rewrite length_append_string in Hlen. lia.
  - rewrite <- H in Hlen. cbn in Hlen. rewrite length_append_string in Hlen. lia.
  - injection H as -> H. destruct (IH c H Hlen) as (-> & ->). now split.
Qed.

Lemma intf_path_injective h h' : intf_path h = intf_path h' -> h = h'.
Proof.
  unfold intf_path. intros H. apply append_inj_l in H.
  now apply append_same_length in H as (H & _).
Qed.

Lemma bgp_path_injective h h' : bgp_path h = bgp_path h' -> h = h'.
Proof.
  unfold bgp_path. intros H. apply append_inj_l in H.
  now apply append_same_length in H as (H & _).
Qed.

Lemma intf_bgp_distinct h h' : intf_path h <> bgp_path h'.
Proof.
  unfold intf_path, bgp_path. intros H. apply append_inj_l in H.
  change "_intf.txt"%string with ("_" ++ "intf.txt")%string in H.
  rewrite <- append_assoc_string in H.
  apply append_same_length in H as (_ & H); [discriminate H|reflexivity].
Qed.

Lemma read_write_same path text fs :
  read_file path (write_file path text fs) = Some text.
Proof. unfold read_file, write_file. cbn. now rewrite String.eqb_refl. Qed.

Lemma read_write_other path path' text fs :
  path' <> path ->
  read_file path (write_file path' text fs) = read_file path fs.
Proof.
  intros H. unfold read_file, write_file. cbn.
  apply String.eqb_neq in H. now rewrite H.
Qed.

Section ProvisioningOutcomes.

Context {transport : Transport} {provisioner : Provisioner}.

Ltac work :=
  cbv beta iota zeta delta
    [bind ret raise gets modify say write run_on_device
     run_netmiko_send_config run_netmiko_save_config run_napalm_configure
     run_template_file interface_jinja bgp_jinja];
  cbn [fst snd ws_host ws_files ws_net ws_out].

Lemma render_configs_run (s : workspace) :
  let h := host_name (ws_host s) in
  match template_file "interfaces.j2" "templates/" (ws_host s) with
  | None => render_configs s = (s, Raise Py.NornirSubTaskError)
  | Some intf_cfg =>
      match template_file "bgp.j2" "templates/" (ws_host s) with
      | None =>
          render_configs s
          = ({| ws_host := ws_host s;
                ws_files := write_file (intf_path h) intf_cfg (ws_files s);
                ws_net := ws_net s;
                ws_out := ws_out s ++ [Said (InterfaceRendered h)] |},
             Raise Py.NornirSubTaskError)
      | Some bgp_cfg =>
          render_configs s
          = ({| ws_host := ws_host s;
                ws_files :=
                  write_file (bgp_path h) bgp_cfg
                    (write_file (intf_path h) intf_cfg (ws_files s));
                ws_net := ws_net s;
                ws_out :=
                  ws_out s ++ [Said (InterfaceRendered h); Said (BgpRendered h)] |},
             Ok tt)
      end
  end.
Proof.
  intros h. unfold render_configs. work.
  destruct (template_file "interfaces.j2" "templates/" (ws_host s)) as [ti|];
    [|reflexivity].
  work. destruct (template_file "bgp.j2" "templates/" (ws_host s)) as [tb|];
    [|reflexivity].
  work. now rewrite <- app_assoc.
Qed.

Lemma apply_configs_run (path : string -> string)
    (m : string -> provision_message) (c : job unit) (s : workspace) :
  c = (task_host <- gets (fun s => host_name (ws_host s)) ;;
       run_napalm_configure (path task_host) ;;;
       say (m task_host))%task ->
  let h := host_name (ws_host s) in
  match read_file (path h) (ws_files s) with
  | None => c s = (s, Raise Py.NornirSubTaskError)
  | Some text =>
      let r := napalm_configure h text (ws_net s) in
      c s
      = ({| ws_host := ws_host s; ws_files := ws_files s; ws_net := fst r;
            ws_out :=
              ws_out s ++
              Configure h text :: (if snd r then [] else [Said (m h)]) |},
         if snd r then Raise Py.NornirSubTaskError else Ok tt)
  end.
Proof.
  intros -> h. subst h. work.
  destruct (read_file (path (host_name (ws_host s))) (ws_files s)) as [text|];
    [|reflexivity].
  work. destruct (snd (napalm_configure _ text (ws_net s))); work;
    [reflexivity|]. now rewrite <- app_assoc.
Qed.

(** X22: when both templates render, [render_configs] returns with the
    two texts in the host's two files, and the tasks that follow push
    what was rendered: [apply_l3_configs] loads the interface text on the
    device, [apply_bgp_configs] after it the BGP text; neither file stands
    in for the other. *)
Theorem render_then_apply (s : workspace) intf_cfg bgp_cfg :
  template_file "interfaces.j2" "templates/" (ws_host s) = Some intf_cfg ->
  template_file "bgp.j2" "templates/" (ws_host s) = Some bgp_cfg ->
  let h := host_name (ws_host s) in
  let s1 := fst (render_configs s) in
  let s2 := fst (apply_l3_configs s1) in
  let s3 := fst (apply_bgp_configs s2) in
  snd (render_configs s) = Ok tt /\
  read_file (intf_path h) (ws_files s1) = Some intf_cfg /\
  read_file (bgp_path h) (ws_files s1) = Some bgp_cfg /\
  ws_net s1 = ws_net s /\
  ws_out s1 = (ws_out s ++ [Said (InterfaceRendered h); Said (BgpRendered h)])%list /\
  ws_out s2 =
    (ws_out s1 ++
     Configure h intf_cfg ::
     (if snd (napalm_configure h intf_cfg (ws_net s1)) then []
      else [Said (InterfaceApplied h)]))%list /\
  ws_out s3 =
    (ws_out s2 ++
     Configure h bgp_cfg ::
     (if snd (napalm_configure h bgp_cfg (ws_net s2)) then []
      else [Said (BgpApplied h)]))%list.
Proof.
  intros Hi Hb h s1 s2 s3.
  pose proof (render_configs_run s) as Hr. cbv zeta in Hr.
  rewrite Hi, Hb in Hr. fold h in Hr.
  assert (Hf1 : read_file (intf_path h) (ws_files s1) = Some intf_cfg).
  { unfold s1. rewrite Hr. cbn [fst ws_files].
    rewrite read_write_other by (intros E; symmetry in E;
                                 now apply intf_bgp_distinct in E).
    apply read_write_same. }
  assert (Hf2 : read_file (bgp_path h) (ws_files s1) = Some bgp_cfg).
  { unfold s1. rewrite Hr. cbn [fst ws_files]. apply read_write_same. }
  assert (Hh1 : host_name (ws_host s1) = h).
  { unfold s1. rewrite Hr. reflexivity. }
  pose proof (apply_configs_run intf_path InterfaceApplied apply_l3_configs
                s1 eq_refl) as Ha.
  cbv zeta in Ha. rewrite Hh1, Hf1 in Ha.
  assert (Hh2 : host_name (ws_host s2) = h).
  { unfold s2. rewrite Ha. exact Hh1. }
  assert (Hf3 : read_file (bgp_path h) (ws_files s2) = Some bgp_cfg).
  { unfold s2. rewrite Ha. exact Hf2. }
  pose proof (apply_configs_run bgp_path BgpApplied apply_bgp_configs
                s2 eq_refl) as Hg.
  cbv zeta in Hg. rewrite Hh2, Hf3 in Hg.
  split; [now rewrite Hr|]. split; [exact Hf1|]. split; [exact Hf2|].
  split; [unfold s1; now rewrite Hr|]. split; [unfold s1; now rewrite Hr|].
  split.
  - unfold s2 at 1. rewrite Ha. reflexivity.
  - unfold s3. rewrite Hg. reflexivity.
Qed.

(** X23: a template that fails ends [render_configs] with
    [NornirSubTaskError]. When it is the interface template, nothing is
    written or printed. When it is the BGP template, the interface file
    has been written and announced, and the host's BGP file is what it
    was before the run. *)
Theorem render_configs_failures (s : workspace) :
  let h := host_name (ws_host s) in
  (template_file "interfaces.j2" "templates/" (ws_host s) = None ->
   render_configs s = (s, Raise Py.NornirSubTaskError)) /\
  (forall intf_cfg,
     template_file "interfaces.j2" "templates/" (ws_host s) = Some intf_cfg ->
     template_file "bgp.j2" "templates/" (ws_host s) = None ->
     snd (render_configs s) = Raise Py.NornirSubTaskError /\
     ws_out (fst (render_configs s))
       = (ws_out s ++ [Said (InterfaceRendered h)])%list /\
     read_file (intf_path h) (ws_files (fst (render_configs s)))
       = Some intf_cfg /\
     read_file (bgp_path h) (ws_files (fst (render_configs s)))
       = read_file (bgp_path h) (ws_files s)).
Proof.
  intros h. pose proof (render_configs_run s) as Hr. cbv zeta in Hr.
  fold h in Hr. split.
  - intros Hi. now rewrite Hi in Hr.
  - intros intf_cfg Hi Hb. rewrite Hi, Hb in Hr. rewrite Hr.
    cbn [fst snd ws_out ws_files].
    split; [reflexivity|]. split; [reflexivity|].
    split; [apply read_write_same|].
    apply read_write_other. apply intf_bgp_distinct.
Qed.

(** X24: whatever its outcome, [render_configs] leaves the files of every
    other host as they are. *)
Theorem render_configs_other_hosts (s : workspace) h' :
  h' <> host_name (ws_host s) ->
  read_file (intf_path h') (ws_files (fst (render_configs s)))
    = read_file (intf_path h') (ws_files s) /\
  read_file (bgp_path h') (ws_files (fst (render_configs s)))
    = read_file (bgp_path h') (ws_files s).
Proof.
  intros Hne. pose proof (render_configs_run s) as Hr. cbv zeta in Hr.
  assert (Hii : intf_path (host_name (ws_host s)) <> intf_path h').
  { intros E. apply intf_path_injective in E. now symmetry in E. }
  assert (Hbb : bgp_path (host_name (ws_host s)) <> bgp_path h').
  { intros E. apply bgp_path_injective in E. now symmetry in E. }
  assert (Hbi : bgp_path (host_name (ws_host s)) <> intf_path h').
  { intros E. symmetry in E. now apply intf_bgp_distinct in E. }
  pose proof (intf_bgp_distinct (host_name (ws_host s)) h') as Hib.
  destruct (template_file "interfaces.j2" "templates/" (ws_host s)) as [ti|].
  - destruct (template_file "bgp.j2" "templates/" (ws_host s)) as [tb|];
      rewrite Hr; cbn [fst ws_files];
      rewrite ?read_write_other by assumption; split; reflexivity.
  - rewrite Hr. split; reflexivity.
Qed.

Lemma scp_disable_run (s : workspace) :
  let h := host_name (ws_host s) in
  let sent := netmiko_send_config h "no ip scp server enable" (ws_net s) in
  let saved := netmiko_save_config h (fst sent) in
  scp_disable s
  = ({| ws_host := ws_host s; ws_files := ws_files s;
        ws_net := if snd sent then fst sent else fst saved;
        ws_out :=
          ws_out s ++
          SendConfig h "no ip scp server enable" ::
          (if snd sent then []
           else SaveConfig h ::
                (if snd saved then [] else [Said (ScpDisabled h)])) |},
     if snd sent || snd saved then Raise Py.NornirSubTaskError else Ok tt).
Proof.
  intros h sent saved. unfold scp_disable. work. fold h. fold sent.
  destruct (snd sent); work; [reflexivity|]. fold saved.
  destruct (snd saved); work.
  - now rewrite <- app_assoc.
  - now rewrite <- !app_assoc.
Qed.

Lemma scp_enable_run (s : workspace) :
  let h := host_name (ws_host s) in
  let sent := netmiko_send_config h "ip scp server enable" (ws_net s) in
  scp_enable s
  = ({| ws_host := ws_host s; ws_files := ws_files s; ws_net := fst sent;
        ws_out :=
          ws_out s ++
          SendConfig h "ip scp server enable" ::
          (if snd sent then [] else [Said (ScpEnabled h)]) |},
     if snd sent then Raise Py.NornirSubTaskError else Ok tt).
Proof.
  intros h sent. unfold scp_enable. work. fold h. fold sent.
  destruct (snd sent); work; [reflexivity|]. now rewrite <- app_assoc.
Qed.

(** X25: each provisioning task prints its closing message exactly when
    it returns normally: a host that is announced as enabled, rendered,
    applied or disabled has not failed the task, and a host that has not
    failed is announced. *)
Theorem completion_message_iff_success :
  announces scp_enable ScpEnabled /\
  announces scp_disable ScpDisabled /\
  announces render_configs BgpRendered /\
  announces apply_l3_configs InterfaceApplied /\
  announces apply_bgp_configs BgpApplied.
Proof.
  assert (Happly : forall path m c,
            c = (task_host <- gets (fun s => host_name (ws_host s)) ;;
                 run_napalm_configure (path task_host) ;;;
                 say (m task_host))%task ->
            announces c m).
  { intros path m c Hc s. pose proof (apply_configs_run path m c s Hc) as Hr.
    cbv zeta in Hr.
    destruct (read_file (path (host_name (ws_host s))) (ws_files s)) as [text|].
    - rewrite Hr. cbn [fst snd ws_out]. eexists. split; [reflexivity|].
      destruct (snd (napalm_configure _ text (ws_net s))).
      + split; [intros [H|[]]; discriminate H|discriminate].
      + split; [reflexivity|]. intros _. right. now left.
    - rewrite Hr. exists []. cbn [fst snd]. split; [now rewrite app_nil_r|].
      split; [intros []|discriminate]. }
  split; [|split; [|split; [|split]]].
  - intros s. rewrite scp_enable_run. cbn [fst snd ws_out].
    eexists. split; [reflexivity|].
    destruct (snd (netmiko_send_config _ _ (ws_net s))).
    + split; [intros [H|[]]; discriminate H|discriminate].
    + split; [reflexivity|]. intros _. right. now left.
  - intros s. rewrite scp_disable_run. cbn [fst snd ws_out].
    eexists. split; [reflexivity|].
    destruct (snd (netmiko_send_config _ _ (ws_net s))); cbn [orb].
    + split; [intros [H|[]]; discriminate H|discriminate].
    + destruct (snd (netmiko_save_config _ _)).
      * split; [intros [H|[H|[]]]; discriminate H|discriminate].
      * split; [reflexivity|]. intros _. right. right. now left.
  - intros s. pose proof (render_configs_run s) as Hr. cbv zeta in Hr.
    destruct (template_file "interfaces.j2" "templates/" (ws_host s)) as [ti|].
    + destruct (template_file "bgp.j2" "templates/" (ws_host s)) as [tb|];
        rewrite Hr; cbn [fst snd ws_out]; eexists; (split; [reflexivity|]).
      * split; [reflexivity|]. intros _. right. now left.
      * split; [intros [H|[]]; discriminate H|discriminate].
    + rewrite Hr. exists []. cbn [fst snd]. split; [now rewrite app_nil_r|].
      split; [intros []|discriminate].
  - apply (Happly intf_path InterfaceApplied). reflexivity.
  - apply (Happly bgp_path BgpApplied). reflexivity.
Qed.

(** X26: [scp_disable] saves the configuration exactly when the device
    accepted the command that disables SCP, and after that command;
    [scp_enable] never saves. *)
Theorem scp_disable_saves_iff_disabled (s : workspace) :
  let h := host_name (ws_host s) in
  let sent := netmiko_send_config h "no ip scp server enable" (ws_net s) in
  (exists new,
     ws_out (fst (scp_disable s))
       = (ws_out s ++ SendConfig h "no ip scp server enable" :: new)%list /\
     (In (SaveConfig h) new <-> snd sent = false) /\
     (snd sent = true ->
      new = [] /\ ws_net (fst (scp_disable s)) = fst sent)) /\
  (exists new,
     ws_out (fst (scp_enable s)) = (ws_out s ++ new)%list /\
     forall h', ~ In (SaveConfig h') new).
Proof.
  intros h sent. split.
  - rewrite scp_disable_run. cbn [fst ws_out ws_net]. fold h. fold sent.
    eexists. split; [reflexivity|].
    destruct (snd sent).
    + split; [split; [intros []|discriminate]|]. intros _. now split.
    + split; [split; [reflexivity|intros _; now left]|]. discriminate.
  - rewrite scp_enable_run. cbn [fst ws_out]. eexists. split; [reflexivity|].
    intros h' [H|H]; [discriminate H|].
    destruct (snd (netmiko_send_config _ _ (ws_net s))); [destruct H|].
    destruct H as [H|[]]. discriminate H.
Qed.

(** X27: only [render_configs] writes files, and it stays off the device:
    the tasks that talk to the device leave host data and files as they
    are, whatever their outcome, and [render_configs] leaves host data
    and network as they are and sends the device nothing. *)
Theorem device_and_files_apart :
  keeps on_device scp_enable /\
  keeps on_device scp_disable /\
  keeps on_device apply_l3_configs /\
  keeps on_device apply_bgp_configs /\
  keeps off_device render_configs.
Proof.
  assert (Happly : forall path m c,
            c = (task_host <- gets (fun s => host_name (ws_host s)) ;;
                 run_napalm_configure (path task_host) ;;;
                 say (m task_host))%task ->
            keeps on_device c).
  { intros path m c Hc s. pose proof (apply_configs_run path m c s Hc) as Hr.
    cbv zeta in Hr.
    destruct (read_file (path (host_name (ws_host s))) (ws_files s));
      rewrite Hr; split; reflexivity. }
  split; [|split; [|split; [|split]]].
  - intros s. rewrite scp_enable_run. split; reflexivity.
  - intros s. rewrite scp_disable_run. split; reflexivity.
  - apply (Happly intf_path InterfaceApplied). reflexivity.
  - apply (Happly bgp_path BgpApplied). reflexivity.
  - intros s. pose proof (render_configs_run s) as Hr. cbv zeta in Hr.
    destruct (template_file "interfaces.j2" "templates/" (ws_host s)) as [ti|].
    + destruct (template_file "bgp.j2" "templates/" (ws_host s)) as [tb|];
        rewrite Hr; (split; [reflexivity|]); (split; [reflexivity|]);
        eexists; (split; [reflexivity|]); repeat constructor.
    + rewrite Hr. split; [reflexivity|]. split; [reflexivity|].
      exists []. split; [now rewrite app_nil_r|constructor].
Qed.

End ProvisioningOutcomes.

(** ** The further properties on the sample data *)

(** The neighbor 192.0.2.9 is on no network of the router: no probe is
    sent and success is reported. *)
Lemma no_adjacency_reports_success_witness :
  @validate_l3 Sample.transport Sample.ipaddress Bench.isolated =
  (@mk_state Sample.transport (host Bench.isolated) Sample.inventory tt
     [Printed (AllPingsSucceeded "csr1")],
   Ok tt).
Proof.
  apply (@no_adjacency_reports_success Sample.transport Sample.ipaddress
           Bench.isolated Bench.remote_neighbor eq_refl).
  intros n intf Hn Hi. cbn in Hn, Hi.
  destruct Hn as [<-|[]]; destruct Hi as [<-|[]].
  split; [|reflexivity].
  do 4 eexists. split; [reflexivity|]. split; reflexivity.
Defined.

(** An address in CIDR form has no space to split on. *)
Lemma one_space_or_value_error_witness :
  @validate_l3_pair Sample.transport Sample.ipaddress "172.20.12.2" 0
     Bench.cidr_uplink Bench.malformed
  = (Bench.malformed, Raise Py.ValueError) /\
  @reconcile_ip Sample.transport Sample.ipaddress []
     ("GigabitEthernet2", Bench.cidr_uplink) Bench.malformed
  = (Bench.malformed, Raise Py.ValueError).
Proof.
  apply (@one_space_or_value_error Sample.transport Sample.ipaddress
           [] "172.20.12.2" 0 "GigabitEthernet2" Bench.cidr_uplink
           Bench.malformed).
  vm_compute. discriminate.
Defined.

(** The two peers of the sample, one up and one down. *)
Lemma validate_bgp_report_witness :
  @validate_bgp Sample.transport Sample.start =
  (@mk_state Sample.transport Sample.host_csr1 Sample.inventory tt
     [Printed (PeerUp "csr1" "172.20.12.2");
      Printed (PeerDown "csr1" "172.20.13.3")],
   Ok tt).
Proof.
  apply (proj1 (@validate_bgp_report Sample.transport Sample.start)
           Sample.peers eq_refl).
  intros peer [<-|[<-|[]]]; eexists; reflexivity.
Defined.

(** A host whose variables were never fetched has no device id. *)
Lemma get_updated_info_failures_witness :
  @get_updated_info Sample.transport Bench.fresh = (Bench.fresh, Raise Py.KeyError).
Proof.
  apply (proj1 (@get_updated_info_failures Sample.transport Bench.fresh)).
  reflexivity.
Defined.

Lemma update_netbox_fails_before_writing_witness :
  exists e,
    snd (@update_netbox Sample.transport Sample.ipaddress Bench.fresh) = Raise e /\
    (e = Py.KeyError \/ e = Py.NornirSubTaskError) /\
    netbox (fst (@update_netbox Sample.transport Sample.ipaddress Bench.fresh))
      = Sample.inventory /\
    out (fst (@update_netbox Sample.transport Sample.ipaddress Bench.fresh)) = [].
Proof.
  apply (@update_netbox_fails_before_writing Sample.transport Sample.ipaddress
           Bench.fresh).
  left. reflexivity.
Defined.

(** The first reconciliation of the sample router. *)
Lemma update_netbox_reconciles_inventory_witness :
  exists st',
    @update_netbox Sample.transport Sample.ipaddress Sample.start = (st', Ok tt) /\
    @reconciled Sample.ipaddress "csr1" 7 Sample.config
       Sample.device_interfaces (netbox st') /\
    keeps_records Sample.inventory (netbox st').
Proof.
  apply (@update_netbox_reconciles_inventory Sample.transport Sample.ipaddress
           Sample.start "csr1" 7 Sample.config Sample.device_interfaces
           "CSR1000V" eq_refl eq_refl eq_refl eq_refl eq_refl).
  - cbn. repeat constructor; cbn; intuition discriminate.
  - intros intf Hin. cbn in Hin.
    destruct Hin as [<-|[<-|[<-|[]]]]; eexists; reflexivity.
  - split.
    + eexists. split; reflexivity.
    + intros r [<-|[]] _. reflexivity.
  - unfold unique_interfaces. cbn. repeat constructor. intros [].
  - unfold unique_ips. cbn. constructor.
Defined.

(** The second address of the mistyped intent stops the reconciliation
    after the interfaces have been written. *)
Lemma malformed_address_after_upsert_witness :
  exists st' inv,
    @update_netbox Sample.transport Sample.ipaddress Bench.malformed
      = (st', Raise Py.ValueError) /\
    upserted "csr1" 7 Sample.device_interfaces Sample.inventory
      (map fst Sample.device_interfaces) inv /\
    Netbox.interface_rows (netbox st') = Netbox.interface_rows inv /\
    Netbox.devices (netbox st') = Netbox.devices Sample.inventory.
Proof.
  apply (@malformed_address_after_upsert Sample.transport Sample.ipaddress
           Bench.malformed "csr1" 7 Bench.mistyped Sample.device_interfaces
           "CSR1000V"
           [("GigabitEthernet1",
             {| intent_description := "Uplink to CSR-2";
                intent_ipaddr := "172.20.12.1 255.255.255.0";
                intent_state := "up" |})]
           ("GigabitEthernet2", Bench.cidr_uplink) []
           eq_refl eq_refl eq_refl eq_refl eq_refl).
  - cbn. repeat constructor; cbn; intuition discriminate.
  - reflexivity.
  - intros intf [<-|[]]. eexists. reflexivity.
  - reflexivity.
  - split.
    + eexists. split; reflexivity.
    + intros r [<-|[]] _. reflexivity.
  - unfold unique_interfaces. cbn. repeat constructor. intros [].
  - unfold unique_ips. cbn. constructor.
Defined.

(** The first task of a confirmed run is on a router to provision. *)
Lemma only_provisioned_hosts_run_witness :
  In (Executed ScpEnable "csr1" false) (log (Sample.launch ["y"; "y"; "y"])) \/
  In ("csr1", "wan-router-provision") Sample.hosts.
Proof.
  apply (@only_provisioned_hosts_run Sample.runner Sample.hosts
           (Sample.launch ["y"; "y"; "y"]) ScpEnable "csr1" false).
  vm_compute. left. reflexivity.
Defined.


(** One answer on standard input: the run ends at the second prompt. *)
Lemma input_exhausted_witness :
  @main Sample.runner Sample.hosts (Sample.launch ["y"]) =
  (fst (@run_stages Sample.runner (provisioned Sample.hosts)
          [ScpEnable; GetConfigVars; RenderConfigs]
          (answered (Sample.launch ["y"]))),
   Raise Py.EOFError).
Proof.
  pose proof (@input_exhausted Sample.runner Sample.hosts (Sample.launch ["y"]))
    as H.
  cbv zeta in H.
  assert (Hne : provisioned Sample.hosts <> []) by (vm_compute; discriminate).
  destruct (H Hne) as (_ & H1 & _).
  apply (H1 "y"); reflexivity.
Defined.

(** The sample router is found under its name. *)
Lemma get_config_vars_outcome_witness :
  exists d,
    find (fun d => String.eqb (Netbox.dev_name d) "csr1")
         (Netbox.devices Sample.inventory) = Some d /\
    @get_config_vars Sample.transport Bench.context Bench.fresh
    = (@mk_state Sample.transport
         {| host_name := "csr1";
            host_device_id := Some (Netbox.dev_id d);
            host_config_vars := @local_context_data Bench.context (Netbox.dev_id d);
            host_nb_interfaces := None;
            host_interfaces := None;
            host_device_info := None |}
         Sample.inventory tt [], Ok tt).
Proof.
  apply (proj2 (proj2 (@get_config_vars_outcome Sample.transport Bench.context
                         Bench.fresh))).
  vm_compute. discriminate.
Defined.

Lemma get_config_vars_binds_witness :
  exists device_id,
    host_device_id
      (host (fst (@get_config_vars Sample.transport Bench.context Bench.fresh)))
    = Some device_id /\
    bound Sample.inventory "csr1" device_id.
Proof.
  apply (@get_config_vars_binds Sample.transport Bench.context Bench.fresh).
  - cbn. repeat constructor. intros [].
  - cbn. repeat constructor. intros [].
  - discriminate.
  - reflexivity.
Defined.

(** Rendering and applying on the sample router. *)
Lemma render_then_apply_witness :
  let s1 := fst (@render_configs Sample.transport Bench.provisioner Bench.desk) in
  let s2 := fst (@apply_l3_configs Sample.transport Bench.provisioner s1) in
  let s3 := fst (@apply_bgp_configs Sample.transport Bench.provisioner s2) in
  read_file "configs/csr1_intf.txt" (ws_files s1) = Some "interfaces.j2 for csr1" /\
  read_file "configs/csr1_bgp.txt" (ws_files s1) = Some "bgp.j2 for csr1" /\
  ws_out s3 =
    [Said (InterfaceRendered "csr1"); Said (BgpRendered "csr1");
     Configure "csr1" "interfaces.j2 for csr1"; Said (InterfaceApplied "csr1");
     Configure "csr1" "bgp.j2 for csr1"; Said (BgpApplied "csr1")].
Proof.
  pose proof (@render_then_apply Sample.transport Bench.provisioner Bench.desk
                "interfaces.j2 for csr1" "bgp.j2 for csr1" eq_refl eq_refl) as H.
  cbv zeta in H. destruct H as (_ & Hi & Hb & _ & H1 & H2 & H3).
  cbv zeta. split; [exact Hi|]. split; [exact Hb|].
  rewrite H3, H2, H1. reflexivity.
Defined.

(** The router without neighbors keeps the BGP file of an earlier run. *)
Lemma render_configs_failures_witness :
  snd (@render_configs Sample.transport Bench.provisioner Bench.lone)
    = Raise Py.NornirSubTaskError /\
  ws_out (fst (@render_configs Sample.transport Bench.provisioner Bench.lone))
    = [Said (InterfaceRendered "csr9")] /\
  read_file "configs/csr9_intf.txt"
    (ws_files (fst (@render_configs Sample.transport Bench.provisioner Bench.lone)))
    = Some "interfaces.j2 for csr9" /\
  read_file "configs/csr9_bgp.txt"
    (ws_files (fst (@render_configs Sample.transport Bench.provisioner Bench.lone)))
    = Some "router bgp 65009".
Proof.
  apply (proj2 (@render_configs_failures Sample.transport Bench.provisioner
                  Bench.lone) "interfaces.j2 for csr9" eq_refl eq_refl).
Defined.

Lemma render_configs_other_hosts_witness :
  read_file (intf_path "csr2")
    (ws_files (fst (@render_configs Sample.transport Bench.provisioner Bench.desk)))
    = None /\
  read_file (bgp_path "csr2")
    (ws_files (fst (@render_configs Sample.transport Bench.provisioner Bench.desk)))
    = None.
Proof.
  apply (@render_configs_other_hosts Sample.transport Bench.provisioner
           Bench.desk "csr2").
  discriminate.
Defined.

(** An upper-case answer lets the run go on. *)
Lemma confirms_y_witness :
  @proceed Sample.runner (Sample.launch ["Y"])
  = (answered (Sample.launch ["Y"]), Ok tt).
Proof.
  apply (proj1 (@confirms_y Sample.runner (Sample.launch ["Y"]) "Y" [] eq_refl)).
  right. reflexivity.
Defined.

(** ** How a run ends *)

Section Endings.

Context {runner : Runner}.









End Endings.



(** ** The connectivity run as a whole *)

Section ConnectivityRun.

Context {transport : Transport} {ipaddress : Ipaddress}.

Lemma replies_app w1 o1 r1 w2 o2 r2 w3 :
  replies w1 o1 r1 w2 -> replies w2 o2 r2 w3 ->
  replies w1 (o1 ++ o2) (r1 ++ r2) w3.
Proof.
  intros H1 H2. induction H1 as [w|w h dest source w' r probes results w'' Hp _ IH];
    [exact H2|].
  cbn [app]. econstructor; [exact Hp|]. apply IH, H2.
Qed.

Lemma replies_length w owed results w' :
  replies w owed results w' -> List.length results = List.length owed.
Proof. intros H. induction H; cbn; congruence. Qed.

Lemma verdicts_app o1 r1 o2 r2 :
  List.length r1 = List.length o1 ->
  verdicts (o1 ++ o2) (r1 ++ r2) = (verdicts o1 r1 ++ verdicts o2 r2)%list.
Proof.
  revert r1. induction o1 as [|p o1 IH]; intros [|r r1] Hlen;
    try discriminate Hlen; [reflexivity|].
  cbn [app verdicts]. rewrite IH by (cbn in Hlen; congruence).
  now rewrite app_assoc.
Qed.

(** What the verdicts of a run hold: the probes, one failure report for
    each failed probe, and no closing message. *)
Lemma verdicts_filters w owed results w' h :
  replies w owed results w' ->
  filter is_probe (verdicts owed results) = owed /\
  List.length (filter is_failure_report (verdicts owed results))
    = List.length (filter probe_failed results) /\
  ~ In (Printed (AllPingsSucceeded h)) (verdicts owed results).
Proof.
  intros H.
  induction H as [w|w h0 dest source w' r probes results w'' _ _ (IH1 & IH2 & IH3)].
  - cbn. split; [reflexivity|]. split; [reflexivity|]. intros [].
  - cbn [verdicts verdict filter]. destruct (probe_failed r);
      cbn [app filter is_probe is_failure_report List.length].
    + rewrite IH1, IH2. split; [reflexivity|]. split; [reflexivity|].
      intros [E|[E|Hin]]; [discriminate E|discriminate E|contradiction].
    + rewrite IH1, IH2. split; [reflexivity|]. split; [reflexivity|].
      intros [E|Hin]; [discriminate E|contradiction].
Qed.

Lemma probe_failed_iff r : probe_failed r = true <-> classified_failed r.
Proof.
  unfold probe_failed, classified_failed.
  destruct (success r) as [ok|]; [apply Z.leb_le|tauto].
Qed.

Lemma tallied_refl failed (st : state) : tallied [] failed failed st st.
Proof.
  exists []. split; [constructor|]. cbn. rewrite app_nil_r.
  repeat split. lia.
Qed.

Lemma tallied_trans owed1 owed2 f1 f2 f3 (st1 st2 st3 : state) :
  tallied owed1 f1 f2 st1 st2 ->
  tallied owed2 f2 f3 st2 st3 ->
  tallied (owed1 ++ owed2) f1 f3 st1 st3.
Proof.
  intros (r1 & R1 & Hh1 & Hn1 & Ho1 & Hf1) (r2 & R2 & Hh2 & Hn2 & Ho2 & Hf2).
  exists (r1 ++ r2)%list. split; [eapply replies_app; eassumption|].
  split; [congruence|]. split; [congruence|]. split.
  - rewrite (verdicts_app _ _ _ _ (replies_length _ _ _ _ R1)).
    rewrite Ho2, Ho1, app_assoc. reflexivity.
  - rewrite filter_app, length_app. lia.
Qed.

Lemma validate_l3_pair_tallied destination failed_pings intf (st : state) :
  well_formed_pair destination intf ->
  transport_answers ->
  exists st' failed',
    validate_l3_pair destination failed_pings intf st = (st', Ok failed') /\
    tallied (probes_for (host_name (host st)) destination intf)
      failed_pings failed' st st'.
Proof.
  intros Hwf Hans.
  destruct Hwf as (source & mask & src & dst & Hs & Hsrc & Hdst).
  destruct (network_eq (network src) (network dst)) eqn:Hnet.
  - destruct (napalm_ping (host_name (host st)) destination source (net st))
      as [net' [r|]] eqn:Hping.
    2:{ exfalso. apply (Hans (host_name (host st)) destination source (net st)).
        rewrite Hping. reflexivity. }
    rewrite (validate_l3_pair_probe _ _ _ _ _ _ _ _ _ _ Hs Hsrc Hdst Hnet Hping).
    assert (Hp : probes_for (host_name (host st)) destination intf =
                 [Ping (host_name (host st)) destination source]).
    { unfold probes_for, same_network. rewrite Hs, Hsrc, Hdst, Hnet. reflexivity. }
    rewrite Hp.
    assert (Hr : replies (net st) [Ping (host_name (host st)) destination source]
                   [r] net').
    { econstructor; [exact Hping|constructor]. }
    destruct (success r) as [ok|] eqn:Hsucc;
      [destruct (Z.ltb_spec (packet_loss ok) 2) as [Hlt|Hge]|].
    + eexists _, _. split; [reflexivity|]. exists [r].
      split; [exact Hr|]. split; [reflexivity|]. split; [reflexivity|].
      cbn [verdicts verdict filter out]. unfold probe_failed. rewrite Hsucc.
      destruct (Z.leb_spec 2 (packet_loss ok)); [lia|].
      cbn. split; [reflexivity|lia].
    + eexists _, _. split; [reflexivity|]. exists [r].
      split; [exact Hr|]. split; [reflexivity|]. split; [reflexivity|].
      cbn [verdicts verdict filter out]. unfold probe_failed. rewrite Hsucc.
      destruct (Z.leb_spec 2 (packet_loss ok)); [|lia].
      cbn. split; [reflexivity|lia].
    + eexists _, _. split; [reflexivity|]. exists [r].
      split; [exact Hr|]. split; [reflexivity|]. split; [reflexivity|].
      cbn [verdicts verdict filter out]. unfold probe_failed. rewrite Hsucc.
      cbn. split; [reflexivity|lia].
  - assert (Hsame : same_network source mask destination = false).
    { unfold same_network. rewrite Hsrc, Hdst. exact Hnet. }
    rewrite (validate_l3_pair_skip _ _ _ _ _ _ Hs
               (ex_intro _ source (ex_intro _ mask (ex_intro _ src
                  (ex_intro _ dst (conj Hs (conj Hsrc Hdst)))))) Hsame).
    eexists _, _. split; [reflexivity|].
    unfold probes_for. rewrite Hs, Hsame. apply tallied_refl.
Qed.

Lemma validate_l3_interfaces_tallied destination intfs :
  Forall (well_formed_pair destination) intfs ->
  transport_answers ->
  forall failed_pings (st : state),
  exists st' failed',
    for_fold intfs failed_pings (validate_l3_pair destination) st
      = (st', Ok failed') /\
    tallied
      (flat_map (probes_for (host_name (host st)) destination) intfs)
      failed_pings failed' st st'.
Proof.
  intros Hwf Hans. induction Hwf as [|intf intfs Hi _ IH]; intros f st.
  - eexists _, _. split; [reflexivity|]. apply tallied_refl.
  - destruct (validate_l3_pair_tallied destination f intf st Hi Hans)
      as (st1 & f1 & Hrun & Hacc).
    destruct (IH f1 st1) as (st2 & f2 & Hrest & Hacc2).
    exists st2, f2. cbn [for_fold flat_map].
    rewrite (bind_ok _ _ _ _ _ Hrun). split; [exact Hrest|].
    assert (Hh : host st1 = host st) by (destruct Hacc as (? & ? & ? & _); assumption).
    rewrite Hh in Hacc2. eapply tallied_trans; eassumption.
Qed.

Lemma validate_l3_neighbors_tallied intfs neighbors :
  Forall (fun n => Forall (well_formed_pair (neighbor_ipaddr n)) intfs) neighbors ->
  transport_answers ->
  forall failed_pings (st : state),
  exists st' failed',
    for_fold neighbors failed_pings
      (fun failed_pings neighbor =>
         for_fold intfs failed_pings
           (validate_l3_pair (neighbor_ipaddr neighbor))) st
      = (st', Ok failed') /\
    tallied
      (flat_map
         (fun n => flat_map (probes_for (host_name (host st)) (neighbor_ipaddr n)) intfs)
         neighbors)
      failed_pings failed' st st'.
Proof.
  intros Hwf Hans. induction Hwf as [|n neighbors Hn _ IH]; intros f st.
  - eexists _, _. split; [reflexivity|]. apply tallied_refl.
  - destruct (validate_l3_interfaces_tallied _ _ Hn Hans f st)
      as (st1 & f1 & Hrun & Hacc).
    destruct (IH f1 st1) as (st2 & f2 & Hrest & Hacc2).
    exists st2, f2. cbn [for_fold flat_map].
    rewrite (bind_ok _ _ _ _ _ Hrun). split; [exact Hrest|].
    assert (Hh : host st1 = host st) by (destruct Hacc as (? & ? & ? & _); assumption).
    rewrite Hh in Hacc2. eapply tallied_trans; eassumption.
Qed.

(** The whole of [validate_l3] on a well-formed intent and a transport
    that answers: the output is the verdicts of the probes owed, in
    order, and then the closing message when no probe has failed. *)
Lemma validate_l3_trace (st : state) cfg :
  host_config_vars (host st) = Some cfg ->
  (forall n intf,
     In n (bgp_neighbors cfg) -> In intf (map snd (interfaces cfg)) ->
     well_formed_pair (neighbor_ipaddr n) intf) ->
  transport_answers ->
  let h := host_name (host st) in
  exists st' results,
    replies (net st) (owed_probes h cfg) results (net st') /\
    validate_l3 st = (st', Ok tt) /\
    host st' = host st /\ netbox st' = netbox st /\
    out st' = (out st ++ verdicts (owed_probes h cfg) results
                      ++ closing h results)%list.
Proof.
  intros Hcfg Hwf Hans h.
  assert (Hpings : exists st1 f,
            validate_l3_pings st = (st1, Ok f) /\
            tallied (owed_probes h cfg) 0 f st st1).
  { unfold validate_l3_pings. run. rewrite Hcfg.
    apply (validate_l3_neighbors_tallied (map snd (interfaces cfg))
             (bgp_neighbors cfg)); [|exact Hans].
    apply Forall_forall. intros n Hn. apply Forall_forall. intros i Hi.
    apply Hwf; assumption. }
  destruct Hpings as (st1 & f & Hrun & results & Hr & Hh & Hn & Ho & Hf).
  unfold validate_l3. rewrite (bind_ok _ _ _ _ _ Hrun).
  unfold closing. fold h.
  destruct (filter probe_failed results) as [|r0 failed] eqn:Hfilter.
  - cbn in Hf. subst f. run. cbn.
    exists {| host := host st1; netbox := netbox st1; net := net st1;
              out := out st1 ++
                     [Printed (AllPingsSucceeded (host_name (host st1)))] |},
           results.
    split; [exact Hr|]. split; [reflexivity|].
    cbn [host netbox out]. split; [exact Hh|]. split; [exact Hn|].
    rewrite Hfilter, Ho, Hh, <- app_assoc. reflexivity.
  - assert (Hz : (f =? 0) = false).
    { apply Z.eqb_neq. rewrite Hf. cbn [List.length]. lia. }
    rewrite Hz. run. exists st1, results. split; [exact Hr|].
    split; [reflexivity|]. split; [exact Hh|]. split; [exact Hn|].
    rewrite Hfilter, Ho, app_nil_r. reflexivity.
Qed.

(** C1: [validate_l3] on a well-formed intent and a transport that
    answers returns, and the probes in its output are, in order over all
    neighbor entries and all interfaces of the intent, one probe from the
    interface's address to the neighbor's address for each pair whose
    networks agree under the interface's mask, and none for any other
    pair, so a neighbor on the network of several interfaces is probed
    once from each; no more failures are reported than probes were sent,
    and the closing message is printed exactly when none is reported; a
    pair on disjoint networks owes no probe and leaves state and count
    as they were. *)
Theorem connectivity_probes (st : state) cfg :
  host_config_vars (host st) = Some cfg ->
  (forall n intf,
     In n (bgp_neighbors cfg) -> In intf (map snd (interfaces cfg)) ->
     well_formed_pair (neighbor_ipaddr n) intf) ->
  transport_answers ->
  (exists st' new,
     validate_l3 st = (st', Ok tt) /\
     out st' = (out st ++ new)%list /\
     filter is_probe new =
       flat_map
         (fun n =>
            flat_map (probes_for (host_name (host st)) (neighbor_ipaddr n))
              (map snd (interfaces cfg)))
         (bgp_neighbors cfg) /\
     (List.length (filter is_failure_report new)
      <= List.length (filter is_probe new))%nat /\
     (In (Printed (AllPingsSucceeded (host_name (host st)))) new <->
      filter is_failure_report new = [])) /\
  (forall n name intf source mask failed_pings (st0 : state),
     In n (bgp_neighbors cfg) -> In (name, intf) (interfaces cfg) ->
     split " " (intent_ipaddr intf) = [source; mask] ->
     same_network source mask (neighbor_ipaddr n) = false ->
     probes_for (host_name (host st0)) (neighbor_ipaddr n) intf = [] /\
     validate_l3_pair (neighbor_ipaddr n) failed_pings intf st0
       = (st0, Ok failed_pings)) /\
  (forall n name intf source mask,
     In n (bgp_neighbors cfg) -> In (name, intf) (interfaces cfg) ->
     split " " (intent_ipaddr intf) = [source; mask] ->
     same_network source mask (neighbor_ipaddr n) = true ->
     probes_for (host_name (host st)) (neighbor_ipaddr n) intf
       = [Ping (host_name (host st)) (neighbor_ipaddr n) source]).
Proof.
  intros Hcfg Hwf Hans. split; [|split].
  - destruct (validate_l3_trace st cfg Hcfg Hwf Hans)
      as (st' & results & Hr & Hrun & _ & _ & Hout).
    set (h := host_name (host st)) in *.
    destruct (verdicts_filters _ _ _ _ h Hr) as (Hprobes & Hcount & Hnone).
    pose proof (replies_length _ _ _ _ Hr) as Hlen.
    exists st', (verdicts (owed_probes h cfg) results ++ closing h results)%list.
    split; [exact Hrun|]. split; [exact Hout|].
    assert (Hfl : (List.length (filter probe_failed results)
                   <= List.length results)%nat) by apply filter_length_le.
    unfold closing.
    destruct (filter probe_failed results) as [|r0 failed] eqn:Hfilter.
    + rewrite !filter_app, Hprobes. cbn [filter is_probe is_failure_report].
      rewrite !app_nil_r. split; [reflexivity|].
      cbn [List.length] in Hcount.
      split; [rewrite Hcount; lia|]. split.
      * intros _. now apply length_zero_iff_nil.
      * intros _. apply in_or_app. right. now left.
    + rewrite !app_nil_r, Hprobes. split; [reflexivity|].
      split; [rewrite Hcount, <- Hlen; exact Hfl|].
      split; [intros Hin; contradiction|].
      intros E. rewrite E in Hcount. discriminate Hcount.
  - intros n name intf source mask f st0 Hn Hi Hs Hsame.
    assert (Hin : In intf (map snd (interfaces cfg))).
    { apply in_map_iff. exists (name, intf). split; [reflexivity|assumption]. }
    split.
    + unfold probes_for. rewrite Hs, Hsame. reflexivity.
    + apply (validate_l3_pair_skip _ _ _ _ _ _ Hs (Hwf n intf Hn Hin) Hsame).
  - intros n name intf source mask Hn Hi Hs Hsame.
    unfold probes_for. rewrite Hs, Hsame. reflexivity.
Qed.

(** C2: in a run of [validate_l3], each probe result that the transport
    returns is reported as failed, right after its probe, exactly when it
    has no ['success'] entry or a packet loss of 2 or more, so a loss of 1
    passes and a loss of 2 fails; and the all-succeeded message closes
    the output exactly when no result of the run has failed. *)
Theorem probe_classification :
  (forall (st : state) cfg,
     host_config_vars (host st) = Some cfg ->
     (forall n intf,
        In n (bgp_neighbors cfg) -> In intf (map snd (interfaces cfg)) ->
        well_formed_pair (neighbor_ipaddr n) intf) ->
     transport_answers ->
     let h := host_name (host st) in
     exists st' results,
       replies (net st) (owed_probes h cfg) results (net st') /\
       validate_l3 st = (st', Ok tt) /\
       out st' = (out st ++ verdicts (owed_probes h cfg) results
                         ++ closing h results)%list /\
       (In (Printed (AllPingsSucceeded h)) (closing h results) <->
        Forall (fun r => ~ classified_failed r) results) /\
       ~ In (Printed (AllPingsSucceeded h))
            (verdicts (owed_probes h cfg) results)) /\
  (forall h dest source r,
     (classified_failed r ->
      verdict (Ping h dest source) r
      = [Ping h dest source; Printed (PingFailed h source dest)]) /\
     (~ classified_failed r ->
      verdict (Ping h dest source) r = [Ping h dest source])) /\
  (forall sent err,
     ~ classified_failed
         {| success := Some {| probes_sent := sent; packet_loss := 1 |};
            error := err |} /\
     classified_failed
         {| success := Some {| probes_sent := sent; packet_loss := 2 |};
            error := err |} /\
     classified_failed {| success := None; error := err |}).
Proof.
  split; [|split].
  - intros st cfg Hcfg Hwf Hans h.
    destruct (validate_l3_trace st cfg Hcfg Hwf Hans)
      as (st' & results & Hr & Hrun & _ & _ & Hout).
    fold h in Hr, Hout.
    exists st', results. split; [exact Hr|]. split; [exact Hrun|].
    split; [exact Hout|]. split.
    + unfold closing.
      assert (Hall : filter probe_failed results = [] <->
                     Forall (fun r => ~ classified_failed r) results).
      { clear. induction results as [|r results IH]; cbn.
        - split; [constructor|reflexivity].
        - destruct (probe_failed r) eqn:Hf.
          + split; [discriminate|]. intros H. inversion H as [|? ? Hn _]; subst.
            contradiction Hn. now apply probe_failed_iff.
          + rewrite IH. split.
            * intros H. constructor; [|exact H].
              intros Hc. apply probe_failed_iff in Hc. congruence.
            * intros H. now inversion H. }
      destruct (filter probe_failed results) as [|r0 failed].
      * split; [intros _; now apply Hall|intros _; now left].
      * split; [intros []|]. intros H. apply Hall in H. discriminate H.
    + exact (proj2 (proj2 (verdicts_filters _ _ _ _ h Hr))).
  - intros h dest source r. unfold verdict. split; intros H.
    + apply probe_failed_iff in H. now rewrite H.
    + destruct (probe_failed r) eqn:Hf; [|reflexivity].
      contradiction H. now apply probe_failed_iff.
  - intros sent err. unfold classified_failed. cbn. repeat split; lia.
Qed.

End ConnectivityRun.

(** On the sample router the two uplinks are probed, each towards the
    neighbor of its own network, and the loopback towards none. *)
Lemma connectivity_probes_witness :
  exists st' new,
    @validate_l3 Sample.transport Sample.ipaddress Sample.start = (st', Ok tt) /\
    out st' = (out Sample.start ++ new)%list /\
    filter is_probe new =
      [Ping "csr1" "172.20.12.2" "172.20.12.1";
       Ping "csr1" "172.20.13.3" "172.20.13.1"].
Proof.
  destruct (@connectivity_probes Sample.transport Sample.ipaddress
              Sample.start Sample.config eq_refl)
    as ((st' & new & Hrun & Hout & Hprobes & _) & _).
  - intros n intf Hn Hi. cbn in Hn, Hi.
    destruct Hn as [<-|[<-|[]]]; destruct Hi as [<-|[<-|[<-|[]]]];
      do 4 eexists; (split; [reflexivity|split; reflexivity]).
  - intros h dest source w. cbn. discriminate.
  - exists st', new.
    split; [exact Hrun|]. split; [exact Hout|exact Hprobes].
Defined.

(** On the sample router the probe towards 172.20.13.3 loses every
    packet: it is reported, and the closing message is not printed. *)
Lemma probe_classification_witness :
  exists st' results,
    @validate_l3 Sample.transport Sample.ipaddress Sample.start = (st', Ok tt) /\
    out st' =
      (out Sample.start ++
       verdicts (@owed_probes Sample.ipaddress "csr1" Sample.config) results ++
       closing "csr1" results)%list /\
    out st' =
      [Ping "csr1" "172.20.12.2" "172.20.12.1";
       Ping "csr1" "172.20.13.3" "172.20.13.1";
       Printed (PingFailed "csr1" "172.20.13.1" "172.20.13.3")].
Proof.
  destruct (proj1 (@probe_classification Sample.transport Sample.ipaddress)
              Sample.start Sample.config eq_refl)
    as (st' & results & _ & Hrun & Hout & _).
  - intros n intf Hn Hi. cbn in Hn, Hi.
    destruct Hn as [<-|[<-|[]]]; destruct Hi as [<-|[<-|[<-|[]]]];
      do 4 eexists; (split; [reflexivity|split; reflexivity]).
  - intros h dest source w. cbn. discriminate.
  - exists st', results. split; [exact Hrun|]. split; [exact Hout|].
    assert (E : fst (@validate_l3 Sample.transport Sample.ipaddress Sample.start)
                = st') by (rewrite Hrun; reflexivity).
    rewrite <- E. vm_compute. reflexivity.
Defined.

(** ** The reconciliation run as a whole *)

Lemma has_record_iff inv device_id name :
  has_record inv device_id name = true <->
  In (device_id, name) (map row_key (Netbox.interface_rows inv)).
Proof.
  unfold has_record. rewrite existsb_exists, in_map_iff. split.
  - intros (r & Hin & Hb). apply andb_true_iff in Hb as (Hd & Hn).
    apply Z.eqb_eq in Hd. apply String.eqb_eq in Hn.
    exists r. split; [|exact Hin]. unfold row_key. now rewrite Hd, Hn.
  - intros (r & Hk & Hin). unfold row_key in Hk. injection Hk as Hd Hn.
    exists r. split; [exact Hin|]. rewrite Hd, Hn, Z.eqb_refl, String.eqb_refl.
    reflexivity.
Qed.

Lemma present_has_record inv h device_id name :
  Netbox.display_name inv device_id = h ->
  is_interface_present (Netbox.get_interfaces inv device_id) h name
  = has_record inv device_id name.
Proof.
  intros Hname. apply eq_true_iff_eq.
  rewrite (is_interface_present_key inv h device_id name Hname), has_record_iff.
  reflexivity.
Qed.

Lemma lookup_pairs {A} (d : list (string * A)) :
  NoDup (map fst d) -> forall p, In p d -> lookup (fst p) d = Some (snd p).
Proof.
  induction d as [|[k v] d IH]; intros Hnd p Hin; [destruct Hin|].
  cbn in Hnd. inversion Hnd as [|? ? Hnotin Hnd']; subst.
  cbn [lookup]. destruct Hin as [<-|Hin].
  - cbn. now rewrite String.eqb_refl.
  - destruct (String.eqb_spec k (fst p)) as [E|_]; [|now apply IH].
    exfalso. apply Hnotin. rewrite E. now apply in_map.
Qed.

Lemma filter_upsert_writes inv0 h device_id pairs :
  filter is_interface_write (flat_map (upsert_events inv0 h device_id) pairs)
  = map (upsert_write inv0 h device_id) pairs.
Proof.
  induction pairs as [|p pairs IH]; [reflexivity|].
  cbn [flat_map map]. rewrite filter_app, IH.
  unfold upsert_events, upsert_write.
  destruct (has_record inv0 device_id (fst p)); reflexivity.
Qed.

Lemma filter_ip_upsert_events inv0 h device_id pairs :
  filter is_ip_event (flat_map (upsert_events inv0 h device_id) pairs) = [].
Proof.
  induction pairs as [|p pairs IH]; [reflexivity|].
  cbn [flat_map]. rewrite filter_app, IH.
  unfold upsert_events, upsert_write.
  destruct (has_record inv0 device_id (fst p)); reflexivity.
Qed.

Lemma matching_ids_rows inv inv' device_id name :
  Netbox.interface_rows inv' = Netbox.interface_rows inv ->
  matching_ids inv' device_id name = matching_ids inv device_id name.
Proof. intros H. unfold matching_ids. now rewrite H. Qed.

Lemma matching_ids_snapshot inv device_id name :
  map nb_id
    (filter (fun i => String.eqb name (nb_name i))
       (Netbox.get_interfaces inv device_id))
  = matching_ids inv device_id name.
Proof.
  unfold matching_ids, Netbox.get_interfaces.
  induction (Netbox.interface_rows inv) as [|r rows IH]; [reflexivity|].
  cbn [filter]. destruct (Netbox.row_device_id r =? device_id); cbn [andb map filter].
  - cbn [Netbox.view nb_name]. destruct (String.eqb name (Netbox.row_name r));
      cbn [map]; now rewrite IH.
  - exact IH.
Qed.

Section IpReconciled.

Context {ipaddress : Ipaddress}.

Lemma ip_reconciled_ext h ids ids' ips intfs events ips' :
  (forall name, ids name = ids' name) ->
  ip_reconciled h ids ips intfs events ips' ->
  ip_reconciled h ids' ips intfs events ips'.
Proof.
  intros Hext H. induction H as [ips|ips name i a rest events ips' Hc Hn _ IH
                                    |ips name i a rest events ips' Hc Hk _ IH].
  - constructor.
  - rewrite Hext in *. now apply ip_created.
  - rewrite Hext. now apply ip_flagged.
Qed.

Lemma ip_reconciled_events h ids ips intfs events ips' :
  ip_reconciled h ids ips intfs events ips' ->
  filter is_ip_event events = events.
Proof.
  intros H. induction H as [ips|ips name i a rest events ips' _ _ _ IH
                               |ips name i a rest events ips' _ _ _ IH].
  - reflexivity.
  - rewrite filter_app, IH. f_equal.
    induction (ids name) as [|id l IHl]; [reflexivity|]. cbn. now rewrite IHl.
  - rewrite filter_app, IH. f_equal.
    induction (ids name) as [|id l IHl]; [reflexivity|]. cbn. now rewrite IHl.
Qed.

(** The IP records found are kept in place, and each record added goes
    with a create call and carries an address that no record found
    carries. *)
Lemma ip_reconciled_prefix h ids ips intfs events ips' :
  ip_reconciled h ids ips intfs events ips' ->
  exists created,
    ips' = (ips ++ created)%list /\
    forall row, In row created ->
      In (CreateIpAddress (Netbox.ip_address row) (Netbox.ip_interface_id row))
         events /\
      ~ In (Netbox.ip_address row) (map Netbox.ip_address ips).
Proof.
  intros H. induction H as [ips|ips name i a rest events ips' Hc Hn _ IH
                               |ips name i a rest events ips' Hc Hk _ IH].
  - exists []. rewrite app_nil_r. split; [reflexivity|]. intros row [].
  - destruct IH as (created & -> & Hrows).
    exists (map (new_ip a) (ids name) ++ created)%list.
    split; [now rewrite app_assoc|].
    intros row Hin. apply in_app_or in Hin as [Hin|Hin].
    + apply in_map_iff in Hin as (id & <- & Hid). cbn. split; [|exact Hn].
      apply in_or_app. left. now apply in_map.
    + destruct (Hrows row Hin) as (He & Hnot). split.
      * apply in_or_app. now right.
      * intros Hin'. apply Hnot. rewrite map_app. apply in_or_app. now left.
  - destruct IH as (created & -> & Hrows). exists created.
    split; [reflexivity|]. intros row Hin.
    destruct (Hrows row Hin) as (He & Hnot). split; [|exact Hnot].
    apply in_or_app. now right.
Qed.

(** An address that an IP record carries already: nothing is created for
    it, and it is flagged for each interface of the intent that has it
    and matches a record. *)
Lemma ip_reconciled_known h ids ips intfs events ips' a :
  ip_reconciled h ids ips intfs events ips' ->
  In a (map Netbox.ip_address ips) ->
  (forall id, ~ In (CreateIpAddress a id) events) /\
  (forall name i,
     In (name, i) intfs -> canonical i = Some a -> ids name <> [] ->
     In (Printed (IpExists h a)) events).
Proof.
  intros H. induction H as [ips|ips name i a0 rest events ips' Hc Hn _ IH
                               |ips name i a0 rest events ips' Hc Hk _ IH];
    intros Hin.
  - split; [intros id []|intros name i []].
  - assert (Hne : a0 <> a) by (intros ->; contradiction).
    destruct IH as (IH1 & IH2).
    { rewrite map_app. apply in_or_app. now left. }
    split.
    + intros id Hce. apply in_app_or in Hce as [Hce|Hce]; [|now apply (IH1 id)].
      apply in_map_iff in Hce as (id' & E & _). injection E as E _. contradiction.
    + intros n i' [E|Hin'] Hcan Hids.
      * injection E as _ <-. congruence.
      * apply in_or_app. right. now apply (IH2 n i').
  - destruct (IH Hin) as (IH1 & IH2). split.
    + intros id Hce. apply in_app_or in Hce as [Hce|Hce]; [|now apply (IH1 id)].
      apply in_map_iff in Hce as (id' & E & _). discriminate E.
    + intros n i' [E|Hin'] Hcan Hids.
      * injection E as <- <-. assert (a0 = a) by congruence. subst a0.
        apply in_or_app. left. destruct (ids name) as [|id l]; [contradiction|].
        now left.
      * apply in_or_app. right. now apply (IH2 n i').
Qed.

(** An address that no IP record carries: it is created, once, for the
    first interface of the intent that has it and matches a record. *)
Lemma ip_reconciled_new h ids ips intfs events ips' a :
  ip_reconciled h ids ips intfs events ips' ->
  ~ In a (map Netbox.ip_address ips) ->
  forall name i,
    In (name, i) intfs -> canonical i = Some a -> ids name <> [] ->
    exists id, In (CreateIpAddress a id) events /\ In (new_ip a id) ips'.
Proof.
  intros H. induction H as [ips|ips name i a0 rest events ips' Hc Hn Hrest IH
                               |ips name i a0 rest events ips' Hc Hk _ IH];
    intros Hnot n i' Hin Hcan Hids.
  - destruct Hin.
  - destruct (string_dec a0 a) as [->|Hne].
    + destruct (ids name) as [|id l] eqn:Hl.
      * destruct Hin as [E|Hin]; [injection E as <- _; contradiction|].
        cbn [map] in IH. rewrite app_nil_r in IH.
        destruct (IH Hnot n i' Hin Hcan Hids) as (id & He & Hr).
        exists id. split; [exact He|exact Hr].
      * exists id. split; [now left|].
        destruct (ip_reconciled_prefix _ _ _ _ _ _ Hrest) as (created & -> & _).
        apply in_or_app. left. apply in_or_app. right. now left.
    + destruct Hin as [E|Hin]; [injection E as _ <-; congruence|].
      destruct (IH) with (name := n) (i := i') as (id & He & Hr);
        try assumption.
      * rewrite map_app. intros Hin'. apply in_app_or in Hin' as [Hin'|Hin'];
          [contradiction|].
        apply in_map_iff in Hin' as (row & E & Hrow).
        apply in_map_iff in Hrow as (id & <- & _). cbn in E. contradiction.
      * exists id. split; [|exact Hr]. apply in_or_app. now right.
  - assert (Hne : a0 <> a) by (intros ->; contradiction).
    destruct Hin as [E|Hin]; [injection E as _ <-; congruence|].
    destruct (IH Hnot n i' Hin Hcan Hids) as (id & He & Hr).
    exists id. split; [|exact Hr]. apply in_or_app. now right.
Qed.

End IpReconciled.

Section ReconcileRun.

Context {transport : Transport} {ipaddress : Ipaddress}.

(** The output of one pass of the interface loop, whatever its outcome. *)
Lemma upsert_interface_out device_interfaces inv0 device_id x facts (st : state) :
  lookup x device_interfaces = Some facts ->
  Netbox.display_name inv0 device_id = host_name (host st) ->
  out (fst (upsert_interface device_interfaces
              (Netbox.get_interfaces inv0 device_id) device_id x st))
  = (out st ++ upsert_events inv0 (host_name (host st)) device_id (x, facts))%list /\
  host (fst (upsert_interface device_interfaces
               (Netbox.get_interfaces inv0 device_id) device_id x st))
  = host st.
Proof.
  intros Hl Hname.
  pose proof (present_has_record inv0 _ device_id x Hname) as Hp.
  unfold upsert_events, upsert_write. cbn [fst snd].
  destruct (has_record inv0 device_id x).
  - rewrite (upsert_interface_present _ _ _ _ _ _ Hl Hp). cbv zeta.
    destruct (Netbox.update_interface _ _ _ _ _); split; reflexivity.
  - rewrite (upsert_interface_absent _ _ _ _ _ _ Hl Hp). split; reflexivity.
Qed.

Lemma upsert_loop_out device_interfaces inv0 device_id h pairs :
  (forall p, In p pairs -> lookup (fst p) device_interfaces = Some (snd p)) ->
  Netbox.display_name inv0 device_id = h ->
  forall (st st' : state),
    host_name (host st) = h ->
    for_each (map fst pairs)
      (upsert_interface device_interfaces
         (Netbox.get_interfaces inv0 device_id) device_id) st = (st', Ok tt) ->
    out st' = (out st ++ flat_map (upsert_events inv0 h device_id) pairs)%list.
Proof.
  intros Hlook Hname. induction pairs as [|[x facts] pairs IH];
    intros st st' Hh Hrun.
  - cbn in Hrun. injection Hrun as <-. cbn. now rewrite app_nil_r.
  - cbn [map for_each fst] in Hrun.
    assert (Hl : lookup x device_interfaces = Some facts)
      by (apply (Hlook (x, facts)); now left).
    rewrite <- Hh in Hname.
    destruct (upsert_interface_out device_interfaces inv0 device_id x facts st
                Hl Hname) as (Ho & Hhost).
    unfold bind in Hrun.
    destruct (upsert_interface device_interfaces
                (Netbox.get_interfaces inv0 device_id) device_id x st)
      as [s1 [[]|e]]; [|discriminate Hrun].
    cbn [fst] in Ho, Hhost.
    rewrite (IH (fun p Hp => Hlook p (or_intror Hp)) s1 st'); try assumption.
    + cbn [flat_map]. rewrite Ho, Hh, <- app_assoc. reflexivity.
    + rewrite Hhost. exact Hh.
Qed.

(** [update_netbox] up to the end of the interface loop, on a bound host
    with answering getters. *)
Lemma update_netbox_upsert (st : state) h device_id device_interfaces info :
  host_name (host st) = h ->
  host_device_id (host st) = Some device_id ->
  napalm_get_interfaces h (net st) = Some device_interfaces ->
  napalm_get_facts h (net st) = Some info ->
  NoDup (map fst device_interfaces) ->
  bound (netbox st) h device_id ->
  unique_interfaces (netbox st) ->
  exists sb,
    update_netbox st = record_addresses sb /\
    upserted h device_id device_interfaces (netbox st)
      (map fst device_interfaces) (netbox sb) /\
    host_name (host sb) = h /\
    host_device_id (host sb) = Some device_id /\
    host_config_vars (host sb) = host_config_vars (host st) /\
    net sb = net st /\
    out sb = (out st ++
              flat_map (upsert_events (netbox st) h device_id) device_interfaces)%list.
Proof.
  intros Hh Hid Hgi Hgf Hnd Hb Hu.
  pose proof Hb as ((d0 & Hfind0 & Hdn0) & Hown0).
  assert (Hname : Netbox.display_name (netbox st) device_id = h).
  { unfold Netbox.display_name. rewrite Hfind0. exact Hdn0. }
  unfold update_netbox.
  rewrite <- Hh in Hgi, Hgf.
  step (get_updated_info_run st device_id device_interfaces info Hid Hgi Hgf).
  set (sa := {| host := _; netbox := netbox st; net := net st; out := out st |}).
  assert (Hga : bind (gets (fun s : state => host_interfaces (host s)))
                  (require Py.KeyError) sa = (sa, Ok device_interfaces))
    by reflexivity.
  step Hga.
  assert (Hgb : bind (gets (fun s : state => host_nb_interfaces (host s)))
                  (require Py.KeyError) sa
                = (sa, Ok (Netbox.get_interfaces (netbox st) device_id)))
    by reflexivity.
  step Hgb.
  assert (Hgc : bind (gets (fun s : state => host_device_id (host s)))
                  (require Py.KeyError) sa = (sa, Ok device_id)).
  { unfold bind, gets, require, sa. cbn. rewrite Hid. reflexivity. }
  step Hgc.
  destruct (upsert_interface_loop h device_id device_interfaces (netbox st)
              (map fst device_interfaces) Hname Hnd (fun k Hk => Hk) [] sa)
    as (sb & Hloop & Hups & Hhb & Hnb).
  { apply upserted_start; assumption. }
  { exact Hh. }
  { intros k _ []. }
  step Hloop. cbn [app] in Hups.
  exists sb. split; [reflexivity|]. split; [exact Hups|].
  split; [rewrite Hhb; exact Hh|]. split; [rewrite Hhb; exact Hid|].
  split; [rewrite Hhb; reflexivity|]. split; [exact Hnb|].
  apply (upsert_loop_out device_interfaces (netbox st) device_id h
           device_interfaces (lookup_pairs _ Hnd) Hname sa sb Hh Hloop).
Qed.

Lemma settling_refl (s : state) : settling s s.
Proof.
  split; [reflexivity|]. exists []. rewrite app_nil_r. split; [reflexivity|constructor].
Qed.

Lemma settling_trans (a b c : state) : settling a b -> settling b c -> settling a c.
Proof.
  intros (R1 & n1 & O1 & F1) (R2 & n2 & O2 & F2). split; [congruence|].
  exists (n1 ++ n2)%list. split; [rewrite O2, O1, app_assoc; reflexivity|].
  apply Forall_app. auto.
Qed.

Lemma settling_output (s s' : state) new :
  Netbox.interface_rows (netbox s') = Netbox.interface_rows (netbox s) ->
  out s' = (out s ++ new)%list ->
  Forall (fun e => is_interface_write e = false) new ->
  settling s s'.
Proof. intros Hr Ho Hf. split; [exact Hr|]. exists new. auto. Qed.

Lemma keeps_settling_get_updated_info : keeps settling get_updated_info.
Proof.
  intros s. unfold get_updated_info. run.
  destruct (host_device_id (host s)) as [device_id|]; cbn;
    [|apply settling_refl].
  destruct (napalm_get_interfaces (host_name (host s)) (net s)); cbn;
    [|apply (settling_output _ _ []); [reflexivity|now rewrite app_nil_r|constructor]].
  destruct (napalm_get_facts (host_name (host s)) (net s)); cbn;
    apply (settling_output _ _ []);
    first [reflexivity|now rewrite app_nil_r|constructor].
Qed.

Lemma keeps_settling_reconcile_ip nb_interfaces intf :
  keeps settling (reconcile_ip nb_interfaces intf).
Proof.
  unfold reconcile_ip.
  apply keeps_bind; [apply settling_trans|
                     apply keeps_unchanged; [apply settling_refl|reflexivity]|].
  intros h.
  apply keeps_bind; [apply settling_trans| |].
  { apply keeps_unchanged; [apply settling_refl|]. intros s. unfold unpack2.
    destruct (split " " _) as [|? [|? [|? ?]]]; reflexivity. }
  intros [ip mask].
  apply keeps_bind; [apply settling_trans
                    |apply keeps_require, settling_refl|].
  intros parsed. cbv zeta.
  apply keeps_bind; [apply settling_trans|
                     apply keeps_unchanged; [apply settling_refl|reflexivity]|].
  intros ip_exists.
  apply keeps_for_each; [apply settling_refl|apply settling_trans|].
  intros nb s.
  destruct (String.eqb (fst intf) (nb_name nb)); [|apply settling_refl].
  destruct ip_exists.
  - unfold netbox_create_ip_address, Netbox.create_ip_address. run.
    eapply settling_output; cbn [netbox out Netbox.interface_rows];
      [reflexivity|reflexivity|repeat constructor].
  - run. eapply settling_output; cbn [netbox out];
      [reflexivity|reflexivity|repeat constructor].
Qed.

Lemma keeps_settling_update_device h :
  keeps settling
    (bind (netbox_update_device h 2 2 1)
       (fun _ => c_print (MovedToProduction h))).
Proof.
  intros s. unfold netbox_update_device, Netbox.update_device. run.
  destruct (Netbox.patch_first _ _ (Netbox.devices (netbox s))) as [devs|]; cbn.
  - eapply settling_output; cbn [netbox out Netbox.interface_rows];
      [reflexivity|rewrite <- app_assoc; reflexivity|repeat constructor].
  - eapply settling_output; cbn [netbox out];
      [reflexivity|reflexivity|repeat constructor].
Qed.

Lemma keeps_settling_record_addresses : keeps settling record_addresses.
Proof.
  unfold record_addresses.
  pose proof settling_refl as Hr. pose proof settling_trans as Ht.
  apply keeps_bind; [exact Ht|apply keeps_settling_get_updated_info|intros _].
  apply keeps_bind; [exact Ht|apply keeps_get; assumption|intros nb_interfaces'].
  apply keeps_bind; [exact Ht|apply keeps_get; assumption|intros cfg].
  apply keeps_bind; [exact Ht| |intros _].
  { apply keeps_for_each; [exact Hr|exact Ht|].
    intros x. apply keeps_settling_reconcile_ip. }
  apply keeps_bind; [exact Ht|apply keeps_unchanged; [exact Hr|reflexivity]|].
  intros h. apply keeps_settling_update_device.
Qed.

(** The address loop on well-formed addresses: it returns, leaves
    everything but the IP records and the output as it was, and follows
    the conflict policy. *)
Lemma reconcile_ip_loop_trace nb_interfaces intfs :
  (forall intf, In intf intfs -> exists a, canonical (snd intf) = Some a) ->
  forall (st : state),
  exists st' events,
    for_each intfs (reconcile_ip nb_interfaces) st = (st', Ok tt) /\
    host st' = host st /\ net st' = net st /\
    Netbox.devices (netbox st') = Netbox.devices (netbox st) /\
    Netbox.interface_rows (netbox st') = Netbox.interface_rows (netbox st) /\
    out st' = (out st ++ events)%list /\
    ip_reconciled (host_name (host st))
      (fun name =>
         map nb_id (filter (fun i => String.eqb name (nb_name i)) nb_interfaces))
      (Netbox.ip_rows (netbox st)) intfs events (Netbox.ip_rows (netbox st')).
Proof.
  induction intfs as [|[name i] intfs IH]; intros Hparse st.
  - exists st, []. rewrite app_nil_r. repeat split. constructor.
  - destruct (Hparse (name, i) (or_introl eq_refl)) as (a & Ha). cbn [snd] in Ha.
    destruct (canonical_some _ _ Ha) as (ip & mask & parsed & Hs & Hp & Hastr).
    pose proof (reconcile_ip_run nb_interfaces (name, i) st ip mask parsed Hs Hp)
      as (Hcreate & Hflag).
    cbv zeta in Hcreate, Hflag. rewrite <- Hastr in Hcreate, Hflag.
    cbn [fst] in Hcreate, Hflag.
    assert (Hrest : forall intf, In intf intfs ->
                                 exists a, canonical (snd intf) = Some a)
      by (intros intf Hin; apply Hparse; now right).
    destruct (in_dec string_dec a
                (map Netbox.ip_address (Netbox.ip_rows (netbox st)))) as [Hk|Hn].
    + assert (Hne : Netbox.get_ip_addresses (netbox st) a <> []).
      { intros E. apply get_ip_addresses_nil in E. contradiction. }
      specialize (Hflag Hne).
      match type of Hflag with _ = (?s, _) => set (s1 := s) in * end.
      destruct (IH Hrest s1) as (st' & events & Hrun & Hh & Hnet & Hd & Hr & Ho & Hrec).
      exists st', (map (fun _ => Printed (IpExists (host_name (host st)) a))
                     (map nb_id (filter (fun i0 => String.eqb name (nb_name i0))
                                   nb_interfaces)) ++ events)%list.
      cbn [for_each]. rewrite (bind_ok _ _ _ _ _ Hflag).
      split; [exact Hrun|]. split; [exact Hh|]. split; [exact Hnet|].
      split; [exact Hd|]. split; [exact Hr|]. split.
      * rewrite Ho. unfold s1. cbn [out]. rewrite map_map, app_assoc. reflexivity.
      * apply ip_flagged; assumption.
    + assert (He : Netbox.get_ip_addresses (netbox st) a = [])
        by (now apply get_ip_addresses_nil).
      specialize (Hcreate He).
      match type of Hcreate with _ = (?s, _) => set (s1 := s) in * end.
      destruct (IH Hrest s1) as (st' & events & Hrun & Hh & Hnet & Hd & Hr & Ho & Hrec).
      exists st', (map (CreateIpAddress a)
                     (map nb_id (filter (fun i0 => String.eqb name (nb_name i0))
                                   nb_interfaces)) ++ events)%list.
      cbn [for_each]. rewrite (bind_ok _ _ _ _ _ Hcreate).
      split; [exact Hrun|]. split; [exact Hh|]. split; [exact Hnet|].
      split; [exact Hd|]. split; [exact Hr|]. split.
      * rewrite Ho. unfold s1. cbn [out]. rewrite map_map, app_assoc. reflexivity.
      * apply ip_created; [assumption|assumption|].
        unfold s1 in Hrec. cbn [netbox host Netbox.ip_rows] in Hrec.
        rewrite map_map. exact Hrec.
Qed.

(** The part of [update_netbox] after the interface loop, on a bound
    host with answering getters and well-formed addresses. *)
Lemma record_addresses_run (sb : state) h device_id cfg device_interfaces info :
  host_name (host sb) = h ->
  host_device_id (host sb) = Some device_id ->
  host_config_vars (host sb) = Some cfg ->
  napalm_get_interfaces h (net sb) = Some device_interfaces ->
  napalm_get_facts h (net sb) = Some info ->
  (forall intf, In intf (interfaces cfg) -> exists a, canonical (snd intf) = Some a) ->
  bound (netbox sb) h device_id ->
  exists st' events,
    record_addresses sb = (st', Ok tt) /\
    out st' = (out sb ++ events ++
               [UpdateDevice h 2 2 1; Printed (MovedToProduction h)])%list /\
    Netbox.interface_rows (netbox st') = Netbox.interface_rows (netbox sb) /\
    ip_reconciled h (matching_ids (netbox sb) device_id)
      (Netbox.ip_rows (netbox sb)) (interfaces cfg) events
      (Netbox.ip_rows (netbox st')).
Proof.
  intros Hh Hid Hcfg Hgi Hgf Hparse Hb.
  unfold record_addresses.
  rewrite <- Hh in Hgi, Hgf.
  step (get_updated_info_run sb device_id device_interfaces info Hid Hgi Hgf).
  set (sc := {| host := _; netbox := netbox sb; net := net sb; out := out sb |}).
  assert (Hgd : bind (gets (fun s : state => host_nb_interfaces (host s)))
                  (require Py.KeyError) sc
                = (sc, Ok (Netbox.get_interfaces (netbox sb) device_id)))
    by reflexivity.
  step Hgd.
  assert (Hge : bind (gets (fun s : state => host_config_vars (host s)))
                  (require Py.KeyError) sc = (sc, Ok cfg)).
  { unfold bind, gets, require, sc. cbn. rewrite Hcfg. reflexivity. }
  step Hge.
  destruct (reconcile_ip_loop_trace (Netbox.get_interfaces (netbox sb) device_id)
              (interfaces cfg) Hparse sc)
    as (sd & events & Hloop & Hhd & Hnd & Hdevd & Hrowd & Hod & Hrec).
  step Hloop. cbn [sc netbox host out host_name set_device_info set_interfaces
                   set_nb_interfaces] in Hdevd, Hrowd, Hod, Hrec.
  assert (Hbd : bound (netbox sd) h device_id).
  { destruct Hb as ((d0 & Hfind0 & Hdn0) & Hown0). split.
    - exists d0. rewrite Hdevd. auto.
    - intros r Hr Hdisp. rewrite Hrowd in Hr.
      rewrite (display_name_devices _ _ _ Hdevd) in Hdisp. auto. }
  destruct (update_device_bound _ _ _ Hbd)
    as (inv' & Hupd & Hrow' & Hip' & _).
  assert (Hhn : host_name (host sd) = h).
  { rewrite Hhd. unfold sc. cbn. exact Hh. }
  assert (Hfin : (task_host <- gets (fun s : state => host_name (host s)) ;;
                  netbox_update_device task_host 2 2 1 ;;;
                  c_print (MovedToProduction task_host)) sd
                 = ({| host := host sd; netbox := inv'; net := net sd;
                       out := out sd ++ [UpdateDevice h 2 2 1;
                                         Printed (MovedToProduction h)] |}, Ok tt)).
  { run. rewrite Hhn, Hupd. cbn. rewrite <- !app_assoc. reflexivity. }
  rewrite Hfin. eexists _, events. split; [reflexivity|].
  cbn [netbox out]. split; [rewrite Hod, <- app_assoc; reflexivity|].
  split; [congruence|]. rewrite Hip'.
  apply (ip_reconciled_ext _ _ _ _ _ _ _
           (matching_ids_snapshot (netbox sb) device_id)).
  rewrite Hh in Hrec. exact Hrec.
Qed.

End ReconcileRun.

Section ReconcilePolicy.

Context {transport : Transport} {ipaddress : Ipaddress}.

(** C6: a run of [update_netbox] on a bound host issues, for the observed
    interfaces in turn, one write each and no other write of an
    interface: a create exactly when the inventory it started on holds no
    record under the device and the interface's name, otherwise an update
    of description and MAC address, and this whatever becomes of the run
    after the interface loop.  Every observed interface ends with a
    record that carries the observed description and the normalized MAC
    address; the records of the device's other interfaces are there as
    before; keys stay unique; and no run of [update_netbox], whatever its
    outcome, removes an interface record. *)
Theorem interface_upsert (st : state) h device_id device_interfaces info :
  host_name (host st) = h ->
  host_device_id (host st) = Some device_id ->
  napalm_get_interfaces h (net st) = Some device_interfaces ->
  napalm_get_facts h (net st) = Some info ->
  NoDup (map fst device_interfaces) ->
  bound (netbox st) h device_id ->
  unique_interfaces (netbox st) ->
  let st' := fst (update_netbox st) in
  (exists new,
     out st' = (out st ++ new)%list /\
     filter is_interface_write new
     = map (upsert_write (netbox st) h device_id) device_interfaces) /\
  (forall name,
     has_record (netbox st) device_id name = true <->
     exists r, In r (Netbox.interface_rows (netbox st)) /\
               row_key r = (device_id, name)) /\
  (forall name facts,
     In (name, facts) device_interfaces ->
     exists r,
       In r (Netbox.interface_rows (netbox st')) /\
       row_key r = (device_id, name) /\
       Netbox.row_description r = description facts /\
       Netbox.row_mac r = normalize_mac (mac_address facts)) /\
  (forall name,
     ~ In name (map fst device_interfaces) ->
     In (device_id, name) (map row_key (Netbox.interface_rows (netbox st'))) <->
     In (device_id, name) (map row_key (Netbox.interface_rows (netbox st)))) /\
  unique_interfaces (netbox st') /\
  keeps_records (netbox st) (netbox st') /\
  (forall s : state, keeps_records (netbox s) (netbox (fst (update_netbox s)))).
Proof.
  intros Hh Hid Hgi Hgf Hnd Hb Hu st'.
  destruct (update_netbox_upsert st h device_id device_interfaces info
              Hh Hid Hgi Hgf Hnd Hb Hu)
    as (sb & Hrun & Hups & _ & _ & _ & _ & Hout).
  destruct (keeps_settling_record_addresses sb) as (Hrows & new & Ho & Hf).
  rewrite <- Hrun in Hrows, Ho. fold st' in Hrows, Ho.
  destruct Hups as (_ & _ & Huniq & _ & Hdone & Hrest & Hext).
  split; [|split; [|split; [|split; [|split; [|split]]]]].
  - exists (flat_map (upsert_events (netbox st) h device_id) device_interfaces
            ++ new)%list.
    split; [rewrite Ho, Hout, app_assoc; reflexivity|].
    rewrite filter_app, filter_upsert_writes.
    assert (E : filter is_interface_write new = []).
    { clear - Hf. induction Hf as [|e l He _ IH]; [reflexivity|].
      cbn. now rewrite He. }
    rewrite E, app_nil_r. reflexivity.
  - intros name. rewrite has_record_iff, in_map_iff. split.
    + intros (r & Hk & Hin). eauto.
    + intros (r & Hin & Hk). eauto.
  - intros name facts Hin. rewrite Hrows.
    destruct (Hdone name) as (facts' & r & Hl & Hr & Hk & Hd & Hm).
    { apply in_map_iff. now exists (name, facts). }
    pose proof (lookup_pairs _ Hnd (name, facts) Hin) as Hl'. cbn [fst snd] in Hl'.
    rewrite Hl' in Hl. injection Hl as <-.
    exists r. auto.
  - intros name Hn. rewrite Hrows. now apply Hrest.
  - unfold unique_interfaces. rewrite Hrows. exact Huniq.
  - unfold keeps_records. rewrite Hrows. exact Hext.
  - apply preserving_update_netbox.
Qed.

(** C4: a run of [update_netbox] on a bound host with well-formed
    addresses returns, and its address loop follows the conflict policy
    for the interfaces of the intent in turn: the canonical address of an
    interface is created, on the interface record of the device that
    carries the interface's name, exactly when no IP record carries that
    literal address at that point; when one does, nothing is created, no
    IP record is rewritten, and the address is flagged for manual
    verification.  So the IP records found at the start stay in place;
    for an address they carry, the run creates nothing and flags it; for
    an address they do not carry, the run creates it once. *)
Theorem ip_conflict_policy (st : state) h device_id cfg device_interfaces info :
  host_name (host st) = h ->
  host_device_id (host st) = Some device_id ->
  host_config_vars (host st) = Some cfg ->
  napalm_get_interfaces h (net st) = Some device_interfaces ->
  napalm_get_facts h (net st) = Some info ->
  NoDup (map fst device_interfaces) ->
  (forall intf, In intf (interfaces cfg) -> exists a, canonical (snd intf) = Some a) ->
  bound (netbox st) h device_id ->
  unique_interfaces (netbox st) ->
  exists st' new,
    update_netbox st = (st', Ok tt) /\
    out st' = (out st ++ new)%list /\
    ip_reconciled h (matching_ids (netbox st') device_id)
      (Netbox.ip_rows (netbox st)) (interfaces cfg)
      (filter is_ip_event new) (Netbox.ip_rows (netbox st')) /\
    (exists created,
       Netbox.ip_rows (netbox st') = (Netbox.ip_rows (netbox st) ++ created)%list /\
       forall row, In row created ->
         In (CreateIpAddress (Netbox.ip_address row) (Netbox.ip_interface_id row))
            new /\
         ~ In (Netbox.ip_address row)
              (map Netbox.ip_address (Netbox.ip_rows (netbox st)))) /\
    (forall name i a,
       In (name, i) (interfaces cfg) ->
       canonical i = Some a ->
       matching_ids (netbox st') device_id name <> [] ->
       (In a (map Netbox.ip_address (Netbox.ip_rows (netbox st))) ->
        In (Printed (IpExists h a)) new /\
        forall id, ~ In (CreateIpAddress a id) new) /\
       (~ In a (map Netbox.ip_address (Netbox.ip_rows (netbox st))) ->
        exists id,
          In (CreateIpAddress a id) new /\
          In (new_ip a id) (Netbox.ip_rows (netbox st')))).
Proof.
  intros Hh Hid Hcfg Hgi Hgf Hnd Hparse Hb Hu.
  destruct (update_netbox_upsert st h device_id device_interfaces info
              Hh Hid Hgi Hgf Hnd Hb Hu)
    as (sb & Hrun & Hups & Hhb & Hidb & Hcfgb & Hnb & Hout).
  destruct Hups as (Hdev & Hip & _ & Hown & _).
  assert (Hbb : bound (netbox sb) h device_id).
  { destruct Hb as ((d0 & Hfind0 & Hdn0) & _). split.
    - exists d0. rewrite Hdev. auto.
    - intros r Hr Hdisp. rewrite (display_name_devices _ _ _ Hdev) in Hdisp. auto. }
  rewrite <- Hnb in Hgi, Hgf. rewrite Hcfg in Hcfgb.
  destruct (record_addresses_run sb h device_id cfg device_interfaces info
              Hhb Hidb Hcfgb Hgi Hgf Hparse Hbb)
    as (st' & events & Hrec & Ho & Hrows & Hpol).
  rewrite Hip in Hpol.
  apply (ip_reconciled_ext _ _ (matching_ids (netbox st') device_id)) in Hpol.
  2:{ intros name. symmetry. now apply matching_ids_rows. }
  set (new := (flat_map (upsert_events (netbox st) h device_id) device_interfaces
               ++ events ++ [UpdateDevice h 2 2 1; Printed (MovedToProduction h)])%list).
  assert (Hev : filter is_ip_event new = events).
  { unfold new. rewrite !filter_app, filter_ip_upsert_events.
    rewrite (ip_reconciled_events _ _ _ _ _ _ Hpol). cbn. now rewrite app_nil_r. }
  assert (Hin_new : forall e, In e events -> In e new).
  { intros e He. unfold new. apply in_or_app. right. apply in_or_app. now left. }
  assert (Hnew_in : forall e, is_ip_event e = true -> In e new -> In e events).
  { intros e Hip_e He. rewrite <- Hev. apply filter_In. now split. }
  exists st', new. split; [rewrite Hrun; exact Hrec|].
  split; [rewrite Ho, Hout; unfold new; rewrite <- app_assoc; reflexivity|].
  split; [rewrite Hev; exact Hpol|]. split.
  - destruct (ip_reconciled_prefix _ _ _ _ _ _ Hpol) as (created & Hc & Hrowsc).
    exists created. split; [exact Hc|]. intros row Hin.
    destruct (Hrowsc row Hin) as (He & Hnot). split; [now apply Hin_new|exact Hnot].
  - intros name i a Hin Hcan Hids. split.
    + intros Hk. destruct (ip_reconciled_known _ _ _ _ _ _ a Hpol Hk) as (H1 & H2).
      split; [apply Hin_new; now apply (H2 name i)|].
      intros id Hc. apply (H1 id). now apply Hnew_in.
    + intros Hn.
      destruct (ip_reconciled_new _ _ _ _ _ _ a Hpol Hn name i Hin Hcan Hids)
        as (id & He & Hr).
      exists id. split; [now apply Hin_new|exact Hr].
Qed.

End ReconcilePolicy.

(** On the sample router the record of the first uplink is updated, and
    the second uplink and the loopback, which have no record, are
    created, the loopback with the sentinel for its MAC address. *)
Lemma interface_upsert_witness :
  exists new,
    out (fst (@update_netbox Sample.transport Sample.ipaddress Sample.start))
    = ([] ++ new)%list /\
    filter is_interface_write new
    = [UpdateInterface "csr1" "GigabitEthernet1" "Uplink to CSR-2"
         (Py.Str "00:0C:29:4F:A1:01");
       CreateInterface "GigabitEthernet2" 7 1000 "Uplink to CSR-3"
         (Py.Str "00:0C:29:4F:A1:02");
       CreateInterface "Loopback0" 7 1000 "Router ID"
         (Py.Str "EE:EE:EE:EE:EE:EE")].
Proof.
  pose proof (@interface_upsert Sample.transport Sample.ipaddress
                Sample.start "csr1" 7 Sample.device_interfaces "CSR1000V"
                eq_refl eq_refl eq_refl eq_refl) as H.
  cbv zeta in H. destruct H as ((new & Ho & Hw) & _).
  - cbn. repeat constructor; cbn; intuition discriminate.
  - split.
    + eexists. split; reflexivity.
    + intros r [<-|[]] _. reflexivity.
  - unfold unique_interfaces. cbn. repeat constructor. intros [].
  - exists new. split; [exact Ho|]. rewrite Hw. reflexivity.
Defined.

(** On the inventory that records the address of the first uplink
    already, the run flags that address and creates nothing for it, and
    creates the address of the second uplink. *)
Lemma ip_conflict_policy_witness :
  exists st' new,
    @update_netbox Sample.transport Sample.ipaddress Taken.start = (st', Ok tt) /\
    out st' = ([] ++ new)%list /\
    In (Printed (IpExists "csr1" "172.20.12.1/24")) new /\
    (forall id, ~ In (CreateIpAddress "172.20.12.1/24" id) new) /\
    exists id,
      In (CreateIpAddress "172.20.13.1/24" id) new /\
      In (new_ip "172.20.13.1/24" id) (Netbox.ip_rows (netbox st')).
Proof.
  destruct (@ip_conflict_policy Sample.transport Sample.ipaddress
              Taken.start "csr1" 7 Sample.config Sample.device_interfaces
              "CSR1000V" eq_refl eq_refl eq_refl eq_refl eq_refl)
    as (st' & new & Hrun & Ho & _ & _ & Hpol).
  - cbn. repeat constructor; cbn; intuition discriminate.
  - intros intf Hin. cbn in Hin.
    destruct Hin as [<-|[<-|[<-|[]]]]; eexists; reflexivity.
  - split.
    + eexists. split; reflexivity.
    + intros r [<-|[]] _. reflexivity.
  - unfold unique_interfaces. cbn. repeat constructor. intros [].
  - assert (E : fst (@update_netbox Sample.transport Sample.ipaddress Taken.start)
                = st') by (rewrite Hrun; reflexivity).
    assert (M1 : matching_ids (netbox st') 7 "GigabitEthernet1" <> []).
    { rewrite <- E. vm_compute. discriminate. }
    assert (M2 : matching_ids (netbox st') 7 "GigabitEthernet2" <> []).
    { rewrite <- E. vm_compute. discriminate. }
    exists st', new. split; [exact Hrun|]. split; [exact Ho|].
    destruct (Hpol "GigabitEthernet1"
                {| intent_description := "Uplink to CSR-2";
                   intent_ipaddr := "172.20.12.1 255.255.255.0";
                   intent_state := "up" |} "172.20.12.1/24")
      as (Hknown & _); [now left|reflexivity|exact M1|].
    destruct (Hpol "GigabitEthernet2"
                {| intent_description := "Uplink to CSR-3";
                   intent_ipaddr := "172.20.13.1 255.255.255.0";
                   intent_state := "up" |} "172.20.13.1/24")
      as (_ & Hfresh); [right; now left|reflexivity|exact M2|].
    destruct Hknown as (Hflag & Hnone); [now left|].
    split; [exact Hflag|]. split; [exact Hnone|].
    apply Hfresh. cbn. intros [H|[]]. discriminate H.
Defined.
